(** * Workload saturation calculator: a shallow embedding and its properties

    The development follows [core/data_processor.py] (class
    [WorkloadDataProcessor]) and [utils/validators.py] (class
    [DataValidator]).

    Modelling conventions.
    - Hours, percentages and thresholds are Python floats in the source.  The
      development reads them twice.  The first reading takes them as exact
      rationals ([Q], compared with [==]) and carries the properties that do
      not turn on rounding: labels, counts, order, bounds and errors; in it
      [float('inf')], the change-rate marker, is the type [rate].  The second
      reading, the module [Binary64], takes them as the binary64 floats they
      are, and carries the properties of the figures the source computes and
      stores.
    - A Python exception is a value of [error]; a function that may raise
      returns [result A].
    - A [datetime.date] is its proleptic Gregorian ordinal, with the range
      check Python performs on every date computation.
    - A table is read by header name.  The headers of a table are pairwise
      distinct, as [read_excel] makes them; a property that depends on it
      says so ([NoDup]).
    - [datetime.strptime(_, '%Y-%m-%d')] is a parameter of the development.
      The row sort behind [DataFrame.sort_values] is a parameter of
      [calculate_workload]; pandas' [nargsort] over numpy's quicksort is
      embedded as [pandas_sort_rows], and proved to be a descending sort
      ([pandas_sort_rows_descending]). *)

From Stdlib Require Import QArith Qround ZArith Ascii String List Bool Lia Lqa.
From Stdlib Require Import Permutation Sorted.
From Stdlib Require Import DecimalString.
From Stdlib Require Floats.
Import ListNotations.

Local Open Scope string_scope.
Local Open Scope Q_scope.

(* ================================================================== *)
(** ** Exceptions *)

Inductive error : Type :=
| ValueError
| OverflowError
| KeyError (key : string)
| TypeError
| ZeroDivisionError.

Definition result (A : Type) : Type := (error + A)%type.

Definition ok {A : Type} (a : A) : result A := inr a.

Definition raise {A : Type} (e : error) : result A := inl e.

Definition bind {A B : Type} (c : result A) (k : A -> result B) : result B :=
  match c with
  | inl e => inl e
  | inr a => k a
  end.

Notation "x <- c ;; k" := (bind c (fun x => k))
  (at level 61, c at next level, right associativity).

Fixpoint mapM {A B : Type} (f : A -> result B) (l : list A) : result (list B) :=
  match l with
  | [] => ok []
  | a :: l' => b <- f a ;; bs <- mapM f l' ;; ok (b :: bs)
  end.

(* ================================================================== *)
(** ** Numbers *)

(** Python's [x < y] on numbers. *)
Definition Qltb (x y : Q) : bool := negb (Qle_bool y x).

(** Python's [x / y]: raises [ZeroDivisionError] on a zero divisor. *)
Definition py_div (x y : Q) : result Q :=
  if Qeq_bool y 0 then raise ZeroDivisionError else ok (x / y).

(** Round to the nearest integer, ties to the even one. *)
Definition round_half_even (q : Q) : Z :=
  let f := Qfloor q in
  let r := q - inject_Z f in
  if Qltb r (1 # 2) then f
  else if Qltb (1 # 2) r then (f + 1)%Z
  else if Z.even f then f else (f + 1)%Z.

(** Python's [round(x, 1)]. *)
Definition round1 (q : Q) : Q := inject_Z (round_half_even (q * 10)) / 10.

(** The change rate before it is stored: a number or [float('inf')]. *)
Inductive rate : Type :=
| Fin (q : Q)
| Inf.

(* ================================================================== *)
(** ** Configuration

    The configuration is a nested dictionary.  A key that may be absent is an
    [option]; [dict_get o d] is Python's [dict.get(key, d)]. *)

Definition dict_get {A : Type} (o : option A) (d : A) : A :=
  match o with
  | Some a => a
  | None => d
  end.

Record OtherTasks : Type := {
  ot_enabled : option bool;
  ot_weekly_minutes_per_person : option Q
}.

Record PrimaryResponsibility : Type := {
  pr_enabled : option bool;
  pr_weekly_percentage : option Q
}.

Record Thresholds : Type := {
  th_under_saturated_max : option Q;
  th_normal_min : option Q;
  th_normal_max : option Q;
  th_over_saturated_min : option Q
}.

Record Config : Type := {
  standard_hours_per_week : option Q;
  other_tasks : option OtherTasks;
  primary_responsibility : option PrimaryResponsibility;
  saturation_thresholds : option Thresholds
}.

Definition empty_other_tasks : OtherTasks :=
  {| ot_enabled := None; ot_weekly_minutes_per_person := None |}.

Definition empty_primary_responsibility : PrimaryResponsibility :=
  {| pr_enabled := None; pr_weekly_percentage := None |}.

Definition empty_thresholds : Thresholds :=
  {| th_under_saturated_max := None; th_normal_min := None;
     th_normal_max := None; th_over_saturated_min := None |}.

(** [get_default_config] of [utils/config_loader.py]. *)
Definition get_default_config : Config :=
  {| standard_hours_per_week := Some 40;
     other_tasks := Some {| ot_enabled := Some true;
                            ot_weekly_minutes_per_person := Some 92 |};
     primary_responsibility := Some {| pr_enabled := Some true;
                                       pr_weekly_percentage := Some (1 # 2) |};
     saturation_thresholds :=
       Some {| th_under_saturated_max := Some 90; th_normal_min := Some 90;
               th_normal_max := Some 110; th_over_saturated_min := Some 110 |} |}.

(* ================================================================== *)
(** ** The processor: [WorkloadDataProcessor.__init__] *)

Record Processor : Type := {
  standard_hours : Q;
  other_tasks_enabled : bool;
  other_tasks_minutes : Q;
  other_tasks_hours : Q;
  primary_responsibility_enabled : bool;
  primary_responsibility_percentage : Q;
  primary_responsibility_hours : Q;
  under_saturated_max : Q;
  normal_max : Q
}.

Definition init (config : Config) : Processor :=
  let standard_hours := dict_get (standard_hours_per_week config) 40 in
  let ot := dict_get (other_tasks config) empty_other_tasks in
  let other_tasks_enabled := dict_get (ot_enabled ot) true in
  let other_tasks_minutes := dict_get (ot_weekly_minutes_per_person ot) 92 in
  let other_tasks_hours :=
    if other_tasks_enabled then other_tasks_minutes / 60 else 0 in
  let pr := dict_get (primary_responsibility config) empty_primary_responsibility in
  let primary_responsibility_enabled := dict_get (pr_enabled pr) true in
  let primary_responsibility_percentage :=
    dict_get (pr_weekly_percentage pr) (1 # 2) in
  let primary_responsibility_hours :=
    if primary_responsibility_enabled
    then standard_hours * primary_responsibility_percentage else 0 in
  let thresholds := dict_get (saturation_thresholds config) empty_thresholds in
  {| standard_hours := standard_hours;
     other_tasks_enabled := other_tasks_enabled;
     other_tasks_minutes := other_tasks_minutes;
     other_tasks_hours := other_tasks_hours;
     primary_responsibility_enabled := primary_responsibility_enabled;
     primary_responsibility_percentage := primary_responsibility_percentage;
     primary_responsibility_hours := primary_responsibility_hours;
     under_saturated_max := dict_get (th_under_saturated_max thresholds) 90;
     normal_max := dict_get (th_normal_max thresholds) 110 |}.

(* ================================================================== *)
(** ** Status labels and [get_status] *)

Definition idle : string := "空闲".
Definition under_saturated : string := "不饱和".
Definition normal : string := "正常".
Definition overloaded : string := "超负荷".

Definition get_status (self : Processor) (saturation : Q) : string :=
  if Qeq_bool saturation 0 then idle
  else if Qltb saturation (under_saturated_max self) then under_saturated
  else if Qle_bool saturation (normal_max self) then normal
  else overloaded.

(* ================================================================== *)
(** ** Dates: [datetime.date] and [timedelta] *)

(** [date.max.toordinal()], the ordinal of 9999-12-31. *)
Definition MAXORDINAL : Z := 3652059.

Record date : Type := { toordinal : Z }.

(** Every date object satisfies this. *)
Definition valid_date (d : date) : Prop :=
  (1 <= toordinal d <= MAXORDINAL)%Z.

(** [date.weekday()]: 0 is Monday, 6 is Sunday. *)
Definition weekday (d : date) : Z := ((toordinal d + 6) mod 7)%Z.

(** [timedelta(days=n)]; a timedelta holds at most 999999999 days. *)
Definition timedelta (n : Z) : result Z :=
  if (Z.abs n <=? 999999999)%Z then ok n else raise OverflowError.

(** [d + timedelta(days=n)]. *)
Definition date_add (d : date) (n : Z) : result date :=
  let o := (toordinal d + n)%Z in
  if ((0 <? o)%Z && (o <=? MAXORDINAL)%Z)%bool
  then ok {| toordinal := o |} else raise OverflowError.

(** [d - timedelta(days=n)]. *)
Definition date_sub (d : date) (n : Z) : result date := date_add d (- n).

(** [a <= b] on dates. *)
Definition date_leb (a b : date) : bool := (toordinal a <=? toordinal b)%Z.

Definition get_week_range (base_date : date) (weeks_offset : Z)
  : result (date * date) :=
  back <- timedelta (weekday base_date) ;;
  current_monday <- date_sub base_date back ;;
  ahead <- timedelta (7 * weeks_offset) ;;
  target_monday <- date_add current_monday ahead ;;
  six <- timedelta 6 ;;
  target_sunday <- date_add target_monday six ;;
  ok (target_monday, target_sunday).

(* ================================================================== *)
(** ** Tables: the parts of [pandas.DataFrame] the calculation uses

    A table is its list of column headers and its rows; a row holds one
    cell per column, in column order.  A cell is a number, a string or a
    missing value (NaN). *)

Inductive cell : Type :=
| CNum (q : Q)
| CStr (s : string)
| CNaN.

Record DataFrame : Type := {
  columns : list string;
  rows : list (list cell)
}.

(** [row[name]]: the cell under the header [name]. *)
Fixpoint row_get (cols : list string) (row : list cell) (name : string)
  : result cell :=
  match cols, row with
  | c :: cols', v :: row' =>
      if String.eqb c name then ok v else row_get cols' row' name
  | _, _ => raise (KeyError name)
  end.

(** [Series.sum()]: missing values are skipped, a string cannot be added
    to a number. *)
Fixpoint series_sum (cells : list cell) : result Q :=
  match cells with
  | [] => ok 0
  | c :: cs =>
      rest <- series_sum cs ;;
      match c with
      | CNum q => ok (q + rest)
      | CNaN => ok rest
      | CStr _ => raise TypeError
      end
  end.

(** [row[names].sum()]. *)
Definition row_sum (cols : list string) (row : list cell) (names : list string)
  : result Q :=
  cells <- mapM (row_get cols row) names ;;
  series_sum cells.

(** [[df.columns[i+1] for i, date in enumerate(date_columns_parsed)
     if date and start <= date <= end]]; [names] is [df.columns[1:]]. *)
Fixpoint week_cols (names : list string) (parsed : list (option date))
  (start finish : date) : list string :=
  match names, parsed with
  | n :: names', p :: parsed' =>
      let rest := week_cols names' parsed' start finish in
      match p with
      | Some d => if (date_leb start d && date_leb d finish)%bool
                  then n :: rest else rest
      | None => rest
      end
  | _, _ => []
  end.

(** [member_name in primary_members], the list holding strings. *)
Definition cell_in (c : cell) (l : list string) : bool :=
  match c with
  | CStr s => existsb (String.eqb s) l
  | _ => false
  end.

Definition nonempty {A : Type} (l : list A) : bool :=
  match l with
  | [] => false
  | _ :: _ => true
  end.

(* ================================================================== *)
(** ** Result rows

    One record per member; the comment after a field is its key in the
    source's dictionary. *)

Record ResultRow : Type := {
  member : cell;                      (* 成员 *)
  is_primary_label : string;          (* 是否主责 *)
  current_week_project_hours : Q;     (* 本周项目工时 *)
  current_week_other_tasks : Q;       (* 本周其他事务 *)
  current_week_total_hours : Q;       (* 本周总工时 *)
  current_week_saturation : Q;        (* 本周饱和度(%) *)
  current_week_status : string;       (* 本周状态 *)
  next_week_project_hours : Q;        (* 下周项目工时 *)
  next_week_other_tasks : Q;          (* 下周其他事务 *)
  next_week_total_hours : Q;          (* 下周总工时 *)
  next_week_saturation : Q;           (* 下周饱和度(%) *)
  next_week_status : string;          (* 下周状态 *)
  next_week_change : Q;               (* 下周变化 *)
  next_week_change_rate : Q;          (* 下周变化率(%) *)
  next_next_week_project_hours : Q;   (* 下下周项目工时 *)
  next_next_week_other_tasks : Q;     (* 下下周其他事务 *)
  next_next_week_total_hours : Q;     (* 下下周总工时 *)
  next_next_week_saturation : Q;      (* 下下周饱和度(%) *)
  next_next_week_status : string;     (* 下下周状态 *)
  next_next_week_change : Q;          (* 下下周变化 *)
  next_next_week_change_rate : Q      (* 下下周变化率(%) *)
}.

Record DateInfo : Type := {
  base_date : date;
  current_week_start : date;
  current_week_end : date;
  next_week_start : date;
  next_week_end : date;
  next_next_week_start : date;
  next_next_week_end : date;
  current_week_days : nat;
  next_week_days : nat;
  next_next_week_days : nat
}.

Definition member_col : string := "成员".
Definition sort_col : string := "下周饱和度(%)".

(** [round(r, 1) if r != float('inf') else 0]. *)
Definition store_rate (r : rate) : Q :=
  match r with
  | Fin q => round1 q
  | Inf => 0
  end.

(** The body of the loop over [df.iterrows()]. *)
Definition calculate_row (self : Processor) (cols : list string)
  (current_week_cols next_week_cols next_next_week_cols : list string)
  (primary_members : list string) (row : list cell) : result ResultRow :=
  member_name <- row_get cols row member_col ;;
  let is_primary := cell_in member_name primary_members in
  let primary_hours :=
    if is_primary then primary_responsibility_hours self else 0 in
  (* current week *)
  current_week_project_hours <-
    (if nonempty current_week_cols
     then row_sum cols row current_week_cols else ok 0) ;;
  let current_week_other_tasks := other_tasks_hours self + primary_hours in
  let current_week_total_hours :=
    current_week_project_hours + current_week_other_tasks in
  current_week_saturation <-
    (if Qltb 0 (standard_hours self)
     then q <- py_div current_week_total_hours (standard_hours self) ;;
          ok (q * 100)
     else ok 0) ;;
  (* next week *)
  next_week_project_hours <-
    (if nonempty next_week_cols
     then row_sum cols row next_week_cols else ok 0) ;;
  let next_week_other_tasks := other_tasks_hours self + primary_hours in
  let next_week_total_hours :=
    next_week_project_hours + next_week_other_tasks in
  next_week_saturation <-
    (if Qltb 0 (standard_hours self)
     then q <- py_div next_week_total_hours (standard_hours self) ;;
          ok (q * 100)
     else ok 0) ;;
  (* the week after next *)
  next_next_week_project_hours <-
    (if nonempty next_next_week_cols
     then row_sum cols row next_next_week_cols else ok 0) ;;
  let next_next_week_other_tasks := other_tasks_hours self + primary_hours in
  let next_next_week_total_hours :=
    next_next_week_project_hours + next_next_week_other_tasks in
  next_next_week_saturation <-
    (if Qltb 0 (standard_hours self)
     then q <- py_div next_next_week_total_hours (standard_hours self) ;;
          ok (q * 100)
     else ok 0) ;;
  (* change rates *)
  next_week <-
    (if Qltb 0 current_week_total_hours
     then let change := next_week_total_hours - current_week_total_hours in
          q <- py_div change current_week_total_hours ;;
          ok (change, Fin (q * 100))
     else ok (next_week_total_hours,
              if Qeq_bool next_week_total_hours 0 then Fin 0 else Inf)) ;;
  next_next_week <-
    (if Qltb 0 next_week_total_hours
     then let change := next_next_week_total_hours - next_week_total_hours in
          q <- py_div change next_week_total_hours ;;
          ok (change, Fin (q * 100))
     else ok (next_next_week_total_hours,
              if Qeq_bool next_next_week_total_hours 0 then Fin 0 else Inf)) ;;
  ok {| member := member_name;
        is_primary_label := if is_primary then "是" else "否";
        current_week_project_hours := current_week_project_hours;
        current_week_other_tasks := current_week_other_tasks;
        current_week_total_hours := current_week_total_hours;
        current_week_saturation := round1 current_week_saturation;
        current_week_status := get_status self current_week_saturation;
        next_week_project_hours := next_week_project_hours;
        next_week_other_tasks := next_week_other_tasks;
        next_week_total_hours := next_week_total_hours;
        next_week_saturation := round1 next_week_saturation;
        next_week_status := get_status self next_week_saturation;
        next_week_change := round1 (fst next_week);
        next_week_change_rate := store_rate (snd next_week);
        next_next_week_project_hours := next_next_week_project_hours;
        next_next_week_other_tasks := next_next_week_other_tasks;
        next_next_week_total_hours := next_next_week_total_hours;
        next_next_week_saturation := round1 next_next_week_saturation;
        next_next_week_status := get_status self next_next_week_saturation;
        next_next_week_change := round1 (fst next_next_week);
        next_next_week_change_rate := store_rate (snd next_next_week) |}.

(** What a descending sort on the stored next-week saturation guarantees,
    whatever algorithm performs it: the same rows, keys non-increasing. *)
Definition key_ge (a b : ResultRow) : Prop :=
  next_week_saturation b <= next_week_saturation a.

Definition descending_sort (sorter : list ResultRow -> list ResultRow) : Prop :=
  forall l, Permutation l (sorter l) /\ StronglySorted key_ge (sorter l).

Section Calculation.

(** [datetime.strptime(s, '%Y-%m-%d').date()]. *)
Variable strptime : string -> result date.

(** The order [sort_values('下周饱和度(%)', ascending=False)] gives the rows
    (no [kind] argument is passed, so the library's default algorithm);
    [pandas_sort_rows] is that order as pandas and numpy compute it, a
    descending sort by [pandas_sort_rows_descending]. *)
Variable sort_rows : list ResultRow -> list ResultRow.

(** The [try]/[except] around the header parse: any failure gives [None]. *)
Definition parse_header (col : string) : option date :=
  match strptime col with
  | inr d => Some d
  | inl _ => None
  end.

(** [pd.DataFrame(results).sort_values('下周饱和度(%)', ascending=False)]: a
    frame built from no records has no columns, and sorting by an absent
    column raises [KeyError]. *)
Definition sort_values (results : list ResultRow) : result (list ResultRow) :=
  match results with
  | [] => raise (KeyError sort_col)
  | _ :: _ => ok (sort_rows results)
  end.

(** [now] is the value of [datetime.now().date()] at the call. *)
Definition calculate_workload (self : Processor) (df : DataFrame)
  (base_date : option string) (primary_members : option (list string))
  (now : date) : result (list ResultRow * DateInfo) :=
  let primary_members :=
    match primary_members with
    | None => []
    | Some l => l
    end in
  today <-
    match base_date with
    | None => ok now
    | Some s => if String.eqb s "" then ok now else strptime s
    end ;;
  current_week <- get_week_range today 0 ;;
  next_week <- get_week_range today 1 ;;
  next_next_week <- get_week_range today 2 ;;
  let date_columns := tl (columns df) in
  let date_columns_parsed := map parse_header date_columns in
  let current_week_cols :=
    week_cols date_columns date_columns_parsed
      (fst current_week) (snd current_week) in
  let next_week_cols :=
    week_cols date_columns date_columns_parsed
      (fst next_week) (snd next_week) in
  let next_next_week_cols :=
    week_cols date_columns date_columns_parsed
      (fst next_next_week) (snd next_next_week) in
  results <-
    mapM (calculate_row self (columns df) current_week_cols next_week_cols
            next_next_week_cols primary_members) (rows df) ;;
  result_df <- sort_values results ;;
  ok (result_df,
      {| base_date := today;
         current_week_start := fst current_week;
         current_week_end := snd current_week;
         next_week_start := fst next_week;
         next_week_end := snd next_week;
         next_next_week_start := fst next_next_week;
         next_next_week_end := snd next_next_week;
         current_week_days := length current_week_cols;
         next_week_days := length next_week_cols;
         next_next_week_days := length next_next_week_cols |}).

End Calculation.

(* ================================================================== *)
(** ** [DataValidator]

    A validator returns the pair (valid, message). *)

Section Validation.

(** Whether [pd.to_datetime(col)] accepts the header. *)
Variable to_datetime_ok : string -> bool.

Definition isna (c : cell) : bool :=
  match c with
  | CNaN => true
  | _ => false
  end.

(** [df[first_col].isna().all()]. *)
Definition first_col_all_na (df : DataFrame) : bool :=
  forallb (fun row => match row with
                      | c :: _ => isna c
                      | [] => true
                      end) (rows df).

Definition validate_excel_structure (df : DataFrame) : bool * option string :=
  (* df.empty: no rows or no columns *)
  if (negb (nonempty (rows df)) || negb (nonempty (columns df)))%bool
  then (false, Some "数据表为空")
  else if (length (columns df) <? 2)%nat
  then (false, Some "数据表列数不足,至少需要包含成员列和日期列")
  else if first_col_all_na df
  then (false, Some "第一列(成员列)不能全部为空")
  else
    let date_cols := tl (columns df) in
    if (length date_cols =? 0)%nat
    then (false, Some "缺少日期列")
    else
      let invalid_dates := filter (fun col => negb (to_datetime_ok col)) date_cols in
      if nonempty invalid_dates
      then (false, Some ("日期列格式错误: " ++ String.concat ", " invalid_dates))
      else (true, None).

End Validation.

Definition required_threshold_keys : list (string * (Thresholds -> option Q)) :=
  [ ("under_saturated_max", th_under_saturated_max);
    ("normal_min", th_normal_min);
    ("normal_max", th_normal_max);
    ("over_saturated_min", th_over_saturated_min) ].

(** The loop over [required_threshold_keys]: the first key that is absent or
    negative gives the message. *)
Fixpoint check_threshold_keys (thresholds : Thresholds)
  (keys : list (string * (Thresholds -> option Q))) : option string :=
  match keys with
  | [] => None
  | (key, field) :: keys' =>
      match field thresholds with
      | None => Some ("缺少饱和度阈值配置: " ++ key)
      | Some value =>
          if Qltb value 0
          then Some ("饱和度阈值 '" ++ key ++ "' 必须为非负数")
          else check_threshold_keys thresholds keys'
      end
  end.

Definition validate_config (config : Config) : bool * option string :=
  match standard_hours_per_week config with
  | None => (false, Some "缺少必需配置项: standard_hours_per_week")
  | Some standard_hours =>
  match other_tasks config with
  | None => (false, Some "缺少必需配置项: other_tasks")
  | Some _ =>
  match saturation_thresholds config with
  | None => (false, Some "缺少必需配置项: saturation_thresholds")
  | Some thresholds =>
      if Qle_bool standard_hours 0
      then (false, Some "标准工时必须为正数")
      else if Qltb 168 standard_hours
      then (false, Some "标准工时不能超过168小时(一周总时长)")
      else
        match check_threshold_keys thresholds required_threshold_keys with
        | Some msg => (false, Some msg)
        | None =>
            (* thresholds[key]: the four keys are present at this point *)
            let under_saturated_max := dict_get (th_under_saturated_max thresholds) 0 in
            let normal_min := dict_get (th_normal_min thresholds) 0 in
            let normal_max := dict_get (th_normal_max thresholds) 0 in
            let over_saturated_min := dict_get (th_over_saturated_min thresholds) 0 in
            if (Qle_bool under_saturated_max normal_min
                && Qle_bool normal_min normal_max
                && Qle_bool normal_max over_saturated_min)%bool
            then (true, None)
            else (false, Some "饱和度阈值逻辑错误: under_saturated_max ≤ normal_min ≤ normal_max ≤ over_saturated_min")
        end
  end end end.

(* ================================================================== *)
(** ** Concrete library functions, for running the model

    [strptime_ymd] reads ASCII text the way the format ['%Y-%m-%d'] does:
    four digits, a month of one or two digits, a day of one or two digits,
    then builds the date as [date(y, m, d)] does. *)

Definition digit (c : Ascii.ascii) : option Z :=
  let n := Ascii.nat_of_ascii c in
  if ((48 <=? n) && (n <=? 57))%nat then Some (Z.of_nat (n - 48)) else None.

Fixpoint split_on (sep : Ascii.ascii) (s : string) : list string :=
  match s with
  | EmptyString => [EmptyString]
  | String c s' =>
      if Ascii.eqb c sep then EmptyString :: split_on sep s'
      else match split_on sep s' with
           | [] => [String c EmptyString]
           | t :: ts => String c t :: ts
           end
  end.

Definition parse_year (t : string) : option Z :=
  match t with
  | String a (String b (String c (String d EmptyString))) =>
      match digit a, digit b, digit c, digit d with
      | Some a, Some b, Some c, Some d => Some (a * 1000 + b * 100 + c * 10 + d)%Z
      | _, _, _, _ => None
      end
  | _ => None
  end.

(** One or two digits, or a blank and a digit when [blank] is set; the value
    is checked against [hi] (12 for a month, 31 for a day). *)
Definition parse_field (blank : bool) (hi : Z) (t : string) : option Z :=
  let value :=
    match t with
    | String a EmptyString => digit a
    | String a (String b EmptyString) =>
        match digit a, digit b with
        | Some a, Some b => Some (a * 10 + b)%Z
        | None, Some b =>
            if (blank && Ascii.eqb a " "%char)%bool then Some b else None
        | _, _ => None
        end
    | _ => None
    end in
  match value with
  | Some v => if ((1 <=? v) && (v <=? hi))%Z then Some v else None
  | None => None
  end.

Definition is_leap (y : Z) : bool :=
  ((y mod 4 =? 0) && (negb (y mod 100 =? 0) || (y mod 400 =? 0)))%Z.

Definition days_in_month (y m : Z) : Z :=
  if (m =? 2)%Z then (if is_leap y then 29 else 28)%Z
  else if ((m =? 4) || (m =? 6) || (m =? 9) || (m =? 11))%Z then 30%Z
  else 31%Z.

(** The days of the first [k] months of year [y]. *)
Fixpoint days_before_month (y : Z) (k : nat) : Z :=
  match k with
  | O => 0
  | S k' => (days_before_month y k' + days_in_month y (Z.of_nat k))%Z
  end.

Definition days_before_year (y : Z) : Z :=
  let y' := (y - 1)%Z in
  (y' * 365 + y' / 4 - y' / 100 + y' / 400)%Z.

(** [date(y, m, d)]. *)
Definition date_of_ymd (y m d : Z) : result date :=
  if ((1 <=? y) && (y <=? 9999) && (1 <=? m) && (m <=? 12)
      && (1 <=? d) && (d <=? days_in_month y m))%Z
  then ok {| toordinal :=
               (days_before_year y + days_before_month y (Z.to_nat (m - 1))
                + d)%Z |}
  else raise ValueError.

Definition strptime_ymd (s : string) : result date :=
  match split_on "-"%char s with
  | [ty; tm; td] =>
      match parse_year ty, parse_field false 12 tm, parse_field true 31 td with
      | Some y, Some m, Some d => date_of_ymd y m d
      | _, _, _ => raise ValueError
      end
  | _ => raise ValueError
  end.

(** A descending sort by insertion, which keeps rows of equal key in their
    input order. *)

Section Insertion.

(** [ahead k x] decides whether an element of key [x] already placed stays
    before a new row of key [k]. *)
Variable ahead : Q -> Q -> bool.

Fixpoint insert_row (r : ResultRow) (l : list ResultRow) : list ResultRow :=
  match l with
  | [] => [r]
  | x :: l' =>
      if ahead (next_week_saturation r) (next_week_saturation x)
      then x :: insert_row r l'
      else r :: l
  end.

Definition insertion_sort (l : list ResultRow) : list ResultRow :=
  fold_right insert_row [] l.

End Insertion.

Definition sort_stable : list ResultRow -> list ResultRow :=
  insertion_sort (fun k x => Qltb k x).

(* ================================================================== *)
(** ** Vocabulary of the properties

    Readings of the fields of a record week by week, the quantities of the
    specification, and the closed form of the loop body. *)

(** The four boundaries, read as four separate rules. *)
Definition status_boundaries (self : Processor) (s : Q) : Prop :=
  (s == 0 -> get_status self s = idle) /\
  (0 < s /\ s < under_saturated_max self -> get_status self s = under_saturated) /\
  (under_saturated_max self <= s /\ s <= normal_max self ->
   get_status self s = normal) /\
  (normal_max self < s -> get_status self s = overloaded).

(** A configuration that differs only in the two thresholds the processor
    never reads. *)
Definition set_unread_thresholds (normal_min over_saturated_min : option Q)
  (config : Config) : Config :=
  {| standard_hours_per_week := standard_hours_per_week config;
     other_tasks := other_tasks config;
     primary_responsibility := primary_responsibility config;
     saturation_thresholds :=
       match saturation_thresholds config with
       | Some th =>
           Some {| th_under_saturated_max := th_under_saturated_max th;
                   th_normal_min := normal_min;
                   th_normal_max := th_normal_max th;
                   th_over_saturated_min := over_saturated_min |}
       | None => None
       end |}.

(** The three weeks of a record. *)
Inductive week : Type :=
| ThisWeek
| NextWeek
| WeekAfterNext.

(** The fields of a record, by week. *)
Definition project_hours_in (w : week) (r : ResultRow) : Q :=
  match w with
  | ThisWeek => current_week_project_hours r
  | NextWeek => next_week_project_hours r
  | WeekAfterNext => next_next_week_project_hours r
  end.

Definition overhead_hours_in (w : week) (r : ResultRow) : Q :=
  match w with
  | ThisWeek => current_week_other_tasks r
  | NextWeek => next_week_other_tasks r
  | WeekAfterNext => next_next_week_other_tasks r
  end.

Definition total_hours_in (w : week) (r : ResultRow) : Q :=
  match w with
  | ThisWeek => current_week_total_hours r
  | NextWeek => next_week_total_hours r
  | WeekAfterNext => next_next_week_total_hours r
  end.

Definition saturation_in (w : week) (r : ResultRow) : Q :=
  match w with
  | ThisWeek => current_week_saturation r
  | NextWeek => next_week_saturation r
  | WeekAfterNext => next_next_week_saturation r
  end.

Definition status_in (w : week) (r : ResultRow) : string :=
  match w with
  | ThisWeek => current_week_status r
  | NextWeek => next_week_status r
  | WeekAfterNext => next_next_week_status r
  end.

(** The saturation of a week before rounding. *)
Definition saturation_of (self : Processor) (total : Q) : Q :=
  if Qltb 0 (standard_hours self)
  then total / standard_hours self * 100 else 0.

(** The change and the change rate of a week before rounding. *)
Definition change_of (prior current : Q) : Q * rate :=
  if Qltb 0 prior
  then (current - prior, Fin ((current - prior) / prior * 100))
  else (current, if Qeq_bool current 0 then Fin 0 else Inf).

(** The overhead hours of a member. *)
Definition overhead_of (self : Processor) (is_primary : bool) : Q :=
  other_tasks_hours self
  + (if is_primary then primary_responsibility_hours self else 0).

(** [row[names].sum() if names else 0]. *)
Definition project_hours (cols : list string) (row : list cell)
  (names : list string) : result Q :=
  if nonempty names then row_sum cols row names else ok 0.

(** The record of a member, from the member cell and the project hours of
    the three weeks: the closed form of the loop body. *)
Definition build_row (self : Processor) (member_name : cell)
  (is_primary : bool) (p0 p1 p2 : Q) : ResultRow :=
  let o := overhead_of self is_primary in
  {| member := member_name;
     is_primary_label := if is_primary then "是" else "否";
     current_week_project_hours := p0;
     current_week_other_tasks := o;
     current_week_total_hours := p0 + o;
     current_week_saturation := round1 (saturation_of self (p0 + o));
     current_week_status := get_status self (saturation_of self (p0 + o));
     next_week_project_hours := p1;
     next_week_other_tasks := o;
     next_week_total_hours := p1 + o;
     next_week_saturation := round1 (saturation_of self (p1 + o));
     next_week_status := get_status self (saturation_of self (p1 + o));
     next_week_change := round1 (fst (change_of (p0 + o) (p1 + o)));
     next_week_change_rate := store_rate (snd (change_of (p0 + o) (p1 + o)));
     next_next_week_project_hours := p2;
     next_next_week_other_tasks := o;
     next_next_week_total_hours := p2 + o;
     next_next_week_saturation := round1 (saturation_of self (p2 + o));
     next_next_week_status := get_status self (saturation_of self (p2 + o));
     next_next_week_change := round1 (fst (change_of (p1 + o) (p2 + o)));
     next_next_week_change_rate :=
       store_rate (snd (change_of (p1 + o) (p2 + o))) |}.

(** Whether a parsed header lies in a window, bounds included; a header
    that is no date lies in none. *)
Definition in_window (start finish : date) (h : option date) : bool :=
  match h with
  | Some d => (date_leb start d && date_leb d finish)%bool
  | None => false
  end.

(** The hours a cell stands for: a missing value counts for nothing. *)
Definition cell_hours (c : cell) : Q :=
  match c with
  | CNum q => q
  | _ => 0
  end.

(** The headers a window selects: [current_week_cols] and its siblings. *)
Definition selected_cols (strptime : string -> result date)
  (cols : list string) (window : date * date) : list string :=
  week_cols (tl cols) (map (parse_header strptime) (tl cols))
    (fst window) (snd window).

(** A cell the sum accepts: a number or a missing value. *)
Definition numeric (c : cell) : Prop :=
  match c with
  | CStr _ => False
  | _ => True
  end.

(** The base date of a run. *)
Definition today_of (strptime : string -> result date)
  (base_date : option string) (now : date) : result date :=
  match base_date with
  | None => ok now
  | Some s => if String.eqb s "" then ok now else strptime s
  end.

(** The three windows of a run. *)
Definition week_ranges (today : date) : result (week -> date * date) :=
  current_week <- get_week_range today 0 ;;
  next_week <- get_week_range today 1 ;;
  next_next_week <- get_week_range today 2 ;;
  ok (fun w => match w with
               | ThisWeek => current_week
               | NextWeek => next_week
               | WeekAfterNext => next_next_week
               end).

(** The records of the members, in the order of the input rows. *)
Definition member_records (strptime : string -> result date)
  (self : Processor) (df : DataFrame) (primary_members : option (list string))
  (window : week -> date * date) : result (list ResultRow) :=
  mapM (calculate_row self (columns df)
          (selected_cols strptime (columns df) (window ThisWeek))
          (selected_cols strptime (columns df) (window NextWeek))
          (selected_cols strptime (columns df) (window WeekAfterNext))
          (match primary_members with None => [] | Some l => l end))
       (rows df).

(** What makes a configuration invalid: a required key is absent, the
    standard hours are not in (0, 168], or the four thresholds are not in
    non-decreasing order. *)
Inductive config_defect (config : Config) : Prop :=
| missing_standard_hours :
    standard_hours_per_week config = None -> config_defect config
| missing_other_tasks :
    other_tasks config = None -> config_defect config
| missing_thresholds :
    saturation_thresholds config = None -> config_defect config
| missing_threshold_key (th : Thresholds) :
    saturation_thresholds config = Some th ->
    (th_under_saturated_max th = None \/ th_normal_min th = None \/
     th_normal_max th = None \/ th_over_saturated_min th = None) ->
    config_defect config
| standard_hours_not_positive (h : Q) :
    standard_hours_per_week config = Some h -> h <= 0 -> config_defect config
| standard_hours_over_a_week (h : Q) :
    standard_hours_per_week config = Some h -> 168 < h -> config_defect config
| thresholds_out_of_order (th : Thresholds) (a b c d : Q) :
    saturation_thresholds config = Some th ->
    th_under_saturated_max th = Some a -> th_normal_min th = Some b ->
    th_normal_max th = Some c -> th_over_saturated_min th = Some d ->
    ~ (a <= b /\ b <= c /\ c <= d) -> config_defect config.

(** Stability: among the rows of any one key, the output has the order of
    the input. *)
Definition has_key (k : Q) (r : ResultRow) : bool :=
  Qeq_bool (next_week_saturation r) k.

Definition keeps_input_order (input output : list ResultRow) : Prop :=
  forall k, filter (has_key k) output = filter (has_key k) input.

(* ================================================================== *)
(** ** Example inputs

    The scenario of the specification: base date 2025-11-17 (a Monday),
    40 standard hours, 1.5 hours of other tasks a week; and the inputs of
    the counterexamples. *)

Definition inverted_thresholds : Config :=
  {| standard_hours_per_week := Some 40;
     other_tasks := None;
     primary_responsibility := None;
     saturation_thresholds :=
       Some {| th_under_saturated_max := Some 90; th_normal_min := Some 90;
               th_normal_max := Some 50; th_over_saturated_min := Some 110 |} |}.

Definition last_day : date := {| toordinal := MAXORDINAL |}.

Definition example_config : Config :=
  {| standard_hours_per_week := Some 40;
     other_tasks := Some {| ot_enabled := Some true;
                            ot_weekly_minutes_per_person := Some 90 |};
     primary_responsibility := None;
     saturation_thresholds := None |}.

Definition example_columns : list string :=
  ["成员"; "2025-11-17"; "2025-11-18"; "2025-11-19"; "2025-11-20";
   "2025-11-21"; "备注"; "2025-11-24"].

Definition example_row_A : list cell :=
  [CStr "A"; CNum 8; CNum 8; CNum 8; CNum 8; CNum 8; CNaN; CNum 0].

Definition example_row_B : list cell :=
  [CStr "B"; CNum 0; CNum 0; CNum 0; CNum 0; CNum 0; CNaN; CNum 0].

Definition example_row_C : list cell :=
  [CStr "C"; CNum 0; CNaN; CNum 0; CNum 0; CNum 0; CNaN; CNum 20].

Definition example_table : DataFrame :=
  {| columns := example_columns;
     rows := [example_row_B; example_row_A; example_row_C] |}.

(** The three windows of 2025-11-17. *)
Definition example_window (w : week) : date * date :=
  match w with
  | ThisWeek => ({| toordinal := 739572 |}, {| toordinal := 739578 |})
  | NextWeek => ({| toordinal := 739579 |}, {| toordinal := 739585 |})
  | WeekAfterNext => ({| toordinal := 739586 |}, {| toordinal := 739592 |})
  end.

Definition one_day_columns : list string := ["成员"; "2025-11-17"; "2025-11-24"].

Definition negative_overhead : Config :=
  {| standard_hours_per_week := Some 40;
     other_tasks := Some {| ot_enabled := Some true;
                            ot_weekly_minutes_per_person := Some (-600) |};
     primary_responsibility := Some {| pr_enabled := Some false;
                                       pr_weekly_percentage := None |};
     saturation_thresholds :=
       Some {| th_under_saturated_max := Some (-100);
               th_normal_min := Some (-100);
               th_normal_max := Some (-50);
               th_over_saturated_min := Some (-50) |} |}.

Definition zero_standard_hours : Config :=
  {| standard_hours_per_week := Some 0;
     other_tasks := Some {| ot_enabled := Some true;
                            ot_weekly_minutes_per_person := Some 90 |};
     primary_responsibility := None;
     saturation_thresholds := None |}.

Definition table_without_member_column : DataFrame :=
  {| columns := ["name"; "2025-11-17"];
     rows := [[CStr "A"; CNum 8]] |}.

Definition invalid_config : Config :=
  {| standard_hours_per_week := None;
     other_tasks := None;
     primary_responsibility := None;
     saturation_thresholds :=
       Some {| th_under_saturated_max := Some 90; th_normal_min := Some 100;
               th_normal_max := Some 50; th_over_saturated_min := None |} |}.

Definition tied_table : DataFrame :=
  {| columns := one_day_columns;
     rows := [[CStr "A"; CNum 8; CNum 0]; [CStr "B"; CNum 0; CNum 0]] |}.

(* ================================================================== *)
(** ** [WorkloadDataProcessor.get_summary_stats]

    A list without records stands for the frame built from no records, which
    has no columns: reading a column of it raises [KeyError]. *)

Record WeekStats : Type := {
  avg_saturation : Q;            (* avg_saturation *)
  count_idle : nat;              (* idle *)
  count_under_saturated : nat;   (* under_saturated *)
  count_normal : nat;            (* normal *)
  count_overloaded : nat         (* overloaded *)
}.

Record Stats : Type := {
  total_members : nat;           (* total_members *)
  stats_current_week : WeekStats;    (* current_week *)
  stats_next_week : WeekStats;       (* next_week *)
  stats_next_next_week : WeekStats   (* next_next_week *)
}.

(** [Series.mean()] of a column that has values. *)
Definition series_mean (values : list Q) : Q :=
  fold_right Qplus 0 values / inject_Z (Z.of_nat (length values)).

(** [len(result_df[result_df[col] == label])], [column] being the column. *)
Definition count_label (column : list string) (label : string) : nat :=
  length (filter (fun s => String.eqb s label) column).

Definition get_summary_stats (result_df : list ResultRow) : result Stats :=
  match result_df with
  | [] => raise (KeyError "本周饱和度(%)")
  | _ :: _ =>
      ok {| total_members := length result_df;
            stats_current_week :=
              {| avg_saturation :=
                   round1 (series_mean (map current_week_saturation result_df));
                 count_idle :=
                   count_label (map current_week_status result_df) "空闲";
                 count_under_saturated :=
                   count_label (map current_week_status result_df) "不饱和";
                 count_normal :=
                   count_label (map current_week_status result_df) "正常";
                 count_overloaded :=
                   count_label (map current_week_status result_df) "超负荷" |};
            stats_next_week :=
              {| avg_saturation :=
                   round1 (series_mean (map next_week_saturation result_df));
                 count_idle :=
                   count_label (map next_week_status result_df) "空闲";
                 count_under_saturated :=
                   count_label (map next_week_status result_df) "不饱和";
                 count_normal :=
                   count_label (map next_week_status result_df) "正常";
                 count_overloaded :=
                   count_label (map next_week_status result_df) "超负荷" |};
            stats_next_next_week :=
              {| avg_saturation :=
                   round1 (series_mean (map next_next_week_saturation result_df));
                 count_idle :=
                   count_label (map next_next_week_status result_df) "空闲";
                 count_under_saturated :=
                   count_label (map next_next_week_status result_df) "不饱和";
                 count_normal :=
                   count_label (map next_next_week_status result_df) "正常";
                 count_overloaded :=
                   count_label (map next_next_week_status result_df) "超负荷" |}
         |}
  end.

(* ================================================================== *)
(** ** [DataValidator]: the data checks *)

(** [df[col]]: the cells under a header, one per row. *)
Definition df_col (df : DataFrame) (col : string) : list cell :=
  map (fun row => match row_get (columns df) row col with
                  | inr c => c
                  | inl _ => CNaN
                  end) (rows df).

(** Whether a column has a number dtype: it has cells and none is a
    string (a column of numbers and missing values is a float column; a
    frame without rows has object columns). *)
Definition is_number_dtype (cells : list cell) : bool :=
  (nonempty cells
   && forallb (fun c => match c with CStr _ => false | _ => true end) cells)%bool.

(** [df.select_dtypes(include=['number']).columns]. *)
Definition select_number_columns (df : DataFrame) : list string :=
  filter (fun col => is_number_dtype (df_col df col)) (columns df).

(** [(series < bound).any()] and [(series > bound).any()]: a missing value
    compares false. *)
Definition any_lt (cells : list cell) (bound : Q) : bool :=
  existsb (fun c => match c with CNum q => Qltb q bound | _ => false end) cells.

Definition any_gt (cells : list cell) (bound : Q) : bool :=
  existsb (fun c => match c with CNum q => Qltb bound q | _ => false end) cells.

(** [series.max()]: the greatest number, [None] (NaN) when there is none. *)
Fixpoint series_max (cells : list cell) : option Q :=
  match cells with
  | [] => None
  | c :: cs =>
      match c, series_max cs with
      | CNum q, Some m => Some (if Qltb q m then m else q)
      | CNum q, None => Some q
      | _, m => m
      end
  end.

(** [cell_eqb] is the equality [duplicated()] uses. *)
Definition cell_eqb (a b : cell) : bool :=
  match a, b with
  | CNum x, CNum y => Qeq_bool x y
  | CStr s, CStr t => String.eqb s t
  | CNaN, CNaN => true
  | _, _ => false
  end.

(** [series[series.duplicated()].tolist()]: every cell that repeats an
    earlier one; [seen] holds the cells met so far. *)
Fixpoint duplicated (seen cells : list cell) : list cell :=
  match cells with
  | [] => []
  | c :: cs =>
      if existsb (cell_eqb c) seen then c :: duplicated seen cs
      else duplicated (c :: seen) cs
  end.

(** [str(n)] of an integer count. *)
Definition str_nat (n : nat) : string := NilZero.string_of_uint (Nat.to_uint n).

(** [df.columns[0]] on a frame without columns. *)
Inductive index_error : Type := IndexError.

Section DataChecks.

(** [str(x)] of a number, as an f-string prints it. *)
Variable str_number : Q -> string.

Definition str_cell (c : cell) : string :=
  match c with
  | CStr s => s
  | CNum q => str_number q
  | CNaN => "nan"
  end.

Definition validate_workload_data (df : DataFrame) : bool * option string :=
  let numeric_cols := select_number_columns df in
  match find (fun col => any_lt (df_col df col) 0) numeric_cols with
  | Some col => (false, Some ("列 '" ++ col ++ "' 包含负数,工时不能为负值"))
  | None =>
      match find (fun col => any_gt (df_col df col) 24) numeric_cols with
      | Some col =>
          let max_val := match series_max (df_col df col) with
                         | Some m => str_number m
                         | None => "nan"
                         end in
          (false, Some ("列 '" ++ col ++ "' 包含异常值(" ++ max_val
                        ++ "小时),单日工时不应超过24小时"))
      | None => (true, None)
      end
  end.

Definition validate_members (df : DataFrame)
  : index_error + (bool * option string) :=
  match columns df with
  | [] => inl IndexError
  | member_col :: _ =>
      let members := df_col df member_col in
      if existsb isna members
      then inr (false, Some "存在空的成员名称")
      else
        let duplicates := duplicated [] members in
        if nonempty duplicates
        then inr (false, Some ("存在重复的成员名称: "
                               ++ String.concat ", " (map str_cell duplicates)))
        else
          let member_count := length (rows df) in
          if (member_count =? 0)%nat
          then inr (false, Some "没有成员数据")
          else if (1000 <? member_count)%nat
          then inr (false, Some ("成员数量过多(" ++ str_nat member_count
                                 ++ "),可能存在数据错误"))
          else inr (true, None)
  end.

End DataChecks.

(** [get_data_quality_report] *)

Record QualityReport : Type := {
  total_rows : nat;
  total_columns : nat;
  member_count : nat;
  date_columns : Z;
  missing_values : list (string * nat);
  zero_hours_count : nat;
  high_hours_count : nat;
  data_completeness : Q
}.

(** [(df[cols] == 0).sum().sum()] and its two siblings: the cells of the
    columns that satisfy the test. *)
Definition count_cells (test : cell -> bool) (df : DataFrame)
  (cols : list string) : nat :=
  list_sum (map (fun col => length (filter test (df_col df col))) cols).

Definition is_zero (c : cell) : bool :=
  match c with
  | CNum q => Qeq_bool q 0
  | _ => false
  end.

Definition is_over_16 (c : cell) : bool :=
  match c with
  | CNum q => Qltb 16 q
  | _ => false
  end.

Definition get_data_quality_report (df : DataFrame) : QualityReport :=
  let missing_values :=
    filter (fun entry => (0 <? snd entry)%nat)
      (map (fun col => (col, length (filter isna (df_col df col))))
         (columns df)) in
  let numeric_cols := select_number_columns df in
  let total_cells := (length (rows df) * length numeric_cols)%nat in
  let non_zero_cells := count_cells (fun c => negb (is_zero c)) df numeric_cols in
  {| total_rows := length (rows df);
     total_columns := length (columns df);
     member_count := length (rows df);
     date_columns := (Z.of_nat (length (columns df)) - 1)%Z;
     missing_values := missing_values;
     zero_hours_count :=
       if nonempty numeric_cols then count_cells is_zero df numeric_cols else 0%nat;
     high_hours_count :=
       if nonempty numeric_cols then count_cells is_over_16 df numeric_cols
       else 0%nat;
     data_completeness :=
       if nonempty numeric_cols
       then if (0 <? total_cells)%nat
            then inject_Z (Z.of_nat non_zero_cells)
                 / inject_Z (Z.of_nat total_cells) * 100
            else 0
       else 0 |}.

(* ================================================================== *)
(** ** [StorageManager]: the upload history and the processed files

    The history file holds a JSON array of records.  Its content is absent,
    unreadable (not JSON), or a list of records; of a record the functions
    read the keys [timestamp] and [file_path], either of which may be
    absent.  Writing a list of records and reading it back gives the same
    list.  A function that reads or writes the file takes its content and
    returns the new content. *)

Record HistoryRecord : Type := {
  timestamp : option string;
  filename : option string;
  original_name : option string;
  file_path : option string;
  size : option Z
}.

Inductive history_file : Type :=
| Absent
| Unreadable
| Stored (history : list HistoryRecord).

(** [l[:limit]]: a negative limit counts from the end. *)
Definition py_prefix {A : Type} (l : list A) (limit : Z) : list A :=
  if (0 <=? limit)%Z then firstn (Z.to_nat limit) l
  else firstn (Z.to_nat (Z.of_nat (length l) + limit)) l.

(** [l.sort(key=..., reverse=True)]: descending, and elements of equal key
    keep their order. *)
Section SortReverse.

Context {A K : Type}.
Variable key : A -> K.
Variable ltb : K -> K -> bool.

Fixpoint insert_desc (a : A) (l : list A) : list A :=
  match l with
  | [] => [a]
  | x :: l' => if ltb (key a) (key x) then x :: insert_desc a l' else a :: l
  end.

Definition sort_reverse (l : list A) : list A := fold_right insert_desc [] l.

End SortReverse.

Definition has_timestamp (h : HistoryRecord) : bool :=
  match timestamp h with
  | Some _ => true
  | None => false
  end.

(** [x['timestamp']], read where the key is known to be present. *)
Definition timestamp_key (h : HistoryRecord) : string :=
  dict_get (timestamp h) "".

Definition get_upload_history (file : history_file) (limit : Z)
  : list HistoryRecord :=
  match file with
  | Absent => []
  | Unreadable => []
  | Stored history =>
      (* a record without the key makes the key function raise: [] *)
      if forallb has_timestamp history
      then py_prefix (sort_reverse timestamp_key String.ltb history) limit
      else []
  end.

(** [h.get('file_path') != file_path]. *)
Definition other_path (path : string) (h : HistoryRecord) : bool :=
  match file_path h with
  | Some p => negb (String.eqb p path)
  | None => true
  end.

Definition remove_from_history (path : string) (file : history_file)
  : bool * history_file :=
  match file with
  | Absent => (true, Absent)
  | Unreadable => (false, Unreadable)
  | Stored history => (true, Stored (filter (other_path path) history))
  end.

Definition _add_to_history (record : HistoryRecord) (file : history_file)
  : history_file :=
  let history :=
    match file with
    | Absent => []
    | Unreadable => []
    | Stored history => history
    end in
  Stored (history ++ [record]).

(** A processed file: its name, its path and its modification time. *)
Record FileInfo : Type := {
  fi_filename : string;
  fi_path : string;
  fi_modified_time : Q
}.

(** [s.endswith(suffix)]. *)
Definition endswith (s suffix : string) : bool :=
  let n := String.length s in
  let m := String.length suffix in
  ((m <=? n)%nat && String.eqb (substring (n - m) m s) suffix)%bool.

Section ProcessedFiles.

(** [os.path.join(self.processed_dir, filename)] and
    [os.path.getmtime(path)]. *)
Variable join_processed_dir : string -> string.
Variable getmtime : string -> Q.

(** [listing] is [os.listdir(self.processed_dir)]. *)
Definition get_processed_files (listing : list string) (limit : Z)
  : list FileInfo :=
  let files :=
    map (fun filename =>
           let file_path := join_processed_dir filename in
           {| fi_filename := filename;
              fi_path := file_path;
              fi_modified_time := getmtime file_path |})
        (filter (fun filename => endswith filename ".json") listing) in
  py_prefix (sort_reverse fi_modified_time Qltb files) limit.

End ProcessedFiles.

(* ================================================================== *)
(** ** Further vocabulary and example inputs *)

(** The statistics of one week of a summary. *)
Definition stats_in (w : week) (stats : Stats) : WeekStats :=
  match w with
  | ThisWeek => stats_current_week stats
  | NextWeek => stats_next_week stats
  | WeekAfterNext => stats_next_next_week stats
  end.

(** The records of the example table, in input order. *)
Definition example_records : list ResultRow :=
  match member_records strptime_ymd (init example_config) example_table None
          example_window with
  | inr results => results
  | inl _ => []
  end.

(** The day count of one week in the date information of a run. *)
Definition days_in (w : week) (info : DateInfo) : nat :=
  match w with
  | ThisWeek => current_week_days info
  | NextWeek => next_week_days info
  | WeekAfterNext => next_next_week_days info
  end.

(** The offset of a week, as passed to [get_week_range]. *)
Definition offset_of (w : week) : Z :=
  match w with
  | ThisWeek => 0
  | NextWeek => 1
  | WeekAfterNext => 2
  end.

(** The Monday of the week of a date, as an ordinal. *)
Definition monday_of (d : date) : Z := (toordinal d - weekday d)%Z.

(** The three windows that start at the Monday of ordinal [m]. *)
Definition windows_from (m : Z) (w : week) : date * date :=
  match w with
  | ThisWeek => ({| toordinal := m + 7 * 0 |}, {| toordinal := m + 7 * 0 + 6 |})
  | NextWeek => ({| toordinal := m + 7 * 1 |}, {| toordinal := m + 7 * 1 + 6 |})
  | WeekAfterNext =>
      ({| toordinal := m + 7 * 2 |}, {| toordinal := m + 7 * 2 + 6 |})
  end.

(** The window of one week in the date information of a run. *)
Definition info_window (info : DateInfo) (w : week) : date * date :=
  match w with
  | ThisWeek => (current_week_start info, current_week_end info)
  | NextWeek => (next_week_start info, next_week_end info)
  | WeekAfterNext => (next_next_week_start info, next_next_week_end info)
  end.

(** The order of the three labels of a member with hours, and of idle. *)
Definition status_rank (status : string) : nat :=
  if String.eqb status idle then 0
  else if String.eqb status under_saturated then 1
  else if String.eqb status normal then 2
  else 3.

(** The records a history file holds: none when it is absent or
    unreadable. *)
Definition history_of (file : history_file) : list HistoryRecord :=
  match file with
  | Stored history => history
  | _ => []
  end.

(** [not_before key ltb a b]: in a descending order of the keys, [a] may
    stand before [b]. *)
Definition not_before {A K : Type} (key : A -> K) (ltb : K -> K -> bool)
  (a b : A) : Prop :=
  ltb (key a) (key b) = false.

(** A history of two uploads, the older one first, and a third upload. *)
Definition example_upload (stamp name : string) : HistoryRecord :=
  {| timestamp := Some stamp;
     filename := Some name;
     original_name := Some "workload.xlsx";
     file_path := Some ("data/uploads/" ++ name);
     size := Some 2048%Z |}.

Definition example_history : list HistoryRecord :=
  [example_upload "2025-01-06T09:00:00" "20250106_090000_workload.xlsx";
   example_upload "2025-01-13T09:30:00" "20250113_093000_workload.xlsx"].

Definition example_new_upload : HistoryRecord :=
  example_upload "2025-01-20T08:15:00" "20250120_081500_workload.xlsx".

(** A directory listing, with a path and a modification time for each
    name. *)
Definition example_listing : list string :=
  ["20250106_w02.json"; "notes.txt"; "20250113_w03.json"].

Definition example_join (name : string) : string := "data/processed/" ++ name.

Definition example_getmtime (path : string) : Q :=
  if String.eqb path "data/processed/20250113_w03.json" then 1736760600
  else 1736154000.

(** A row with a string under a date header. *)
Definition example_row_text : list cell :=
  [CStr "D"; CNum 8; CStr "休假"; CNum 8; CNum 8; CNum 8; CNaN; CNum 0].

(* ================================================================== *)
(** ** The sort: [DataFrame.sort_values] over [numpy.argsort]

    [sort_values(by, ascending=False)] on one column hands the column to
    pandas' [nargsort], which reverses it, asks numpy for the order that
    sorts the reversed column ascending ([argsort], of the default kind
    [quicksort]), and reverses that order again; the rows are then taken in
    this order.  Here the rows themselves are moved where the libraries
    move their indices.  The stored saturation is a number in this model,
    so the branch of [nargsort] that sets missing keys apart plays no
    part. *)

Section Nargsort.

Context {A : Type}.

(** [items[argsort(keys)]]: numpy's ascending order of the items. *)
Variable argsort : (A -> Q) -> list A -> list A.

Definition nargsort (key : A -> Q) (ascending : bool) (items : list A)
  : list A :=
  if ascending then argsort key items else rev (argsort key (rev items)).

End Nargsort.

(** numpy's [argsort] of kind [quicksort] on floats: an introsort.  A
    segment of more than 17 elements is partitioned around the median of
    its first, middle and last element; a shorter one is sorted by
    insertion; a segment set aside after more than 2 * log2(n) partitions
    is sorted by heapsort. *)

Module Numpy.

Section Argsort.

Context {A : Type}.
Variable key : A -> Q.

(** [v[a] < v[b]] on the keys. *)
Definition less (a b : A) : bool := Qltb (key a) (key b).

(** The array operations, on a list; [d] stands for an element that is
    never read, all indices being in range. *)
Fixpoint upd (i : nat) (x : A) (l : list A) : list A :=
  match l, i with
  | [], _ => []
  | _ :: t, O => x :: t
  | h :: t, S i' => h :: upd i' x t
  end.

Definition swap (d : A) (i j : nat) (l : list A) : list A :=
  upd i (nth j l d) (upd j (nth i l d) l).

(** The insertion sort: each element in turn moves left past the elements
    greater than it.  The sorted part is kept in reverse. *)
Fixpoint insert_left (x : A) (reversed : list A) : list A :=
  match reversed with
  | [] => [x]
  | y :: rest => if less x y then y :: insert_left x rest else x :: reversed
  end.

Definition insertion_sort (l : list A) : list A :=
  rev (fold_left (fun reversed x => insert_left x reversed) l []).

(** [do ++pi while (v[*pi] < vp)] and [do --pj while (vp < v[*pj])]. *)
Fixpoint scan_up (fuel : nat) (d : A) (l : list A) (vp : A) (pi : nat) : nat :=
  match fuel with
  | O => S pi
  | S fuel' =>
      if less (nth (S pi) l d) vp then scan_up fuel' d l vp (S pi) else S pi
  end.

Fixpoint scan_down (fuel : nat) (d : A) (l : list A) (vp : A) (pj : nat)
  : nat :=
  match fuel with
  | O => pred pj
  | S fuel' =>
      if less vp (nth (pred pj) l d) then scan_down fuel' d l vp (pred pj)
      else pred pj
  end.

(** The loop that exchanges the elements on the wrong side of the pivot. *)
Fixpoint exchange (fuel : nat) (d : A) (l : list A) (vp : A) (pi pj : nat)
  : list A * nat :=
  match fuel with
  | O => (l, pi)
  | S fuel' =>
      let pi' := scan_up (length l) d l vp pi in
      let pj' := scan_down (length l) d l vp pj in
      if (pj' <=? pi')%nat then (l, pi')
      else exchange fuel' d (swap d pi' pj' l) vp pi' pj'
  end.

(** One partition of a segment: the segment after it, and the place of the
    pivot. *)
Definition partition (d : A) (l : list A) : list A * nat :=
  let pr := (length l - 1)%nat in
  let pm := Nat.div2 pr in
  let l1 := if less (nth pm l d) (nth 0 l d) then swap d pm 0 l else l in
  let l2 := if less (nth pr l1 d) (nth pm l1 d) then swap d pr pm l1 else l1 in
  let l3 := if less (nth pm l2 d) (nth 0 l2 d) then swap d pm 0 l2 else l2 in
  let vp := nth pm l3 d in
  let l4 := swap d pm (pr - 1) l3 in
  let (l5, pi) := exchange (length l) d l4 vp 0 (pr - 1) in
  (swap d pi (pr - 1) l5, pi).

(** Heapsort, on indices from 1 as in the source: the inner loop that
    sifts [tmp] down from [i], among the first [n] elements. *)
Fixpoint sift (fuel : nat) (d : A) (a : list A) (tmp : A) (i j n : nat)
  : list A :=
  match fuel with
  | O => upd (i - 1) tmp a
  | S fuel' =>
      if (j <=? n)%nat then
        let j' :=
          if ((j <? n)%nat && less (nth (j - 1) a d) (nth j a d))%bool
          then S j else j in
        if less tmp (nth (j' - 1) a d)
        then sift fuel' d (upd (i - 1) (nth (j' - 1) a d) a) tmp j' (j' + j') n
        else upd (i - 1) tmp a
      else upd (i - 1) tmp a
  end.

Fixpoint build_heap (d : A) (a : list A) (l n : nat) : list A :=
  match l with
  | O => a
  | S l' => build_heap d (sift n d a (nth l' a d) l (l + l) n) l' n
  end.

Fixpoint drain_heap (fuel : nat) (d : A) (a : list A) (n : nat) : list A :=
  match fuel with
  | O => a
  | S fuel' =>
      if (1 <? n)%nat then
        let tmp := nth (n - 1) a d in
        let a' := upd (n - 1) (nth 0 a d) a in
        drain_heap fuel' d (sift n d a' tmp 1 2 (n - 1)) (n - 1)
      else a
  end.

Definition heapsort (l : list A) : list A :=
  match l with
  | [] => []
  | d :: _ =>
      let n := length l in
      drain_heap n d (build_heap d l (Nat.div2 n) n) n
  end.

(** The sort of a segment.  [cdepth] is the number of partitions left
    before heapsort takes over, and [set_aside] tells whether the segment
    comes from the stack, where that number is looked at. *)
Fixpoint introsort (fuel : nat) (cdepth : Z) (set_aside : bool) (l : list A)
  : list A :=
  match fuel with
  | O => l
  | S fuel' =>
      if (set_aside && (cdepth <? 0)%Z)%bool then heapsort l
      else
        match l with
        | [] => []
        | d :: _ =>
            if (16 <? length l - 1)%nat then
              let (l', pi) := partition d l in
              let left := firstn pi l' in
              let right := skipn (S pi) l' in
              let cdepth' := (cdepth - 1)%Z in
              if (length left <? length right)%nat
              then introsort fuel' cdepth' false left
                   ++ nth pi l' d :: introsort fuel' cdepth' true right
              else introsort fuel' cdepth' true left
                   ++ nth pi l' d :: introsort fuel' cdepth' false right
            else insertion_sort l
        end
  end.

(** [npy_aquicksort]: the depth limit is twice the position of the highest
    bit of the length. *)
Definition aquicksort (l : list A) : list A :=
  introsort (S (length l)) (2 * Z.log2 (Z.of_nat (length l))) true l.

End Argsort.

End Numpy.

(** The order heapsort keeps, on indices from 1: [c] is a child of [k], and
    from [lo] on no element among the first [n] is less than its
    children. *)
Definition child (k c : nat) : Prop := (c = k + k \/ c = S (k + k))%nat.

Definition heap_ordered {A : Type} (key : A -> Q) (d : A) (a : list A)
  (lo n : nat) : Prop :=
  forall k c, (lo <= k)%nat -> child k c -> (c <= n)%nat ->
    key (nth (c - 1) a d) <= key (nth (k - 1) a d).

(** Case analysis on the index comparisons of a goal. *)
Ltac eqb_cases :=
  repeat match goal with
  | |- context [Nat.eqb ?x ?y] =>
      let E := fresh "E" in
      destruct (Nat.eqb x y) eqn:E;
      [apply Nat.eqb_eq in E | apply Nat.eqb_neq in E]
  end.

(** The row order of the calculation:
    [sort_values('下周饱和度(%)', ascending=False)], over a given [argsort]
    and over numpy's. *)
Definition sort_rows_with
  (argsort : (ResultRow -> Q) -> list ResultRow -> list ResultRow)
  : list ResultRow -> list ResultRow :=
  nargsort argsort next_week_saturation false.

Definition pandas_sort_rows : list ResultRow -> list ResultRow :=
  sort_rows_with Numpy.aquicksort.

(** An [argsort] that returns the items it is given, keys ascending. *)
Definition ascending_argsort {A : Type}
  (argsort : (A -> Q) -> list A -> list A) : Prop :=
  forall key l,
    Permutation l (argsort key l) /\
    StronglySorted (fun a b => key a <= key b) (argsort key l).



(* ================================================================== *)
(** ** The calculation on machine numbers

    The definitions above read the numbers of the source as real numbers.
    The figures the source stores are binary64 floats: every sum, quotient
    and product is rounded to the nearest float, and [round(x, 1)] rounds the
    binary value of [x].  The module [Binary64] embeds the processor and the
    loop body once more, on the floats of the kernel, for the properties
    that speak of stored figures.

    Conventions of the module.
    - A Python [int] that meets a float in these computations (a
      configuration value such as 40, an integer cell, the literals 0, 60
      and 100) is the float of the same value; this is exact up to 2^53.
    - A missing value is the float NaN, as in pandas.
    - A row is the [Series] that [iterrows] yields for a table with a column
      of text (the member column): a sequence of Python objects, which
      [sum] adds from left to right. *)

Module Binary64.

Import PrimFloat SpecFloat FloatOps.
Local Open Scope float_scope.

(** Python's [x / y] on floats: a zero divisor raises, everything else
    follows IEEE 754. *)
Definition py_div (x y : float) : result float :=
  if y =? 0 then raise ZeroDivisionError else ok (x / y).

(** The integer nearest to [m * 2^e], ties to the even one. *)
Definition nearest_even (m : positive) (e : Z) : Z :=
  match e with
  | Zneg p =>
      let d := Z.shiftl 1 (Zpos p) in
      let q := (Zpos m / d)%Z in
      let r := (Zpos m mod d)%Z in
      match (2 * r ?= d)%Z with
      | Lt => q
      | Gt => (q + 1)%Z
      | Eq => if Z.even q then q else (q + 1)%Z
      end
  | _ => Z.shiftl (Zpos m) e
  end.

(** Python's [round(x, 1)] on a float: the decimal with one digit after the
    point nearest to the binary value of [x] (ties to the even digit), read
    back as the nearest float; the sign is kept; an infinity or a NaN is
    returned as it is. *)
Definition round1 (x : float) : float :=
  match Prim2SF x with
  | S754_finite s m e =>
      match nearest_even (10 * m) e with
      | Zpos k =>
          SF2Prim (SFdiv prec emax (S754_finite s k 0) (S754_finite false 10 0))
      | _ => SF2Prim (S754_zero s)
      end
  | _ => x
  end.

(** The binary value of a float, when it is a number. *)
Definition exact (x : float) : option Q :=
  match Prim2SF x with
  | S754_zero _ => Some 0%Q
  | S754_finite s m e =>
      let v := (inject_Z (Zpos m) * (2 # 1) ^ e)%Q in
      Some (if s then (- v)%Q else v)
  | _ => None
  end.

(** *** Configuration and processor *)

Record OtherTasks : Type := {
  ot_enabled : option bool;
  ot_weekly_minutes_per_person : option float
}.

Record PrimaryResponsibility : Type := {
  pr_enabled : option bool;
  pr_weekly_percentage : option float
}.

Record Thresholds : Type := {
  th_under_saturated_max : option float;
  th_normal_min : option float;
  th_normal_max : option float;
  th_over_saturated_min : option float
}.

Record Config : Type := {
  standard_hours_per_week : option float;
  other_tasks : option OtherTasks;
  primary_responsibility : option PrimaryResponsibility;
  saturation_thresholds : option Thresholds
}.

Definition empty_other_tasks : OtherTasks :=
  {| ot_enabled := None; ot_weekly_minutes_per_person := None |}.

Definition empty_primary_responsibility : PrimaryResponsibility :=
  {| pr_enabled := None; pr_weekly_percentage := None |}.

Definition empty_thresholds : Thresholds :=
  {| th_under_saturated_max := None; th_normal_min := None;
     th_normal_max := None; th_over_saturated_min := None |}.

Record Processor : Type := {
  standard_hours : float;
  other_tasks_enabled : bool;
  other_tasks_minutes : float;
  other_tasks_hours : float;
  primary_responsibility_enabled : bool;
  primary_responsibility_percentage : float;
  primary_responsibility_hours : float;
  under_saturated_max : float;
  normal_max : float
}.

(** [WorkloadDataProcessor.__init__]. *)
Definition init (config : Config) : Processor :=
  let standard_hours := dict_get (standard_hours_per_week config) 40 in
  let ot := dict_get (other_tasks config) empty_other_tasks in
  let other_tasks_enabled := dict_get (ot_enabled ot) true in
  let other_tasks_minutes := dict_get (ot_weekly_minutes_per_person ot) 92 in
  let other_tasks_hours :=
    if other_tasks_enabled then other_tasks_minutes / 60 else 0 in
  let pr := dict_get (primary_responsibility config) empty_primary_responsibility in
  let primary_responsibility_enabled := dict_get (pr_enabled pr) true in
  let primary_responsibility_percentage :=
    dict_get (pr_weekly_percentage pr) 0.5 in
  let primary_responsibility_hours :=
    if primary_responsibility_enabled
    then standard_hours * primary_responsibility_percentage else 0 in
  let thresholds := dict_get (saturation_thresholds config) empty_thresholds in
  {| standard_hours := standard_hours;
     other_tasks_enabled := other_tasks_enabled;
     other_tasks_minutes := other_tasks_minutes;
     other_tasks_hours := other_tasks_hours;
     primary_responsibility_enabled := primary_responsibility_enabled;
     primary_responsibility_percentage := primary_responsibility_percentage;
     primary_responsibility_hours := primary_responsibility_hours;
     under_saturated_max := dict_get (th_under_saturated_max thresholds) 90;
     normal_max := dict_get (th_normal_max thresholds) 110 |}.

Definition get_status (self : Processor) (saturation : float) : string :=
  if saturation =? 0 then idle
  else if saturation <? under_saturated_max self then under_saturated
  else if saturation <=? normal_max self then normal
  else overloaded.

(** *** Rows *)

(** A cell is a number (NaN when the value is missing) or a text. *)
Inductive cell : Type :=
| CNum (x : float)
| CStr (s : string).

(** [row[name]]: the cell under the header [name]. *)
Fixpoint row_get (cols : list string) (row : list cell) (name : string)
  : result cell :=
  match cols, row with
  | c :: cols', v :: row' =>
      if String.eqb c name then ok v else row_get cols' row' name
  | _, _ => raise (KeyError name)
  end.

(** What [sum] adds for a cell: a missing value counts as 0, a text cannot
    be added to a number. *)
Definition addend (c : cell) : result float :=
  match c with
  | CNum x => ok (if is_nan x then 0 else x)
  | CStr _ => raise TypeError
  end.

Fixpoint sum_from (acc : float) (cells : list cell) : result float :=
  match cells with
  | [] => ok acc
  | c :: cs => x <- addend c ;; sum_from (acc + x) cs
  end.

(** [Series.sum()] of a selection that has cells: the first cell, then the
    others added one by one. *)
Definition series_sum (cells : list cell) : result float :=
  match cells with
  | [] => ok 0
  | c :: cs => x <- addend c ;; sum_from x cs
  end.

(** [row[names].sum()]. *)
Definition row_sum (cols : list string) (row : list cell) (names : list string)
  : result float :=
  cells <- mapM (row_get cols row) names ;;
  series_sum cells.

(** [member_name in primary_members], the list holding strings. *)
Definition cell_in (c : cell) (l : list string) : bool :=
  match c with
  | CStr s => existsb (String.eqb s) l
  | CNum _ => false
  end.

Record ResultRow : Type := {
  member : cell;                          (* 成员 *)
  is_primary_label : string;              (* 是否主责 *)
  current_week_project_hours : float;     (* 本周项目工时 *)
  current_week_other_tasks : float;       (* 本周其他事务 *)
  current_week_total_hours : float;       (* 本周总工时 *)
  current_week_saturation : float;        (* 本周饱和度(%) *)
  current_week_status : string;           (* 本周状态 *)
  next_week_project_hours : float;        (* 下周项目工时 *)
  next_week_other_tasks : float;          (* 下周其他事务 *)
  next_week_total_hours : float;          (* 下周总工时 *)
  next_week_saturation : float;           (* 下周饱和度(%) *)
  next_week_status : string;              (* 下周状态 *)
  next_week_change : float;               (* 下周变化 *)
  next_week_change_rate : float;          (* 下周变化率(%) *)
  next_next_week_project_hours : float;   (* 下下周项目工时 *)
  next_next_week_other_tasks : float;     (* 下下周其他事务 *)
  next_next_week_total_hours : float;     (* 下下周总工时 *)
  next_next_week_saturation : float;      (* 下下周饱和度(%) *)
  next_next_week_status : string;         (* 下下周状态 *)
  next_next_week_change : float;          (* 下下周变化 *)
  next_next_week_change_rate : float      (* 下下周变化率(%) *)
}.

(** [round(r, 1) if r != float('inf') else 0]. *)
Definition store_rate (r : float) : float :=
  if r =? infinity then 0 else round1 r.

(** The body of the loop over [df.iterrows()]. *)
Definition calculate_row (self : Processor) (cols : list string)
  (current_week_cols next_week_cols next_next_week_cols : list string)
  (primary_members : list string) (row : list cell) : result ResultRow :=
  member_name <- row_get cols row member_col ;;
  let is_primary := cell_in member_name primary_members in
  let primary_hours :=
    if is_primary then primary_responsibility_hours self else 0 in
  (* current week *)
  current_week_project_hours <-
    (if nonempty current_week_cols
     then row_sum cols row current_week_cols else ok 0) ;;
  let current_week_other_tasks := other_tasks_hours self + primary_hours in
  let current_week_total_hours :=
    current_week_project_hours + current_week_other_tasks in
  current_week_saturation <-
    (if 0 <? standard_hours self
     then q <- py_div current_week_total_hours (standard_hours self) ;;
          ok (q * 100)
     else ok 0) ;;
  (* next week *)
  next_week_project_hours <-
    (if nonempty next_week_cols
     then row_sum cols row next_week_cols else ok 0) ;;
  let next_week_other_tasks := other_tasks_hours self + primary_hours in
  let next_week_total_hours :=
    next_week_project_hours + next_week_other_tasks in
  next_week_saturation <-
    (if 0 <? standard_hours self
     then q <- py_div next_week_total_hours (standard_hours self) ;;
          ok (q * 100)
     else ok 0) ;;
  (* the week after next *)
  next_next_week_project_hours <-
    (if nonempty next_next_week_cols
     then row_sum cols row next_next_week_cols else ok 0) ;;
  let next_next_week_other_tasks := other_tasks_hours self + primary_hours in
  let next_next_week_total_hours :=
    next_next_week_project_hours + next_next_week_other_tasks in
  next_next_week_saturation <-
    (if 0 <? standard_hours self
     then q <- py_div next_next_week_total_hours (standard_hours self) ;;
          ok (q * 100)
     else ok 0) ;;
  (* change rates *)
  next_week <-
    (if 0 <? current_week_total_hours
     then let change := next_week_total_hours - current_week_total_hours in
          q <- py_div change current_week_total_hours ;;
          ok (change, q * 100)
     else ok (next_week_total_hours,
              if next_week_total_hours =? 0 then 0 else infinity)) ;;
  next_next_week <-
    (if 0 <? next_week_total_hours
     then let change := next_next_week_total_hours - next_week_total_hours in
          q <- py_div change next_week_total_hours ;;
          ok (change, q * 100)
     else ok (next_next_week_total_hours,
              if next_next_week_total_hours =? 0 then 0 else infinity)) ;;
  ok {| member := member_name;
        is_primary_label := if is_primary then "是" else "否";
        current_week_project_hours := current_week_project_hours;
        current_week_other_tasks := current_week_other_tasks;
        current_week_total_hours := current_week_total_hours;
        current_week_saturation := round1 current_week_saturation;
        current_week_status := get_status self current_week_saturation;
        next_week_project_hours := next_week_project_hours;
        next_week_other_tasks := next_week_other_tasks;
        next_week_total_hours := next_week_total_hours;
        next_week_saturation := round1 next_week_saturation;
        next_week_status := get_status self next_week_saturation;
        next_week_change := round1 (fst next_week);
        next_week_change_rate := store_rate (snd next_week);
        next_next_week_project_hours := next_next_week_project_hours;
        next_next_week_other_tasks := next_next_week_other_tasks;
        next_next_week_total_hours := next_next_week_total_hours;
        next_next_week_saturation := round1 next_next_week_saturation;
        next_next_week_status := get_status self next_next_week_saturation;
        next_next_week_change := round1 (fst next_next_week);
        next_next_week_change_rate := store_rate (snd next_next_week) |}.

(** *** Vocabulary of the properties on machine numbers *)

(** The fields of a record, by week. *)
Definition project_hours_in (w : week) (r : ResultRow) : float :=
  match w with
  | ThisWeek => current_week_project_hours r
  | NextWeek => next_week_project_hours r
  | WeekAfterNext => next_next_week_project_hours r
  end.

Definition overhead_hours_in (w : week) (r : ResultRow) : float :=
  match w with
  | ThisWeek => current_week_other_tasks r
  | NextWeek => next_week_other_tasks r
  | WeekAfterNext => next_next_week_other_tasks r
  end.

Definition total_hours_in (w : week) (r : ResultRow) : float :=
  match w with
  | ThisWeek => current_week_total_hours r
  | NextWeek => next_week_total_hours r
  | WeekAfterNext => next_next_week_total_hours r
  end.

Definition saturation_in (w : week) (r : ResultRow) : float :=
  match w with
  | ThisWeek => current_week_saturation r
  | NextWeek => next_week_saturation r
  | WeekAfterNext => next_next_week_saturation r
  end.

Definition status_in (w : week) (r : ResultRow) : string :=
  match w with
  | ThisWeek => current_week_status r
  | NextWeek => next_week_status r
  | WeekAfterNext => next_next_week_status r
  end.

(** A header falls inside a window when it parses to a date between the
    first and the last day of the window, bounds included; a header that
    does not parse falls inside no window. *)
Definition falls_in (window : date * date) (parsed : result date) : bool :=
  match parsed with
  | inr d =>
      ((toordinal (fst window) <=? toordinal d)
       && (toordinal d <=? toordinal (snd window)))%Z
  | inl _ => false
  end.

(** The cells of a row whose header falls inside a window: the headers and
    the cells are walked side by side, in column order. *)
Fixpoint cells_in (strptime : string -> result date) (headers : list string)
  (cells : list cell) (window : date * date) : list cell :=
  match headers, cells with
  | h :: hs, c :: cs =>
      if falls_in window (strptime h)
      then c :: cells_in strptime hs cs window
      else cells_in strptime hs cs window
  | _, _ => []
  end.

(** The hours a cell stands for: a missing value stands for none. *)
Definition hours (c : cell) : float :=
  match c with
  | CNum x => if is_nan x then 0 else x
  | CStr _ => 0
  end.

(** The sum of the hours of some cells, added in their order, every
    addition rounded to the nearest float. *)
Definition sum_in_order (cells : list cell) : float :=
  match cells with
  | [] => 0
  | c :: cs => fold_left (fun acc c' => acc + hours c') cs (hours c)
  end.

(** The member cell of a row: the cell under the first header that is the
    member header. *)
Definition member_cell (cols : list string) (row : list cell) (c : cell)
  : Prop :=
  exists i,
    nth_error cols i = Some member_col /\
    (forall j, (j < i)%nat -> nth_error cols j <> Some member_col) /\
    nth_error row i = Some c.

(** A member is listed when its cell holds one of the given names. *)
Definition listed (c : cell) (primary_members : list string) : Prop :=
  exists s, c = CStr s /\ In s primary_members.

(** The overhead hours a configuration gives: from the settings as they
    are written, an absent setting standing for its default (other tasks
    enabled, 92 minutes; primary responsibility enabled, half of the
    standard hours, which are 40). *)
Definition configured_other_hours (config : Config) : float :=
  let enabled :=
    match other_tasks config with
    | Some ot => match ot_enabled ot with Some b => b | None => true end
    | None => true
    end in
  let minutes :=
    match other_tasks config with
    | Some ot =>
        match ot_weekly_minutes_per_person ot with Some m => m | None => 92 end
    | None => 92
    end in
  if enabled then minutes / 60 else 0.

Definition configured_primary_hours (config : Config) : float :=
  let standard :=
    match standard_hours_per_week config with Some h => h | None => 40 end in
  let enabled :=
    match primary_responsibility config with
    | Some pr => match pr_enabled pr with Some b => b | None => true end
    | None => true
    end in
  let percentage :=
    match primary_responsibility config with
    | Some pr => match pr_weekly_percentage pr with Some p => p | None => 0.5 end
    | None => 0.5
    end in
  if enabled then standard * percentage else 0.

(** The saturation of a week before it is rounded for storage. *)
Definition saturation_of (self : Processor) (total : float) : float :=
  if 0 <? standard_hours self then total / standard_hours self * 100 else 0.

(** The change and the change rate of a week before they are stored. *)
Definition change_of (prior current : float) : float * float :=
  if 0 <? prior
  then (current - prior, (current - prior) / prior * 100)
  else (current, if current =? 0 then 0 else infinity).

(** The record of a member, from the member cell and the project hours of
    the three weeks: the closed form of the loop body. *)
Definition build_row (self : Processor) (member_name : cell)
  (is_primary : bool) (p0 p1 p2 : float) : ResultRow :=
  let o := other_tasks_hours self
           + (if is_primary then primary_responsibility_hours self else 0) in
  {| member := member_name;
     is_primary_label := if is_primary then "是" else "否";
     current_week_project_hours := p0;
     current_week_other_tasks := o;
     current_week_total_hours := p0 + o;
     current_week_saturation := round1 (saturation_of self (p0 + o));
     current_week_status := get_status self (saturation_of self (p0 + o));
     next_week_project_hours := p1;
     next_week_other_tasks := o;
     next_week_total_hours := p1 + o;
     next_week_saturation := round1 (saturation_of self (p1 + o));
     next_week_status := get_status self (saturation_of self (p1 + o));
     next_week_change := round1 (fst (change_of (p0 + o) (p1 + o)));
     next_week_change_rate := store_rate (snd (change_of (p0 + o) (p1 + o)));
     next_next_week_project_hours := p2;
     next_next_week_other_tasks := o;
     next_next_week_total_hours := p2 + o;
     next_next_week_saturation := round1 (saturation_of self (p2 + o));
     next_next_week_status := get_status self (saturation_of self (p2 + o));
     next_next_week_change := round1 (fst (change_of (p1 + o) (p2 + o)));
     next_next_week_change_rate :=
       store_rate (snd (change_of (p1 + o) (p2 + o))) |}.

(** What holds of the stored change and change rate of a week, given the
    totals of the prior week and of the week itself.  With a positive prior
    total the change is the difference and the rate its percentage of the
    prior total, each computed on floats and then rounded to one decimal; a
    rate that overflows to +infinity is stored as 0.  Otherwise the change
    is the rounded total of the week and the rate is 0. *)
Definition change_rule (prior current change change_rate : float) : Prop :=
  ((0 <? prior) = true ->
   change = round1 (current - prior) /\
   change_rate =
     (if (current - prior) / prior * 100 =? infinity then 0
      else round1 ((current - prior) / prior * 100))) /\
  ((0 <? prior) = false ->
   change = round1 current /\ change_rate = 0).

(** A cell the sum accepts: a number, or a missing value. *)
Definition is_number (c : cell) : bool :=
  match c with
  | CNum _ => true
  | CStr _ => false
  end.

(** *** Example inputs *)

(** 40 standard hours, no other tasks, nobody with a primary
    responsibility; the default thresholds 90 and 110. *)
Definition plain_config : Config :=
  {| standard_hours_per_week := Some 40;
     other_tasks := Some {| ot_enabled := Some false;
                            ot_weekly_minutes_per_person := Some 90 |};
     primary_responsibility := Some {| pr_enabled := Some false;
                                       pr_weekly_percentage := Some 0.5 |};
     saturation_thresholds := None |}.

(** 40 standard hours, 90 minutes of other tasks, half of the standard
    hours for a primary responsibility. *)
Definition overhead_config : Config :=
  {| standard_hours_per_week := Some 40;
     other_tasks := Some {| ot_enabled := Some true;
                            ot_weekly_minutes_per_person := Some 90 |};
     primary_responsibility := Some {| pr_enabled := Some true;
                                       pr_weekly_percentage := Some 0.5 |};
     saturation_thresholds := None |}.

(** The same with no standard hours. *)
Definition zero_standard_hours : Config :=
  {| standard_hours_per_week := Some 0;
     other_tasks := Some {| ot_enabled := Some true;
                            ot_weekly_minutes_per_person := Some 90 |};
     primary_responsibility := Some {| pr_enabled := Some true;
                                       pr_weekly_percentage := Some 0.5 |};
     saturation_thresholds := None |}.

(** Rows under [example_columns]: five days of the week of 2025-11-17, a
    column of notes, and Monday 2025-11-24. *)
Definition row_44_hours : list cell :=
  [CStr "A"; CNum 8; CNum 8; CNum 8; CNum 8; CNum 12; CStr "on call";
   CNum 20].

Definition row_11_5_hours : list cell :=
  [CStr "B"; CNum 4; CNum 4; CNum 3.5; CNum nan; CNum 0; CNum nan; CNum 0.5].

Definition row_40_then_14_5 : list cell :=
  [CStr "C"; CNum 8; CNum 8; CNum 8; CNum 8; CNum 8; CNum nan; CNum 14.5].

Definition row_small_change : list cell :=
  [CStr "D"; CNum 0; CNum 0; CNum 0; CNum 0; CNum 0; CNum nan;
   CNum (4 / 100)].

Definition row_idle_then_20 : list cell :=
  [CStr "F"; CNum 0; CNum 0; CNum 0; CNum 0; CNum 0; CNum nan; CNum 20].

Definition row_negative_hours : list cell :=
  [CStr "E"; CNum (-8); CNum 0; CNum 0; CNum 0; CNum 0; CNum nan; CNum 0].

(** [exactly x q]: the float [x] is a number and its binary value is the
    rational [q]. *)
Definition exactly (x : float) (q : Q) : Prop :=
  match exact x with
  | Some v => (v == q)%Q
  | None => False
  end.

End Binary64.

(* ================================================================== *)
(** * Properties *)


(** ** Comparisons and rounding *)

Lemma Qltb_lt (x y : Q) : Qltb x y = true <-> x < y.
Proof.
  unfold Qltb. rewrite negb_true_iff. split; intro H.
  - apply Qnot_le_lt. intro Hle. apply Qle_bool_iff in Hle. congruence.
  - destruct (Qle_bool y x) eqn:E; [|reflexivity].
    apply Qle_bool_iff in E. apply Qle_not_lt in E. contradiction.
Qed.

Lemma Qltb_ge (x y : Q) : Qltb x y = false <-> y <= x.
Proof.
  unfold Qltb. rewrite negb_false_iff. apply Qle_bool_iff.
Qed.

Lemma Qle_bool_gt (x y : Q) : Qle_bool x y = false <-> y < x.
Proof.
  rewrite <- Qltb_lt. unfold Qltb. rewrite negb_true_iff. reflexivity.
Qed.

Lemma Qeq_bool_false (x y : Q) : Qeq_bool x y = false <-> ~ x == y.
Proof.
  split.
  - apply Qeq_bool_neq.
  - intro H. destruct (Qeq_bool x y) eqn:E; [|reflexivity].
    apply Qeq_bool_iff in E. contradiction.
Qed.

(** Case analysis on the three comparisons of the model. *)
Ltac qcases :=
  repeat match goal with
  | H : Qltb _ _ = true |- _ => apply Qltb_lt in H
  | H : Qltb _ _ = false |- _ => apply Qltb_ge in H
  | H : Qle_bool _ _ = true |- _ => apply Qle_bool_iff in H
  | H : Qle_bool _ _ = false |- _ => apply Qle_bool_gt in H
  | H : Qeq_bool _ _ = true |- _ => apply Qeq_bool_iff in H
  | H : Qeq_bool _ _ = false |- _ => apply Qeq_bool_false in H
  end.

Lemma round_half_even_bounds (q : Q) :
  round_half_even q = Qfloor q \/ round_half_even q = (Qfloor q + 1)%Z.
Proof.
  unfold round_half_even.
  destruct (Qltb _ _); [now left|].
  destruct (Qltb _ _); [now right|].
  destruct (Z.even _); [now left | now right].
Qed.

Lemma round_half_even_mono (q1 q2 : Q) :
  q1 <= q2 -> (round_half_even q1 <= round_half_even q2)%Z.
Proof.
  intro Hle.
  pose proof (Qfloor_resp_le _ _ Hle) as Hf.
  destruct (Z.eq_dec (Qfloor q1) (Qfloor q2)) as [E|NE].
  - unfold round_half_even. rewrite <- E.
    repeat match goal with
    | |- context [Qltb ?a ?b] => let A := fresh "A" in destruct (Qltb a b) eqn:A
    end;
    destruct (Z.even (Qfloor q1)); qcases; try lia; exfalso; lra.
  - destruct (round_half_even_bounds q1) as [-> | ->];
    destruct (round_half_even_bounds q2) as [-> | ->]; lia.
Qed.

Lemma round_half_even_comp (q1 q2 : Q) :
  q1 == q2 -> round_half_even q1 = round_half_even q2.
Proof.
  intro H. apply Z.le_antisymm; apply round_half_even_mono; rewrite H; apply Qle_refl.
Qed.

Lemma round1_mono (q1 q2 : Q) : q1 <= q2 -> round1 q1 <= round1 q2.
Proof.
  intro H. unfold round1.
  assert (Hz : (round_half_even (q1 * 10) <= round_half_even (q2 * 10))%Z)
    by (apply round_half_even_mono; lra).
  rewrite Zle_Qle in Hz.
  unfold Qdiv. apply Qmult_le_compat_r; [exact Hz | discriminate].
Qed.

Lemma round1_comp (q1 q2 : Q) : q1 == q2 -> round1 q1 = round1 q2.
Proof.
  intro H. unfold round1. f_equal. f_equal. apply round_half_even_comp. now rewrite H.
Qed.

Lemma round1_zero (q : Q) : q == 0 -> round1 q == 0.
Proof.
  intro H. rewrite (round1_comp q 0 H). reflexivity.
Qed.

Lemma labels_distinct :
  idle <> under_saturated /\ idle <> normal /\ idle <> overloaded /\
  under_saturated <> normal /\ under_saturated <> overloaded /\
  normal <> overloaded.
Proof.
  repeat split; discriminate.
Qed.

Lemma get_status_overloaded (self : Processor) (s : Q) :
  get_status self s = overloaded <->
  ~ s == 0 /\ under_saturated_max self <= s /\ normal_max self < s.
Proof.
  pose proof labels_distinct as (D1 & D2 & D3 & D4 & D5 & D6).
  unfold get_status.
  destruct (Qeq_bool s 0) eqn:E0; [|destruct (Qltb _ _) eqn:E1;
    [|destruct (Qle_bool _ _) eqn:E2]]; qcases;
  (split; [intro H; try congruence | intros (H0 & H1 & H2)]);
  try contradiction; try (exfalso; lra); auto.
Qed.

(** C1, as stated, fails: with [under_saturated_max = 90] and
    [normal_max = 50] a saturation of 70 lies above [normal_max], yet it is
    classified as under-saturated, not overloaded. *)
Lemma status_boundaries_counterexample :
  normal_max (init inverted_thresholds) < 70 /\
  get_status (init inverted_thresholds) 70 = under_saturated /\
  ~ status_boundaries (init inverted_thresholds) 70.
Proof.
  split; [reflexivity|]. split; [reflexivity|].
  intros (_ & _ & _ & H).
  assert (Hlt : normal_max (init inverted_thresholds) < 70) by reflexivity.
  specialize (H Hlt). discriminate H.
Qed.

(** C1, amended: [get_status] returns one of the four pairwise distinct
    labels, deciding by the first rule that applies: a zero saturation is
    idle whatever the thresholds; a non-zero saturation is under-saturated
    when below [under_saturated_max], normal when between
    [under_saturated_max] and [normal_max] inclusive, overloaded when above
    [normal_max] and not below [under_saturated_max].  The result depends on
    the configuration only through [under_saturated_max] and [normal_max]:
    changing [normal_min] or [over_saturated_min] never changes it. *)
Theorem get_status_cascade (config : Config) (s : Q) :
  let self := init config in
  (s == 0 -> get_status self s = idle) /\
  (~ s == 0 -> s < under_saturated_max self -> get_status self s = under_saturated) /\
  (~ s == 0 -> under_saturated_max self <= s -> s <= normal_max self ->
   get_status self s = normal) /\
  (~ s == 0 -> under_saturated_max self <= s -> normal_max self < s ->
   get_status self s = overloaded) /\
  In (get_status self s) [idle; under_saturated; normal; overloaded] /\
  NoDup [idle; under_saturated; normal; overloaded] /\
  (forall normal_min over_saturated_min,
     get_status (init (set_unread_thresholds normal_min over_saturated_min config)) s
     = get_status self s).
Proof.
  intro self. unfold get_status.
  repeat split.
  - intro H. apply Qeq_bool_iff in H. now rewrite H.
  - intros H0 H1. apply Qeq_bool_false in H0. apply Qltb_lt in H1.
    now rewrite H0, H1.
  - intros H0 H1 H2. apply Qeq_bool_false in H0. apply Qltb_ge in H1.
    apply Qle_bool_iff in H2. now rewrite H0, H1, H2.
  - intros H0 H1 H2. apply Qeq_bool_false in H0. apply Qltb_ge in H1.
    apply Qle_bool_gt in H2. now rewrite H0, H1, H2.
  - destruct (Qeq_bool s 0); [simpl; auto|].
    destruct (Qltb _ _); [simpl; auto|].
    destruct (Qle_bool _ _); simpl; auto.
  - repeat (constructor; [simpl; intuition discriminate|]). constructor.
  - intros nmin osm. subst self. unfold init, set_unread_thresholds. simpl.
    destruct (saturation_thresholds config); reflexivity.
Qed.

(** ** Week windows *)

Lemma timedelta_small (n : Z) :
  (Z.abs n <= 999999999)%Z -> timedelta n = ok n.
Proof.
  intro H. unfold timedelta. apply Z.leb_le in H. now rewrite H.
Qed.

Lemma date_add_in_range (d : date) (n : Z) :
  (0 < toordinal d + n <= MAXORDINAL)%Z ->
  date_add d n = ok {| toordinal := toordinal d + n |}.
Proof.
  intros [H1 H2]. unfold date_add.
  apply Z.ltb_lt in H1. apply Z.leb_le in H2. now rewrite H1, H2.
Qed.

Lemma date_add_out_of_range (d : date) (n : Z) :
  (MAXORDINAL < toordinal d + n)%Z -> date_add d n = raise OverflowError.
Proof.
  intro H. unfold date_add. apply Z.leb_gt in H. rewrite H.
  now rewrite andb_false_r.
Qed.

Lemma weekday_range (d : date) : (0 <= weekday d <= 6)%Z.
Proof.
  unfold weekday. pose proof (Z.mod_pos_bound (toordinal d + 6) 7). lia.
Qed.

(** The Monday of a date's week is a date: ordinal 1 is itself a Monday. *)
Lemma monday_in_range (d : date) :
  valid_date d -> (1 <= toordinal d - weekday d <= MAXORDINAL)%Z.
Proof.
  unfold valid_date, weekday. intro H.
  pose proof (Z.mod_pos_bound (toordinal d + 6) 7).
  pose proof (Z.div_mod (toordinal d + 6) 7). lia.
Qed.

Lemma monday_weekday (d : date) (k : Z) :
  ((toordinal d - weekday d + 7 * k + 6) mod 7 = 0)%Z.
Proof.
  unfold weekday.
  pose proof (Z.div_mod (toordinal d + 6) 7 ltac:(lia)) as E.
  replace (toordinal d - (toordinal d + 6) mod 7 + 7 * k + 6)%Z
    with (((toordinal d + 6) / 7 + k) * 7)%Z by lia.
  apply Z.mod_mul. lia.
Qed.

(** C3, as stated, fails: 9999-12-31 is a date (a Friday), and the Sunday
    that ends its week lies past the last representable date, so the
    function raises [OverflowError] instead of returning a window. *)
Lemma get_week_range_counterexample :
  strptime_ymd "9999-12-31" = ok last_day /\
  valid_date last_day /\
  weekday last_day = 4%Z /\
  get_week_range last_day 0 = raise OverflowError.
Proof.
  repeat split; try reflexivity; vm_compute; discriminate.
Qed.

(** The value of [get_week_range] when the target Sunday is a date. *)
Lemma get_week_range_value (base : date) (weeks_offset : Z) :
  valid_date base ->
  (0 <= weeks_offset <= 2)%Z ->
  (toordinal base - weekday base + 7 * weeks_offset + 6 <= MAXORDINAL)%Z ->
  get_week_range base weeks_offset =
  ok ({| toordinal := toordinal base - weekday base + 7 * weeks_offset |},
      {| toordinal := toordinal base - weekday base + 7 * weeks_offset + 6 |}).
Proof.
  intros Hv Hw Hmax.
  pose proof (weekday_range base) as Hwd.
  pose proof (monday_in_range base Hv) as Hmon.
  unfold get_week_range, date_sub.
  rewrite (timedelta_small (weekday base)) by lia. cbn [bind ok].
  rewrite date_add_in_range by lia. cbn [bind ok].
  rewrite (timedelta_small (7 * weeks_offset)) by lia. cbn [bind ok].
  rewrite date_add_in_range by (cbn [toordinal]; lia). cbn [bind ok].
  rewrite (timedelta_small 6) by lia. cbn [bind ok].
  rewrite date_add_in_range by (cbn [toordinal]; lia). cbn [bind ok toordinal].
  reflexivity.
Qed.

(** Past that point the function raises. *)
Lemma get_week_range_overflow (base : date) (weeks_offset : Z) :
  valid_date base ->
  (0 <= weeks_offset <= 2)%Z ->
  (MAXORDINAL < toordinal base - weekday base + 7 * weeks_offset + 6)%Z ->
  get_week_range base weeks_offset = raise OverflowError.
Proof.
  intros Hv Hw Hmax.
  pose proof (weekday_range base) as Hwd.
  pose proof (monday_in_range base Hv) as Hmon.
  unfold get_week_range, date_sub.
  rewrite (timedelta_small (weekday base)) by lia. cbn [bind ok].
  rewrite date_add_in_range by lia. cbn [bind ok].
  rewrite (timedelta_small (7 * weeks_offset)) by lia. cbn [bind ok].
  destruct (Z_le_gt_dec (toordinal base - weekday base + 7 * weeks_offset)
              MAXORDINAL) as [Hin|Hout].
  - rewrite date_add_in_range by (cbn [toordinal]; lia). cbn [bind ok].
    rewrite (timedelta_small 6) by lia. cbn [bind ok].
    rewrite date_add_out_of_range by (cbn [toordinal]; lia). reflexivity.
  - rewrite date_add_out_of_range by (cbn [toordinal]; lia). reflexivity.
Qed.

(** Every base date up to 9999-12-12 has all three windows. *)
Lemma get_week_range_total (base : date) (weeks_offset : Z) :
  valid_date base ->
  (toordinal base <= MAXORDINAL - 19)%Z ->
  (0 <= weeks_offset <= 2)%Z ->
  exists start finish, get_week_range base weeks_offset = ok (start, finish).
Proof.
  intros Hv Hb Hw. do 2 eexists. apply get_week_range_value; trivial.
  unfold weekday, MAXORDINAL in *.
  pose proof (Z.mod_pos_bound (toordinal base + 6) 7).
  pose proof (Z.div_mod (toordinal base + 6) 7). lia.
Qed.

(** C3, amended: for every base date and every week offset in {0, 1, 2}
    whose target Sunday is not after 9999-12-31, [get_week_range] returns
    the pair (start, end) where start is the base date minus its weekday
    plus seven times the offset, end is start plus six days, and start is a
    Monday.  (The function has no state to touch: it is a function of its
    two arguments.) *)
Theorem get_week_range_spec (base : date) (weeks_offset : Z) :
  valid_date base ->
  (weeks_offset = 0 \/ weeks_offset = 1 \/ weeks_offset = 2)%Z ->
  (toordinal base - weekday base + 7 * weeks_offset + 6 <= MAXORDINAL)%Z ->
  exists start finish,
    get_week_range base weeks_offset = ok (start, finish) /\
    toordinal start = (toordinal base - weekday base + 7 * weeks_offset)%Z /\
    toordinal finish = (toordinal start + 6)%Z /\
    weekday start = 0%Z /\
    valid_date start /\ valid_date finish.
Proof.
  intros Hv Hw Hmax.
  pose proof (weekday_range base) as Hwd.
  pose proof (monday_in_range base Hv) as Hmon.
  do 2 eexists. split; [apply get_week_range_value; trivial; lia|].
  cbn [toordinal].
  repeat split; try (unfold valid_date in *; cbn [toordinal]; lia).
  unfold weekday at 1. cbn [toordinal]. apply monday_weekday.
Qed.

(** The window of the week after 2025-11-19, a Wednesday. *)
Lemma get_week_range_spec_witness :
  exists start finish,
    get_week_range {| toordinal := 739574 |} 1 = ok (start, finish) /\
    toordinal start = 739579%Z /\
    toordinal finish = (toordinal start + 6)%Z /\
    weekday start = 0%Z /\
    valid_date start /\ valid_date finish.
Proof.
  apply (get_week_range_spec {| toordinal := 739574 |} 1).
  - unfold valid_date, MAXORDINAL; simpl; lia.
  - right; left; reflexivity.
  - vm_compute; discriminate.
Defined.

(** ** The row computation in closed form *)

Lemma py_div_pos (x y : Q) : 0 < y -> py_div x y = ok (x / y).
Proof.
  intro H. unfold py_div.
  destruct (Qeq_bool y 0) eqn:E; [|reflexivity].
  qcases. exfalso. lra.
Qed.

Lemma saturation_guard (self : Processor) (total : Q) :
  (if Qltb 0 (standard_hours self)
   then q <- py_div total (standard_hours self) ;; ok (q * 100)
   else ok 0) = ok (saturation_of self total).
Proof.
  unfold saturation_of.
  destruct (Qltb 0 (standard_hours self)) eqn:E; [|reflexivity].
  qcases. now rewrite py_div_pos.
Qed.

Lemma change_guard (prior current : Q) :
  (if Qltb 0 prior
   then let change := current - prior in
        q <- py_div change prior ;; ok (change, Fin (q * 100))
   else ok (current, if Qeq_bool current 0 then Fin 0 else Inf))
  = ok (change_of prior current).
Proof.
  unfold change_of.
  destruct (Qltb 0 prior) eqn:E; [|reflexivity].
  qcases. cbv zeta. now rewrite py_div_pos.
Qed.

(** The loop body reads the member cell, sums the three selections, and
    builds the record; none of its divisions can fail. *)
Lemma calculate_row_eq (self : Processor) (cols cw nw nnw pm : list string)
  (row : list cell) :
  calculate_row self cols cw nw nnw pm row =
  (m <- row_get cols row member_col ;;
   p0 <- project_hours cols row cw ;;
   p1 <- project_hours cols row nw ;;
   p2 <- project_hours cols row nnw ;;
   ok (build_row self m (cell_in m pm) p0 p1 p2)).
Proof.
  unfold calculate_row, project_hours.
  destruct (row_get cols row member_col) as [e|m]; [reflexivity|]. cbn [bind].
  destruct (if nonempty cw then _ else _) as [e|p0]; [reflexivity|]. cbn [bind].
  rewrite saturation_guard. cbn [bind ok].
  destruct (if nonempty nw then _ else _) as [e|p1]; [reflexivity|]. cbn [bind].
  rewrite saturation_guard. cbn [bind ok].
  destruct (if nonempty nnw then _ else _) as [e|p2]; [reflexivity|]. cbn [bind].
  rewrite saturation_guard. cbn [bind ok].
  rewrite !change_guard. cbn [bind ok].
  reflexivity.
Qed.

Lemma calculate_row_inv (self : Processor) (cols cw nw nnw pm : list string)
  (row : list cell) (r : ResultRow) :
  calculate_row self cols cw nw nnw pm row = ok r ->
  exists m p0 p1 p2,
    row_get cols row member_col = ok m /\
    project_hours cols row cw = ok p0 /\
    project_hours cols row nw = ok p1 /\
    project_hours cols row nnw = ok p2 /\
    r = build_row self m (cell_in m pm) p0 p1 p2.
Proof.
  rewrite calculate_row_eq. unfold ok.
  destruct (row_get cols row member_col) as [e|m]; [discriminate|]. cbn [bind].
  destruct (project_hours cols row cw) as [e|p0]; [discriminate|]. cbn [bind].
  destruct (project_hours cols row nw) as [e|p1]; [discriminate|]. cbn [bind].
  destruct (project_hours cols row nnw) as [e|p2]; [discriminate|]. cbn [bind].
  intro H. injection H as <-. now exists m, p0, p1, p2.
Qed.

(** What every computed row satisfies, week by week. *)
Lemma build_row_week (self : Processor) (m : cell) (b : bool) (p0 p1 p2 : Q)
  (w : week) :
  let r := build_row self m b p0 p1 p2 in
  overhead_hours_in w r = overhead_of self b /\
  total_hours_in w r = project_hours_in w r + overhead_hours_in w r /\
  saturation_in w r = round1 (saturation_of self (total_hours_in w r)) /\
  status_in w r = get_status self (saturation_of self (total_hours_in w r)).
Proof.
  destruct w; cbn; repeat split; reflexivity.
Qed.

(** ** Project hours: the sum over the window *)

Lemma week_cols_In (names : list string) (parsed : list (option date))
  (start finish : date) (n : string) :
  In n (week_cols names parsed start finish) -> In n names.
Proof.
  revert parsed. induction names as [|h hs IH]; intros [|p ps]; simpl; try tauto.
  destruct p as [d|]; [destruct (_ && _)%bool|]; simpl; intros H;
  try destruct H; eauto.
Qed.

Lemma week_cols_map (parse : string -> option date) (h : string)
  (hs : list string) (start finish : date) :
  week_cols (h :: hs) (map parse (h :: hs)) start finish =
  if in_window start finish (parse h)
  then h :: week_cols hs (map parse hs) start finish
  else week_cols hs (map parse hs) start finish.
Proof.
  simpl. unfold in_window. destruct (parse h); reflexivity.
Qed.

Lemma mapM_ext_in {A B : Type} (f g : A -> result B) (l : list A) :
  (forall a, In a l -> f a = g a) -> mapM f l = mapM g l.
Proof.
  induction l as [|a l IH]; intro H; simpl; [reflexivity|].
  rewrite (H a (or_introl eq_refl)), IH; [reflexivity|].
  intros b Hb. apply H. now right.
Qed.

Lemma project_hours_row_sum (cols : list string) (row : list cell)
  (names : list string) :
  project_hours cols row names = row_sum cols row names.
Proof.
  unfold project_hours. destruct names; reflexivity.
Qed.

Lemma example_columns_NoDup : NoDup example_columns.
Proof.
  unfold example_columns.
  repeat (constructor; [simpl; intuition discriminate|]). constructor.
Qed.

(** ** Saturation of a member row *)

(** ** Monotonicity in the project hours *)

Lemma saturation_of_mono (self : Processor) (t1 t2 : Q) :
  t1 <= t2 -> saturation_of self t1 <= saturation_of self t2.
Proof.
  intro H. unfold saturation_of.
  destruct (Qltb 0 (standard_hours self)) eqn:E; [|apply Qle_refl].
  qcases. unfold Qdiv.
  apply Qmult_le_compat_r; [|discriminate].
  apply Qmult_le_compat_r; [exact H|].
  apply Qinv_le_0_compat. lra.
Qed.

Lemma saturation_of_nonneg (self : Processor) (t : Q) :
  0 <= t -> 0 <= saturation_of self t.
Proof.
  intro H. unfold saturation_of.
  destruct (Qltb 0 (standard_hours self)) eqn:E; [|apply Qle_refl].
  qcases. unfold Qdiv.
  apply Qmult_le_0_compat; [|discriminate].
  apply Qmult_le_0_compat; [exact H|].
  apply Qinv_le_0_compat. lra.
Qed.

Lemma overloaded_upward (self : Processor) (s1 s2 : Q) :
  0 <= s1 -> s1 <= s2 ->
  get_status self s1 = overloaded -> get_status self s2 = overloaded.
Proof.
  intros H0 Hle H. apply get_status_overloaded in H as (Hnz & Hu & Hn).
  apply get_status_overloaded. repeat split; lra.
Qed.

(** C7, as stated, fails for the status: with an overhead of -10 hours and
    thresholds of -100 and -50, raising the project hours from 0 to 10 moves
    the saturation from -25 to 0 and the status from overloaded to idle. *)
Lemma monotone_status_counterexample :
  exists r1 r2,
    calculate_row (init negative_overhead) one_day_columns
      (selected_cols strptime_ymd one_day_columns (example_window ThisWeek))
      (selected_cols strptime_ymd one_day_columns (example_window NextWeek))
      (selected_cols strptime_ymd one_day_columns (example_window WeekAfterNext))
      [] [CStr "A"; CNum 0; CNum 0] = ok r1 /\
    calculate_row (init negative_overhead) one_day_columns
      (selected_cols strptime_ymd one_day_columns (example_window ThisWeek))
      (selected_cols strptime_ymd one_day_columns (example_window NextWeek))
      (selected_cols strptime_ymd one_day_columns (example_window WeekAfterNext))
      [] [CStr "A"; CNum 10; CNum 0] = ok r2 /\
    current_week_other_tasks r1 = current_week_other_tasks r2 /\
    current_week_project_hours r1 < current_week_project_hours r2 /\
    current_week_status r1 = overloaded /\
    current_week_status r2 = idle.
Proof.
  do 2 eexists.
  split; [vm_compute; reflexivity|]. split; [vm_compute; reflexivity|].
  repeat split; reflexivity.
Qed.

(** C7, amended: with the processor (standard hours, thresholds) and the
    overhead fixed, more project hours never give a smaller saturation,
    stored or unrounded; and when the total hours of the smaller row are not
    negative (hours and overhead are not negative in the data model), they
    never move the status from overloaded to another label. *)
Theorem project_hours_monotone (self : Processor)
  (cols1 cw1 nw1 nnw1 pm1 : list string) (row1 : list cell) (r1 : ResultRow)
  (cols2 cw2 nw2 nnw2 pm2 : list string) (row2 : list cell) (r2 : ResultRow)
  (w : week) :
  calculate_row self cols1 cw1 nw1 nnw1 pm1 row1 = ok r1 ->
  calculate_row self cols2 cw2 nw2 nnw2 pm2 row2 = ok r2 ->
  overhead_hours_in w r1 == overhead_hours_in w r2 ->
  project_hours_in w r1 <= project_hours_in w r2 ->
  saturation_of self (total_hours_in w r1)
    <= saturation_of self (total_hours_in w r2) /\
  saturation_in w r1 <= saturation_in w r2 /\
  (0 <= total_hours_in w r1 ->
   status_in w r1 = overloaded -> status_in w r2 = overloaded).
Proof.
  intros H1 H2 Ho Hp.
  apply calculate_row_inv in H1 as (m1 & a0 & a1 & a2 & _ & _ & _ & _ & ->).
  apply calculate_row_inv in H2 as (m2 & b0 & b1 & b2 & _ & _ & _ & _ & ->).
  destruct (build_row_week self m1 (cell_in m1 pm1) a0 a1 a2 w)
    as (_ & Ht1 & Hs1 & Hst1).
  destruct (build_row_week self m2 (cell_in m2 pm2) b0 b1 b2 w)
    as (_ & Ht2 & Hs2 & Hst2).
  cbv zeta in *.
  assert (Hle : total_hours_in w (build_row self m1 (cell_in m1 pm1) a0 a1 a2)
                <= total_hours_in w (build_row self m2 (cell_in m2 pm2) b0 b1 b2))
    by (rewrite Ht1, Ht2; lra).
  pose proof (saturation_of_mono self _ _ Hle) as Hsat.
  split; [exact Hsat|]. split.
  - rewrite Hs1, Hs2. now apply round1_mono.
  - intros Hnn. rewrite Hst1, Hst2.
    apply overloaded_upward; [now apply saturation_of_nonneg | exact Hsat].
Qed.

(** Members B (no project hours) and A (40 project hours) in the current
    week. *)
Lemma project_hours_monotone_witness :
  exists r1 r2,
    calculate_row (init example_config) example_columns
      (selected_cols strptime_ymd example_columns (example_window ThisWeek))
      (selected_cols strptime_ymd example_columns (example_window NextWeek))
      (selected_cols strptime_ymd example_columns (example_window WeekAfterNext))
      [] example_row_B = ok r1 /\
    calculate_row (init example_config) example_columns
      (selected_cols strptime_ymd example_columns (example_window ThisWeek))
      (selected_cols strptime_ymd example_columns (example_window NextWeek))
      (selected_cols strptime_ymd example_columns (example_window WeekAfterNext))
      [] example_row_A = ok r2 /\
    saturation_in ThisWeek r1 <= saturation_in ThisWeek r2 /\
    (0 <= total_hours_in ThisWeek r1 ->
     status_in ThisWeek r1 = overloaded -> status_in ThisWeek r2 = overloaded).
Proof.
  destruct (calculate_row (init example_config) example_columns
      (selected_cols strptime_ymd example_columns (example_window ThisWeek))
      (selected_cols strptime_ymd example_columns (example_window NextWeek))
      (selected_cols strptime_ymd example_columns (example_window WeekAfterNext))
      [] example_row_B) as [e|r1] eqn:E1; [vm_compute in E1; discriminate|].
  destruct (calculate_row (init example_config) example_columns
      (selected_cols strptime_ymd example_columns (example_window ThisWeek))
      (selected_cols strptime_ymd example_columns (example_window NextWeek))
      (selected_cols strptime_ymd example_columns (example_window WeekAfterNext))
      [] example_row_A) as [e|r2] eqn:E2; [vm_compute in E2; discriminate|].
  exists r1, r2. do 2 (split; [reflexivity|]).
  refine (proj2 (project_hours_monotone _ _ _ _ _ _ _ r1 _ _ _ _ _ _ r2
                   ThisWeek E1 E2 _ _)).
  - vm_compute in E1, E2. injection E1 as <-. injection E2 as <-. reflexivity.
  - vm_compute in E1, E2. injection E1 as <-. injection E2 as <-.
    vm_compute. discriminate.
Defined.

Lemma row_get_missing (cols : list string) (row : list cell) (n : string) :
  ~ In n cols -> row_get cols row n = raise (KeyError n).
Proof.
  revert row. induction cols as [|c cols IH]; intros [|v row] H; simpl;
  try reflexivity.
  destruct (String.eqb c n) eqn:E.
  - apply String.eqb_eq in E. subst. exfalso. apply H. now left.
  - apply IH. intro Hin. apply H. now right.
Qed.

Lemma mapM_error {A B : Type} (P : error -> Prop) (f : A -> result B)
  (l : list A) (e : error) :
  (forall a e', f a = raise e' -> P e') -> mapM f l = raise e -> P e.
Proof.
  intro Hf. revert e. induction l as [|a l IH]; simpl; intros e H.
  - discriminate.
  - destruct (f a) as [e'|b] eqn:E; cbn [bind] in H.
    + injection H as <-. eapply Hf; eauto.
    + destruct (mapM f l) as [e'|bs]; cbn [bind] in H; [|discriminate].
      injection H as <-. now apply IH.
Qed.

Lemma series_sum_error (cells : list cell) (e : error) :
  series_sum cells = raise e -> e = TypeError.
Proof.
  revert e. induction cells as [|c cs IH]; simpl; intros e H; [discriminate|].
  destruct (series_sum cs) as [e'|q]; cbn [bind] in H.
  - injection H as <-. now apply IH.
  - destruct c; try discriminate. now injection H as <-.
Qed.

Lemma series_sum_numeric (cells : list cell) :
  Forall numeric cells -> exists q, series_sum cells = ok q.
Proof.
  induction 1 as [|c cs Hc _ (q & IH)]; simpl.
  - now exists 0.
  - rewrite IH. cbn [bind ok].
    destruct c; [eexists; reflexivity | contradiction | eexists; reflexivity].
Qed.

Lemma mapM_total {A B : Type} (P : B -> Prop) (f : A -> result B) (l : list A) :
  (forall a, In a l -> exists b, f a = ok b /\ P b) ->
  exists bs, mapM f l = ok bs /\ Forall P bs.
Proof.
  induction l as [|a l IH]; intro H; simpl.
  - exists []. split; [reflexivity | constructor].
  - destruct (H a (or_introl eq_refl)) as (b & -> & Hb).
    destruct IH as (bs & -> & Hbs); [intros; apply H; now right|].
    exists (b :: bs). split; [reflexivity | now constructor].
Qed.

Lemma project_hours_total (cols : list string) (row : list cell)
  (names : list string) :
  (forall n, In n names -> exists c, row_get cols row n = ok c /\ numeric c) ->
  exists q, project_hours cols row names = ok q.
Proof.
  intro H. rewrite project_hours_row_sum. unfold row_sum.
  destruct (mapM_total numeric _ _ H) as (cells & -> & Hc).
  cbn [bind ok]. now apply series_sum_numeric.
Qed.

(** A row that has the member cell and a number or a missing value under
    every selected header gets its record. *)
Lemma calculate_row_total (self : Processor) (cols cw nw nnw pm : list string)
  (row : list cell) :
  (exists m, row_get cols row member_col = ok m) ->
  (forall n, In n (cw ++ nw ++ nnw) ->
     exists c, row_get cols row n = ok c /\ numeric c) ->
  exists r, calculate_row self cols cw nw nnw pm row = ok r.
Proof.
  intros (m & Hm) H. rewrite calculate_row_eq, Hm. cbn [bind ok].
  destruct (project_hours_total cols row cw) as (p0 & ->).
  { intros n Hn. apply H. apply in_or_app. now left. }
  destruct (project_hours_total cols row nw) as (p1 & ->).
  { intros n Hn. apply H. apply in_or_app. right. apply in_or_app. now left. }
  destruct (project_hours_total cols row nnw) as (p2 & ->).
  { intros n Hn. apply H. apply in_or_app. right. apply in_or_app. now right. }
  cbn [bind ok]. eexists. reflexivity.
Qed.

(** ** Standard hours that are not positive *)

Lemma saturation_of_nonpositive (self : Processor) (t : Q) :
  standard_hours self <= 0 -> saturation_of self t = 0.
Proof.
  intro H. unfold saturation_of.
  destruct (Qltb 0 (standard_hours self)) eqn:E; [|reflexivity].
  qcases. exfalso. lra.
Qed.

(** ** The whole calculation *)

Lemma calculate_workload_eq (strptime : string -> result date)
  (sort_rows : list ResultRow -> list ResultRow) (self : Processor)
  (df : DataFrame) (base : option string) (pm : option (list string))
  (now : date) :
  calculate_workload strptime sort_rows self df base pm now =
  (today <- today_of strptime base now ;;
   window <- week_ranges today ;;
   results <- member_records strptime self df pm window ;;
   result_df <- sort_values sort_rows results ;;
   ok (result_df,
       {| base_date := today;
          current_week_start := fst (window ThisWeek);
          current_week_end := snd (window ThisWeek);
          next_week_start := fst (window NextWeek);
          next_week_end := snd (window NextWeek);
          next_next_week_start := fst (window WeekAfterNext);
          next_next_week_end := snd (window WeekAfterNext);
          current_week_days :=
            length (selected_cols strptime (columns df) (window ThisWeek));
          next_week_days :=
            length (selected_cols strptime (columns df) (window NextWeek));
          next_next_week_days :=
            length (selected_cols strptime (columns df) (window WeekAfterNext))
       |})).
Proof.
  unfold calculate_workload, today_of, week_ranges, member_records, selected_cols.
  destruct (match base with None => _ | Some _ => _ end) as [e|today];
    [reflexivity|]. cbn [bind].
  destruct (get_week_range today 0) as [e|w0]; [reflexivity|]. cbn [bind].
  destruct (get_week_range today 1) as [e|w1]; [reflexivity|]. cbn [bind].
  destruct (get_week_range today 2) as [e|w2]; [reflexivity|]. cbn [bind ok].
  reflexivity.
Qed.

Lemma calculate_workload_inv (strptime : string -> result date)
  (sort_rows : list ResultRow -> list ResultRow) (self : Processor)
  (df : DataFrame) (base : option string) (pm : option (list string))
  (now : date) (out : list ResultRow) (info : DateInfo) :
  calculate_workload strptime sort_rows self df base pm now = ok (out, info) ->
  exists today window results,
    today_of strptime base now = ok today /\
    week_ranges today = ok window /\
    member_records strptime self df pm window = ok results /\
    results <> [] /\
    out = sort_rows results.
Proof.
  rewrite calculate_workload_eq. unfold ok.
  destruct (today_of strptime base now) as [e|today] eqn:Et; [discriminate|].
  cbn [bind].
  destruct (week_ranges today) as [e|window] eqn:Ew; [discriminate|]. cbn [bind].
  destruct (member_records strptime self df pm window) as [e|results] eqn:Er;
    [discriminate|]. cbn [bind].
  destruct results as [|r rs]; unfold sort_values, raise, ok; cbn [bind];
    [discriminate|].
  intro H. injection H as <- _.
  exists today, window, (r :: rs). repeat split; trivial. discriminate.
Qed.

(** A table that has rows, the member cell in each of them and a number or
    a missing value under every date header gets its result, once the base
    date and its windows are resolved. *)
Lemma calculate_workload_returns (strptime : string -> result date)
  (sort_rows : list ResultRow -> list ResultRow) (self : Processor)
  (df : DataFrame) (base : option string) (pm : option (list string))
  (now today : date) (window : week -> date * date) :
  today_of strptime base now = ok today ->
  week_ranges today = ok window ->
  rows df <> [] ->
  (forall row, In row (rows df) ->
     (exists m, row_get (columns df) row member_col = ok m) /\
     (forall n, In n (tl (columns df)) ->
        exists c, row_get (columns df) row n = ok c /\ numeric c)) ->
  exists results info,
    member_records strptime self df pm window = ok results /\
    calculate_workload strptime sort_rows self df base pm now
    = ok (sort_rows results, info).
Proof.
  intros Ht Hw Hne Hrows.
  rewrite calculate_workload_eq, Ht. cbn [bind ok]. rewrite Hw. cbn [bind ok].
  unfold member_records at 2.
  destruct (mapM_total (fun _ => True)
              (calculate_row self (columns df)
                 (selected_cols strptime (columns df) (window ThisWeek))
                 (selected_cols strptime (columns df) (window NextWeek))
                 (selected_cols strptime (columns df) (window WeekAfterNext))
                 (match pm with None => [] | Some l => l end)) (rows df))
    as (results & Hres & _).
  { intros row Hin. destruct (Hrows row Hin) as (Hm & Hc).
    destruct (calculate_row_total self (columns df)
                (selected_cols strptime (columns df) (window ThisWeek))
                (selected_cols strptime (columns df) (window NextWeek))
                (selected_cols strptime (columns df) (window WeekAfterNext))
                (match pm with None => [] | Some l => l end) row Hm)
      as (r & Hr).
    - intros n Hn. apply Hc.
      repeat (apply in_app_or in Hn as [Hn|Hn]);
        unfold selected_cols in Hn; eapply week_cols_In; eauto.
    - now exists r. }
  exists results. eexists. split; [exact Hres|].
  rewrite Hres. cbn [bind ok].
  destruct results as [|r rs].
  - destruct (rows df); [contradiction | cbn [mapM] in Hres].
    destruct (calculate_row _ _ _ _ _ _ _); cbn [bind] in Hres; [discriminate|].
    destruct (mapM _ _); discriminate.
  - reflexivity.
Qed.

(** The scenarios of the specification. *)
Example scenario_threshold_boundary :
  get_status (init get_default_config) 110 = normal.
Proof. reflexivity. Qed.

Example scenario_members :
  exists out info,
    calculate_workload strptime_ymd sort_stable (init example_config)
      example_table (Some "2025-11-17") None last_day = ok (out, info) /\
    map member out = [CStr "C"; CStr "B"; CStr "A"] /\
    Forall2 Qeq (map current_week_total_hours out) [15 # 10; 15 # 10; 415 # 10] /\
    Forall2 Qeq (map current_week_saturation out) [38 # 10; 38 # 10; 1038 # 10] /\
    map current_week_status out = [under_saturated; under_saturated; normal] /\
    current_week_days info = 5%nat.
Proof.
  do 2 eexists. split; [vm_compute; reflexivity|].
  split; [reflexivity|]. split; [repeat constructor|].
  split; [repeat constructor|]. split; reflexivity.
Qed.

(** ** Tables without a member column or without rows *)

Lemma calculate_row_no_member (self : Processor)
  (cols cw nw nnw pm : list string) (row : list cell) :
  ~ In member_col cols ->
  calculate_row self cols cw nw nnw pm row = raise (KeyError member_col).
Proof.
  intro H. rewrite calculate_row_eq, row_get_missing by assumption. reflexivity.
Qed.

(** C8, as stated, fails: the calculation has no check of the table's
    structure ahead of its loop.  For headers without the member header the
    failure is not decided before the rows are visited: with a row the
    error names the member header, without rows it names the sort column of
    the output, so no one error is raised whatever the rows are.  A table
    with the member header and without rows fails on that sort column,
    which is no header of the input.  And a base date that does not parse
    fails first, on the date. *)
Lemma structural_check_counterexample :
  (~ exists e, forall rs,
       calculate_workload strptime_ymd pandas_sort_rows (init example_config)
         {| columns := columns table_without_member_column; rows := rs |}
         (Some "2025-11-17") None last_day = raise e) /\
  calculate_workload strptime_ymd pandas_sort_rows (init example_config)
    {| columns := example_columns; rows := [] |}
    (Some "2025-11-17") None last_day = raise (KeyError sort_col) /\
  In member_col example_columns /\
  ~ In sort_col example_columns /\
  calculate_workload strptime_ymd pandas_sort_rows (init example_config)
    table_without_member_column (Some "2025-11-31") None last_day
  = raise ValueError.
Proof.
  split; [|split; [|split; [|split]]].
  - intros (e & H).
    pose proof (H [[CStr "A"; CNum 8]]) as H1. pose proof (H []) as H0.
    vm_compute in H1, H0. rewrite <- H0 in H1. discriminate H1.
  - reflexivity.
  - now left.
  - cbn. intuition discriminate.
  - reflexivity.
Qed.

(** C8, amended: for every table that lacks the member column or has no
    rows, the calculation raises an error and returns no result.  The
    error is the first of these: the error of the base date when it does
    not parse; the error of the week windows when they cannot be built;
    then, for a table with rows, [KeyError] on the member header, raised at
    the first row before any of its cells is read, whatever the rows hold;
    and, for a table without rows, [KeyError] on the sort column, raised by
    the sort of the empty result after the loop has run over no row.  The
    structure validator, which the calculation does not call, rejects a
    table with no rows as empty. *)
Theorem calculate_workload_structural_error
  (strptime : string -> result date)
  (sort_rows : list ResultRow -> list ResultRow)
  (to_datetime_ok : string -> bool) (self : Processor)
  (df : DataFrame) (base : option string) (pm : option (list string))
  (now : date) :
  ~ In member_col (columns df) \/ rows df = [] ->
  (exists e, calculate_workload strptime sort_rows self df base pm now = raise e) /\
  (forall e,
     today_of strptime base now = raise e ->
     calculate_workload strptime sort_rows self df base pm now = raise e) /\
  (forall today e,
     today_of strptime base now = ok today ->
     week_ranges today = raise e ->
     calculate_workload strptime sort_rows self df base pm now = raise e) /\
  (forall today window,
     today_of strptime base now = ok today ->
     week_ranges today = ok window ->
     calculate_workload strptime sort_rows self df base pm now
     = raise (KeyError (if nonempty (rows df) then member_col else sort_col))) /\
  (rows df = [] ->
   validate_excel_structure to_datetime_ok df = (false, Some "数据表为空")).
Proof.
  intro H.
  assert (Hrec : forall window,
            member_records strptime self df pm window = ok [] /\ rows df = [] \/
            member_records strptime self df pm window = raise (KeyError member_col)
            /\ nonempty (rows df) = true).
  { intro window. unfold member_records.
    destruct (rows df) as [|row rest] eqn:Er; [left; now split|].
    right. split; [|reflexivity].
    destruct H as [H|H]; [|discriminate].
    cbn [mapM]. now rewrite calculate_row_no_member. }
  rewrite calculate_workload_eq.
  split; [|split; [|split; [|split]]].
  - destruct (today_of strptime base now) as [e|today]; [now exists e|]. cbn [bind].
    destruct (week_ranges today) as [e|window]; [now exists e|]. cbn [bind].
    destruct (Hrec window) as [(-> & _) | (-> & _)]; eexists; reflexivity.
  - intros e Ht. rewrite Ht. reflexivity.
  - intros today e Ht Hw. rewrite Ht. cbn [bind ok]. rewrite Hw. reflexivity.
  - intros today window Ht Hw. rewrite Ht. cbn [bind ok].
    rewrite Hw. cbn [bind ok].
    destruct (Hrec window) as [(-> & ->) | (-> & ->)]; reflexivity.
  - intro Hr. unfold validate_excel_structure. now rewrite Hr.
Qed.

(** A table whose first header is not the member header; its row holds a
    text where hours are expected, and the error is still the one on the
    member header. *)
Lemma calculate_workload_structural_error_witness :
  calculate_workload strptime_ymd pandas_sort_rows (init example_config)
    {| columns := columns table_without_member_column;
       rows := [[CStr "A"; CStr "eight"]] |}
    (Some "2025-11-17") None last_day
  = raise (KeyError member_col).
Proof.
  destruct (calculate_workload_structural_error strptime_ymd pandas_sort_rows
              (fun _ => true) (init example_config)
              {| columns := columns table_without_member_column;
                 rows := [[CStr "A"; CStr "eight"]] |}
              (Some "2025-11-17") None last_day)
    as (_ & _ & _ & H & _).
  - left. simpl. intuition discriminate.
  - apply (H {| toordinal := 739572 |} example_window); reflexivity.
Defined.

(** ** Configuration validation *)

Lemma check_threshold_keys_none (th : Thresholds) :
  check_threshold_keys th required_threshold_keys = None ->
  exists a b c d,
    th_under_saturated_max th = Some a /\ th_normal_min th = Some b /\
    th_normal_max th = Some c /\ th_over_saturated_min th = Some d /\
    0 <= a /\ 0 <= b /\ 0 <= c /\ 0 <= d.
Proof.
  unfold required_threshold_keys. cbn [check_threshold_keys].
  destruct (th_under_saturated_max th) as [a|]; [|discriminate].
  destruct (Qltb a 0) eqn:Ea; [discriminate|].
  destruct (th_normal_min th) as [b|]; [|discriminate].
  destruct (Qltb b 0) eqn:Eb; [discriminate|].
  destruct (th_normal_max th) as [c|]; [|discriminate].
  destruct (Qltb c 0) eqn:Ec; [discriminate|].
  destruct (th_over_saturated_min th) as [d|]; [|discriminate].
  destruct (Qltb d 0) eqn:Ed; [discriminate|].
  intros _. qcases. exists a, b, c, d. repeat split; assumption.
Qed.

(** The validator accepts exactly the configurations that have the three
    required keys and the four threshold keys, standard hours in (0, 168],
    and thresholds that are not negative and in non-decreasing order. *)
Lemma validate_config_true (config : Config) :
  validate_config config = (true, None) <->
  exists h ot th a b c d,
    standard_hours_per_week config = Some h /\
    other_tasks config = Some ot /\
    saturation_thresholds config = Some th /\
    th_under_saturated_max th = Some a /\ th_normal_min th = Some b /\
    th_normal_max th = Some c /\ th_over_saturated_min th = Some d /\
    0 < h /\ h <= 168 /\ 0 <= a /\ a <= b /\ b <= c /\ c <= d.
Proof.
  unfold validate_config. split.
  - destruct (standard_hours_per_week config) as [h|]; [|discriminate].
    destruct (other_tasks config) as [ot|]; [|discriminate].
    destruct (saturation_thresholds config) as [th|]; [|discriminate].
    destruct (Qle_bool h 0) eqn:E1; [discriminate|].
    destruct (Qltb 168 h) eqn:E2; [discriminate|].
    destruct (check_threshold_keys th required_threshold_keys) eqn:E3;
      [discriminate|].
    apply check_threshold_keys_none in E3
      as (a & b & c & d & Ka & Kb & Kc & Kd & Ha & _).
    rewrite Ka, Kb, Kc, Kd. cbn [dict_get].
    destruct (Qle_bool a b) eqn:E4; [|discriminate].
    destruct (Qle_bool b c) eqn:E5; [|discriminate].
    destruct (Qle_bool c d) eqn:E6; [|discriminate].
    intros _. qcases. exists h, ot, th, a, b, c, d. repeat split; assumption.
  - intros (h & ot & th & a & b & c & d & -> & -> & -> & Ea & Eb & Ec & Ed
            & H1 & H2 & H3 & H4 & H5 & H6).
    assert (F1 : Qle_bool h 0 = false) by (apply Qle_bool_gt; lra).
    assert (F2 : Qltb 168 h = false) by (apply Qltb_ge; lra).
    rewrite F1, F2. unfold required_threshold_keys. cbn [check_threshold_keys].
    rewrite Ea, Eb, Ec, Ed. cbn [dict_get].
    assert (Fa : Qltb a 0 = false) by (apply Qltb_ge; lra).
    assert (Fb : Qltb b 0 = false) by (apply Qltb_ge; lra).
    assert (Fc : Qltb c 0 = false) by (apply Qltb_ge; lra).
    assert (Fd : Qltb d 0 = false) by (apply Qltb_ge; lra).
    rewrite Fa, Fb, Fc, Fd.
    apply Qle_bool_iff in H4, H5, H6. now rewrite H4, H5, H6.
Qed.

Lemma validate_config_shape (config : Config) :
  validate_config config = (true, None) \/
  exists msg, validate_config config = (false, Some msg).
Proof.
  unfold validate_config.
  destruct (standard_hours_per_week config); [|right; eexists; reflexivity].
  destruct (other_tasks config); [|right; eexists; reflexivity].
  destruct (saturation_thresholds config); [|right; eexists; reflexivity].
  destruct (Qle_bool _ _); [right; eexists; reflexivity|].
  destruct (Qltb _ _); [right; eexists; reflexivity|].
  destruct (check_threshold_keys _ _); [right; eexists; reflexivity|].
  destruct (_ && _)%bool; [now left | right; eexists; reflexivity].
Qed.

(** C9, as stated, fails: the calculator accepts a configuration that lacks
    the standard hours, the other-tasks entry and a threshold key and whose
    thresholds are out of order.  It takes 40 for the absent standard hours
    and returns saturation figures, although the validator rejects the
    configuration. *)
Lemma calculator_accepts_invalid_config :
  fst (validate_config invalid_config) = false /\
  standard_hours (init invalid_config) = 40 /\
  exists out info,
    calculate_workload strptime_ymd sort_stable (init invalid_config)
      example_table (Some "2025-11-17") None last_day = ok (out, info) /\
    map member out = [CStr "C"; CStr "B"; CStr "A"] /\
    Forall2 Qeq (map current_week_saturation out) [38 # 10; 38 # 10; 1038 # 10].
Proof.
  split; [reflexivity|]. split; [reflexivity|].
  do 2 eexists. split; [vm_compute; reflexivity|].
  split; [reflexivity|]. repeat constructor.
Qed.

(** C9, amended: the configuration validator [validate_config] rejects,
    with a message, every configuration that lacks a required key, whose
    standard hours are not positive or exceed 168, or whose four thresholds
    are not in non-decreasing order.  The calculator itself performs no such
    check: it reads absent keys as their defaults and computes. *)
Theorem validate_config_rejects (config : Config) :
  config_defect config ->
  exists msg, validate_config config = (false, Some msg).
Proof.
  intro Hd.
  destruct (validate_config_shape config) as [Hok|Hrej]; [|exact Hrej].
  exfalso.
  apply validate_config_true in Hok
    as (h & ot & th & a & b & c & d & Eh & Eot & Eth & Ea & Eb & Ec & Ed
        & H1 & H2 & H3 & H4 & H5 & H6).
  destruct Hd as [E|E|E|th' E [F|[F|[F|F]]]|h' E Hh|h' E Hh|th' a' b' c' d' E Fa Fb Fc Fd Hn];
  try congruence.
  - rewrite Eh in E. injection E as <-. lra.
  - rewrite Eh in E. injection E as <-. lra.
  - rewrite Eth in E. injection E as <-.
    rewrite Ea in Fa. rewrite Eb in Fb. rewrite Ec in Fc. rewrite Ed in Fd.
    injection Fa as <-. injection Fb as <-. injection Fc as <-. injection Fd as <-.
    apply Hn. repeat split; assumption.
Qed.

(** The configuration without standard hours. *)
Lemma validate_config_rejects_witness :
  exists msg, validate_config invalid_config = (false, Some msg).
Proof.
  apply validate_config_rejects.
  apply missing_standard_hours. reflexivity.
Defined.

Example validate_default_config :
  validate_config get_default_config = (true, None).
Proof. reflexivity. Qed.

(** ** Ordering of the result rows *)

Section InsertionFacts.

Variable ahead : Q -> Q -> bool.
Hypothesis ahead_true : forall k x, ahead k x = true -> k <= x.
Hypothesis ahead_false : forall k x, ahead k x = false -> x <= k.

Lemma insert_row_perm (r : ResultRow) (l : list ResultRow) :
  Permutation (r :: l) (insert_row ahead r l).
Proof.
  induction l as [|x l IH]; simpl; [reflexivity|].
  destruct (ahead _ _); [|reflexivity].
  rewrite perm_swap. now constructor.
Qed.

Lemma insert_row_sorted (r : ResultRow) (l : list ResultRow) :
  StronglySorted key_ge l -> StronglySorted key_ge (insert_row ahead r l).
Proof.
  induction 1 as [|x l Hs IH Hall]; simpl.
  - repeat constructor.
  - destruct (ahead _ _) eqn:E.
    + constructor; [exact IH|].
      apply (Permutation_Forall (insert_row_perm r l)).
      constructor; [|exact Hall]. unfold key_ge. now apply ahead_true.
    + apply ahead_false in E.
      constructor; [now constructor|].
      constructor; [exact E|].
      eapply Forall_impl; [|exact Hall].
      intros y Hy. unfold key_ge in *. lra.
Qed.

Lemma insertion_sort_descending : descending_sort (insertion_sort ahead).
Proof.
  intro l. unfold insertion_sort. induction l as [|r l (IHp & IHs)]; simpl.
  - split; constructor.
  - split.
    + rewrite <- insert_row_perm. now constructor.
    + now apply insert_row_sorted.
Qed.

End InsertionFacts.

Lemma sort_stable_descending : descending_sort sort_stable.
Proof.
  apply insertion_sort_descending; intros k x H; qcases; lra.
Qed.

Lemma insert_row_stable (k : Q) (r : ResultRow) (l : list ResultRow) :
  filter (has_key k) (insert_row (fun k x => Qltb k x) r l)
  = filter (has_key k) (r :: l).
Proof.
  induction l as [|x l IH]; [reflexivity|].
  cbn [insert_row]. destruct (Qltb _ _) eqn:E; [|reflexivity].
  cbn [filter] in *. rewrite IH.
  destruct (has_key k r) eqn:Er; [|reflexivity].
  destruct (has_key k x) eqn:Ex; [|reflexivity].
  unfold has_key in *. qcases. exfalso. lra.
Qed.

(** A stable sort would keep the input order among equal keys. *)
Lemma sort_stable_keeps_input_order (l : list ResultRow) :
  keeps_input_order l (sort_stable l).
Proof.
  intro k. unfold sort_stable, insertion_sort.
  induction l as [|r l IH]; [reflexivity|].
  cbn [fold_right]. rewrite insert_row_stable. cbn [filter]. now rewrite IH.
Qed.

(* ================================================================== *)
(** * Further properties *)

(** ** The summary of a run *)

Lemma get_summary_stats_week (l : list ResultRow) (stats : Stats) (w : week) :
  get_summary_stats l = ok stats ->
  l <> [] /\
  total_members stats = length l /\
  avg_saturation (stats_in w stats)
  = round1 (series_mean (map (saturation_in w) l)) /\
  count_idle (stats_in w stats) = count_label (map (status_in w) l) idle /\
  count_under_saturated (stats_in w stats)
  = count_label (map (status_in w) l) under_saturated /\
  count_normal (stats_in w stats) = count_label (map (status_in w) l) normal /\
  count_overloaded (stats_in w stats)
  = count_label (map (status_in w) l) overloaded.
Proof.
  unfold get_summary_stats. destruct l as [|r l]; [discriminate|].
  intro H. injection H as <-. split; [discriminate|].
  destruct w; cbn [stats_in stats_current_week stats_next_week
                   stats_next_next_week total_members avg_saturation count_idle
                   count_under_saturated count_normal count_overloaded];
  repeat split; reflexivity.
Qed.

Lemma get_summary_stats_nonempty (l : list ResultRow) :
  l <> [] -> exists stats, get_summary_stats l = ok stats.
Proof.
  destruct l; [contradiction|]. intros _. eexists. reflexivity.
Qed.

(** Counting the four labels in a column that holds nothing else. *)
Lemma count_four_labels (column : list string) :
  Forall (fun s => In s [idle; under_saturated; normal; overloaded]) column ->
  (count_label column idle + count_label column under_saturated
   + count_label column normal + count_label column overloaded
   = length column)%nat.
Proof.
  unfold count_label.
  induction 1 as [|s column Hs _ IH]; [reflexivity|].
  cbn [filter length].
  destruct Hs as [<-|[<-|[<-|[<-|[]]]]]; cbn; lia.
Qed.

Lemma get_status_label (self : Processor) (s : Q) :
  In (get_status self s) [idle; under_saturated; normal; overloaded].
Proof.
  unfold get_status.
  destruct (Qeq_bool s 0); [simpl; auto|].
  destruct (Qltb _ _); [simpl; auto|].
  destruct (Qle_bool _ _); simpl; auto.
Qed.

Lemma mapM_Forall2 {A B : Type} (f : A -> result B) (l : list A) (bs : list B) :
  mapM f l = ok bs -> Forall2 (fun a b => f a = ok b) l bs.
Proof.
  revert bs. induction l as [|a l IH]; simpl; intros bs H.
  - injection H as <-. constructor.
  - destruct (f a) as [e|b] eqn:E; cbn [bind] in H; [discriminate|].
    destruct (mapM f l) as [e|bs']; cbn [bind] in H; [discriminate|].
    injection H as <-. constructor; [exact E | now apply IH].
Qed.

Lemma member_records_rows (strptime : string -> result date)
  (self : Processor) (df : DataFrame) (pm : option (list string))
  (window : week -> date * date) (results : list ResultRow) :
  member_records strptime self df pm window = ok results ->
  Forall2 (fun row r =>
             calculate_row self (columns df)
               (selected_cols strptime (columns df) (window ThisWeek))
               (selected_cols strptime (columns df) (window NextWeek))
               (selected_cols strptime (columns df) (window WeekAfterNext))
               (match pm with None => [] | Some l => l end) row = ok r)
          (rows df) results.
Proof.
  apply mapM_Forall2.
Qed.

Lemma record_status_label (self : Processor) (cols cw nw nnw pm : list string)
  (row : list cell) (r : ResultRow) (w : week) :
  calculate_row self cols cw nw nnw pm row = ok r ->
  In (status_in w r) [idle; under_saturated; normal; overloaded].
Proof.
  intro H.
  apply calculate_row_inv in H as (m & p0 & p1 & p2 & _ & _ & _ & _ & ->).
  destruct w; cbn [status_in build_row current_week_status next_week_status
                   next_next_week_status]; apply get_status_label.
Qed.

(** X1: for every run that returns, the summary exists, its member count
    is the number of rows of the input table, and in each of the three weeks
    the four status counts add up to the member count: every member is
    counted under exactly one label. *)
Theorem summary_counts_partition (strptime : string -> result date)
  (sort_rows : list ResultRow -> list ResultRow) (self : Processor)
  (df : DataFrame) (base : option string) (pm : option (list string))
  (now : date) (out : list ResultRow) (info : DateInfo) :
  descending_sort sort_rows ->
  calculate_workload strptime sort_rows self df base pm now = ok (out, info) ->
  exists stats,
    get_summary_stats out = ok stats /\
    total_members stats = length (rows df) /\
    forall w,
      (count_idle (stats_in w stats) + count_under_saturated (stats_in w stats)
       + count_normal (stats_in w stats) + count_overloaded (stats_in w stats)
       = total_members stats)%nat.
Proof.
  intros Hsort H.
  apply calculate_workload_inv in H
    as (today & window & results & _ & _ & Hr & Hne & ->).
  destruct (Hsort results) as (Hp & _).
  apply member_records_rows in Hr.
  assert (Hout : sort_rows results <> []).
  { intro E. rewrite E in Hp. apply Permutation_sym, Permutation_nil in Hp.
    contradiction. }
  destruct (get_summary_stats_nonempty _ Hout) as (stats & Hs).
  exists stats. split; [exact Hs|].
  assert (Hlen : length (sort_rows results) = length (rows df)).
  { rewrite <- (Permutation_length Hp). symmetry.
    eapply Forall2_length; eauto. }
  split.
  - destruct (get_summary_stats_week _ _ ThisWeek Hs) as (_ & -> & _).
    exact Hlen.
  - intro w.
    destruct (get_summary_stats_week _ _ w Hs)
      as (_ & -> & _ & -> & -> & -> & ->).
    rewrite count_four_labels; [now rewrite length_map|].
    apply Forall_map.
    apply (Permutation_Forall Hp).
    clear - Hr. induction Hr as [|row r rows' rs Hrow _ IH]; constructor; trivial.
    eapply record_status_label; eauto.
Qed.

(** The example table: three members, each counted once a week. *)
Lemma summary_counts_partition_witness :
  exists out info stats,
    calculate_workload strptime_ymd sort_stable (init example_config)
      example_table (Some "2025-11-17") None last_day = ok (out, info) /\
    get_summary_stats out = ok stats /\
    total_members stats = 3%nat /\
    count_under_saturated (stats_current_week stats) = 2%nat /\
    count_normal (stats_current_week stats) = 1%nat.
Proof.
  destruct (calculate_workload strptime_ymd sort_stable (init example_config)
      example_table (Some "2025-11-17") None last_day) as [e|[out info]] eqn:E;
    [vm_compute in E; discriminate|].
  destruct (summary_counts_partition _ _ _ _ _ _ _ out info
              sort_stable_descending E) as (stats & Hs & Ht & _).
  exists out, info, stats. split; [reflexivity|].
  split; [exact Hs|]. split; [exact Ht|].
  vm_compute in E. injection E as <- _.
  vm_compute in Hs. injection Hs as <-. split; reflexivity.
Defined.

Lemma filter_length_permutation {A : Type} (f : A -> bool) (l l' : list A) :
  Permutation l l' -> length (filter f l) = length (filter f l').
Proof.
  induction 1 as [|x l l' _ IH|x y l|l l' l'' _ IH1 _ IH2]; cbn [filter].
  - reflexivity.
  - destruct (f x); cbn [length]; now rewrite IH.
  - destruct (f x), (f y); reflexivity.
  - now rewrite IH1.
Qed.

Lemma count_label_permutation (l l' : list string) (label : string) :
  Permutation l l' -> count_label l label = count_label l' label.
Proof.
  apply filter_length_permutation.
Qed.

(** X2: the member count and the status counts of the summary do not
    depend on the order of the rows: when two frames hold the same records
    in any two orders and one has a summary, the other has one with the same
    member count and, in every week, the same four status counts.  So the
    order in which the sort leaves rows of equal saturation never shows in
    the counts. *)
Theorem summary_counts_order_independent (l l' : list ResultRow)
  (stats : Stats) :
  Permutation l l' ->
  get_summary_stats l = ok stats ->
  exists stats',
    get_summary_stats l' = ok stats' /\
    total_members stats' = total_members stats /\
    forall w,
      count_idle (stats_in w stats') = count_idle (stats_in w stats) /\
      count_under_saturated (stats_in w stats')
      = count_under_saturated (stats_in w stats) /\
      count_normal (stats_in w stats') = count_normal (stats_in w stats) /\
      count_overloaded (stats_in w stats')
      = count_overloaded (stats_in w stats).
Proof.
  intros H Hs. unfold get_summary_stats in *.
  destruct l as [|r l]; [discriminate Hs|].
  destruct l' as [|r' l'];
    [apply Permutation_sym, Permutation_nil in H; discriminate H|].
  set (a := r :: l) in *. set (b := r' :: l') in *.
  eexists. split; [reflexivity|].
  injection Hs as <-.
  assert (Hc : forall (f : ResultRow -> string) label,
            count_label (map f b) label = count_label (map f a) label).
  { intros f label. apply count_label_permutation.
    now apply Permutation_map, Permutation_sym. }
  split; [change (length b = length a); symmetry;
          now apply Permutation_length|].
  intro w. destruct w; cbn [stats_in stats_current_week stats_next_week
    stats_next_next_week count_idle count_under_saturated count_normal
    count_overloaded]; rewrite !Hc; repeat split.
Qed.

(** The records of the example, in input order and reversed. *)
Lemma summary_counts_order_independent_witness :
  exists stats stats',
    get_summary_stats example_records = ok stats /\
    get_summary_stats (rev example_records) = ok stats' /\
    total_members stats' = total_members stats /\
    forall w,
      count_idle (stats_in w stats') = count_idle (stats_in w stats) /\
      count_under_saturated (stats_in w stats')
      = count_under_saturated (stats_in w stats) /\
      count_normal (stats_in w stats') = count_normal (stats_in w stats) /\
      count_overloaded (stats_in w stats')
      = count_overloaded (stats_in w stats).
Proof.
  destruct (get_summary_stats example_records) as [e|stats] eqn:E;
    [vm_compute in E; discriminate|].
  destruct (summary_counts_order_independent example_records
              (rev example_records) stats (Permutation_rev _) E)
    as (stats' & E' & H).
  exists stats, stats'. split; [reflexivity|]. split; [exact E'|]. exact H.
Defined.

Lemma series_mean_bounds (values : list Q) (lo hi : Q) :
  values <> [] ->
  Forall (fun v => lo <= v /\ v <= hi) values ->
  lo <= series_mean values /\ series_mean values <= hi.
Proof.
  intros Hne Hall. unfold series_mean.
  assert (Hsum : inject_Z (Z.of_nat (length values)) * lo
                 <= fold_right Qplus 0 values /\
                 fold_right Qplus 0 values
                 <= inject_Z (Z.of_nat (length values)) * hi).
  { clear Hne. induction Hall as [|v vs (Hlo & Hhi) _ (IH1 & IH2)].
    - cbn [fold_right length]. change (inject_Z (Z.of_nat 0)) with 0.
      split; lra.
    - cbn [fold_right length]. rewrite Nat2Z.inj_succ, <- Z.add_1_r.
      rewrite inject_Z_plus. change (inject_Z 1) with 1. split; lra. }
  assert (Hpos : 0 < inject_Z (Z.of_nat (length values))).
  { destruct values; [contradiction|].
    cbn [length]. rewrite Nat2Z.inj_succ, <- Z.add_1_r, inject_Z_plus.
    pose proof (Nat2Z.is_nonneg (length values)) as Hn.
    rewrite Zle_Qle in Hn. change (inject_Z 0) with 0 in Hn.
    change (inject_Z 1) with 1. lra. }
  destruct Hsum as (H1 & H2). split.
  - apply Qle_shift_div_l; [exact Hpos | lra].
  - apply Qle_shift_div_r; [exact Hpos | lra].
Qed.



Lemma count_label_all (column : list string) (label : string) :
  Forall (fun s => s = label) column ->
  count_label column label = length column /\
  forall other, other <> label -> count_label column other = 0%nat.
Proof.
  unfold count_label. induction 1 as [|s column -> _ (IH1 & IH2)].
  - split; reflexivity.
  - split.
    + cbn [filter]. rewrite String.eqb_refl. cbn [length]. now rewrite IH1.
    + intros other Ho. cbn [filter].
      destruct (String.eqb label other) eqn:E.
      * apply String.eqb_eq in E. congruence.
      * now apply IH2.
Qed.

(** X4: when the standard hours are zero or negative, the summary of a run
    that returns reports, in each of the three weeks, every member as idle,
    no member under any other label, and an average saturation of 0. *)
Theorem summary_nonpositive_standard_hours
  (strptime : string -> result date)
  (sort_rows : list ResultRow -> list ResultRow) (self : Processor)
  (df : DataFrame) (base : option string) (pm : option (list string))
  (now : date) (out : list ResultRow) (info : DateInfo) :
  standard_hours self <= 0 ->
  descending_sort sort_rows ->
  calculate_workload strptime sort_rows self df base pm now = ok (out, info) ->
  exists stats,
    get_summary_stats out = ok stats /\
    forall w,
      count_idle (stats_in w stats) = length (rows df) /\
      count_under_saturated (stats_in w stats) = 0%nat /\
      count_normal (stats_in w stats) = 0%nat /\
      count_overloaded (stats_in w stats) = 0%nat /\
      avg_saturation (stats_in w stats) == 0.
Proof.
  intros Hstd Hsort H.
  apply calculate_workload_inv in H
    as (today & window & results & _ & _ & Hr & Hne & ->).
  destruct (Hsort results) as (Hp & _).
  apply member_records_rows in Hr.
  assert (Hout : sort_rows results <> []).
  { intro E. rewrite E in Hp. apply Permutation_sym, Permutation_nil in Hp.
    contradiction. }
  destruct (get_summary_stats_nonempty _ Hout) as (stats & Hs).
  exists stats. split; [exact Hs|]. intro w.
  assert (Hrec : Forall (fun r => saturation_in w r == 0 /\ status_in w r = idle)
                   (sort_rows results)).
  { apply (Permutation_Forall Hp). clear - Hr Hstd.
    induction Hr as [|row r rows' rs Hrow _ IH]; constructor; trivial.
    apply calculate_row_inv in Hrow as (m & p0 & p1 & p2 & _ & _ & _ & _ & ->).
    destruct (build_row_week self m
                (cell_in m match pm with None => [] | Some l => l end)
                p0 p1 p2 w) as (_ & _ & Hsat & Hst).
    cbv zeta in *. rewrite Hsat, Hst, saturation_of_nonpositive by assumption.
    split; reflexivity. }
  destruct (get_summary_stats_week _ _ w Hs)
    as (_ & _ & -> & -> & -> & -> & ->).
  destruct (count_label_all (map (status_in w) (sort_rows results)) idle)
    as (Hidle & Hother).
  { apply Forall_map. eapply Forall_impl; [|exact Hrec]. now intros r (_ & E). }
  pose proof labels_distinct as (D1 & D2 & D3 & _).
  rewrite Hidle, !Hother by congruence.
  rewrite length_map, <- (Permutation_length Hp), <- (Forall2_length Hr).
  repeat split; trivial.
  apply round1_zero.
  destruct (series_mean_bounds (map (saturation_in w) (sort_rows results)) 0 0)
    as (H1 & H2).
  - destruct (sort_rows results); [contradiction | discriminate].
  - apply Forall_map. eapply Forall_impl; [|exact Hrec].
    intros r (E & _). rewrite E. split; apply Qle_refl.
  - lra.
Qed.

(** The example table under a configuration with 0 standard hours. *)
Lemma summary_nonpositive_standard_hours_witness :
  exists out info stats,
    calculate_workload strptime_ymd sort_stable (init zero_standard_hours)
      example_table (Some "2025-11-17") None last_day = ok (out, info) /\
    get_summary_stats out = ok stats /\
    forall w, count_idle (stats_in w stats) = 3%nat /\
              avg_saturation (stats_in w stats) == 0.
Proof.
  destruct (calculate_workload strptime_ymd sort_stable
      (init zero_standard_hours) example_table (Some "2025-11-17") None last_day)
    as [e|[out info]] eqn:E; [vm_compute in E; discriminate|].
  assert (Hstd : standard_hours (init zero_standard_hours) <= 0)
    by (vm_compute; discriminate).
  destruct (summary_nonpositive_standard_hours _ _ _ _ _ _ _ out info
              Hstd sort_stable_descending E) as (stats & Hs & Hw).
  exists out, info, stats. split; [reflexivity|]. split; [exact Hs|].
  intro w. destruct (Hw w) as (H1 & _ & _ & _ & H2). split; assumption.
Defined.

(** ** The validators *)

Lemma nonempty_false {A : Type} (l : list A) : nonempty l = false <-> l = [].
Proof.
  destruct l; split; intro H; try reflexivity; discriminate.
Qed.

Lemma nonempty_true {A : Type} (l : list A) : nonempty l = true <-> l <> [].
Proof.
  destruct l; split; intro H; try reflexivity; try discriminate.
  contradiction.
Qed.

Lemma filter_nil_iff {A : Type} (f : A -> bool) (l : list A) :
  filter f l = [] <-> forall a, In a l -> f a = false.
Proof.
  induction l as [|x l IH]; cbn [filter].
  - split; [intros _ a [] | reflexivity].
  - destruct (f x) eqn:E.
    + split; [discriminate|]. intro H.
      rewrite (H x (or_introl eq_refl)) in E. discriminate.
    + rewrite IH. split.
      * intros H a [<-|Ha]; [exact E | now apply H].
      * intros H a Ha. apply H. now right.
Qed.

(** X5: the structure validator accepts a table exactly when it has a
    row, at least two columns, a first column that is not entirely missing,
    and only headers after the first that [pd.to_datetime] reads; the name of
    the first header is never looked at.  Its message about absent date
    columns is never returned: a table with two columns has one. *)
Theorem validate_excel_structure_accepts (to_datetime_ok : string -> bool)
  (df : DataFrame) :
  (validate_excel_structure to_datetime_ok df = (true, None) <->
   rows df <> [] /\
   (2 <= length (columns df))%nat /\
   first_col_all_na df = false /\
   forall col, In col (tl (columns df)) -> to_datetime_ok col = true) /\
  snd (validate_excel_structure to_datetime_ok df) <> Some "缺少日期列".
Proof.
  unfold validate_excel_structure.
  destruct (nonempty (rows df)) eqn:Er; cbn [negb orb].
  2:{ apply nonempty_false in Er. split; [|discriminate].
      split; [discriminate | intros (H & _); contradiction]. }
  apply nonempty_true in Er.
  destruct (columns df) as [|c0 [|c1 cs]] eqn:Ec; cbn [nonempty negb length tl].
  - split; [|discriminate].
    split; [discriminate | intros (_ & H & _); cbn in H; lia].
  - cbn [Nat.ltb Nat.leb]. split; [|discriminate].
    split; [discriminate | intros (_ & H & _); cbn in H; lia].
  - cbn [Nat.ltb Nat.leb Nat.eqb].
    destruct (first_col_all_na df) eqn:Ena.
    { split; [|discriminate].
      split; [discriminate | intros (_ & _ & H & _); discriminate]. }
    destruct (filter _ (c1 :: cs)) as [|bad rest] eqn:Ef; cbn [nonempty].
    + split; [|discriminate]. split; [|reflexivity].
      intros _. repeat split; trivial; [lia|].
      intros col Hcol.
      rewrite filter_nil_iff in Ef. specialize (Ef col Hcol).
      now apply negb_false_iff in Ef.
    + split.
      * split; [discriminate|]. intros (_ & _ & _ & H).
        assert (Hbad : In bad (filter (fun col => negb (to_datetime_ok col))
                                 (c1 :: cs)))
          by (rewrite Ef; now left).
        apply filter_In in Hbad as (Hin & Hneg).
        rewrite (H bad Hin) in Hneg. discriminate.
      * cbn [snd]. intro H. cbn [append] in H. discriminate H.
Qed.

Lemma find_none_iff {A : Type} (f : A -> bool) (l : list A) :
  find f l = None <-> forall a, In a l -> f a = false.
Proof.
  split; [apply find_none|].
  induction l as [|x l IH]; intro H; [reflexivity|].
  cbn [find]. rewrite (H x (or_introl eq_refl)). apply IH.
  intros a Ha. apply H. now right.
Qed.

Lemma any_lt_false (cells : list cell) (bound : Q) :
  any_lt cells bound = false <-> forall q, In (CNum q) cells -> bound <= q.
Proof.
  unfold any_lt. split.
  - intros H q Hq. apply Qltb_ge.
    destruct (Qltb q bound) eqn:E; [|reflexivity].
    assert (Ht : existsb (fun c => match c with
                                   | CNum q => Qltb q bound
                                   | _ => false
                                   end) cells = true)
      by (apply existsb_exists; exists (CNum q); now split).
    congruence.
  - intro H. apply not_true_is_false. intro Ht.
    apply existsb_exists in Ht as ([q| |] & Hin & Hq); try discriminate.
    apply Qltb_lt in Hq. specialize (H q Hin). lra.
Qed.

Lemma any_gt_false (cells : list cell) (bound : Q) :
  any_gt cells bound = false <-> forall q, In (CNum q) cells -> q <= bound.
Proof.
  unfold any_gt. split.
  - intros H q Hq. apply Qltb_ge.
    destruct (Qltb bound q) eqn:E; [|reflexivity].
    assert (Ht : existsb (fun c => match c with
                                   | CNum q => Qltb bound q
                                   | _ => false
                                   end) cells = true)
      by (apply existsb_exists; exists (CNum q); now split).
    congruence.
  - intro H. apply not_true_is_false. intro Ht.
    apply existsb_exists in Ht as ([q| |] & Hin & Hq); try discriminate.
    apply Qltb_lt in Hq. specialize (H q Hin). lra.
Qed.

(** X6: the data validator accepts a table exactly when every number in
    a column of number dtype lies between 0 and 24, bounds included; missing
    values and columns that hold a string are not examined. *)
Theorem validate_workload_data_accepts (str_number : Q -> string)
  (df : DataFrame) :
  validate_workload_data str_number df = (true, None) <->
  forall col q,
    In col (select_number_columns df) -> In (CNum q) (df_col df col) ->
    0 <= q /\ q <= 24.
Proof.
  unfold validate_workload_data.
  destruct (find (fun col => any_lt (df_col df col) 0) _) as [col|] eqn:E1.
  { split; [discriminate|]. intro H.
    apply find_some in E1 as (Hin & Hlt).
    assert (Hf : any_lt (df_col df col) 0 = false)
      by (apply any_lt_false; intros q Hq; now apply (H col q)).
    congruence. }
  destruct (find (fun col => any_gt (df_col df col) 24) _) as [col|] eqn:E2.
  { split; [discriminate|]. intro H.
    apply find_some in E2 as (Hin & Hgt).
    assert (Hf : any_gt (df_col df col) 24 = false)
      by (apply any_gt_false; intros q Hq; now apply (H col q)).
    congruence. }
  split; [|reflexivity]. intros _ col q Hcol Hq.
  rewrite find_none_iff in E1, E2.
  specialize (E1 col Hcol). specialize (E2 col Hcol). cbv beta in E1, E2.
  rewrite any_lt_false in E1. rewrite any_gt_false in E2.
  split; [now apply E1 | now apply E2].
Qed.

(** ** Validated data and the calculation *)

Lemma calculate_workload_info (strptime : string -> result date)
  (sort_rows : list ResultRow -> list ResultRow) (self : Processor)
  (df : DataFrame) (base : option string) (pm : option (list string))
  (now : date) (out : list ResultRow) (info : DateInfo) :
  calculate_workload strptime sort_rows self df base pm now = ok (out, info) ->
  exists today window results,
    today_of strptime base now = ok today /\
    week_ranges today = ok window /\
    member_records strptime self df pm window = ok results /\
    results <> [] /\
    out = sort_rows results /\
    base_date info = today /\
    (current_week_start info, current_week_end info) = window ThisWeek /\
    (next_week_start info, next_week_end info) = window NextWeek /\
    (next_next_week_start info, next_next_week_end info) = window WeekAfterNext /\
    forall w, days_in w info
              = length (selected_cols strptime (columns df) (window w)).
Proof.
  rewrite calculate_workload_eq. unfold ok.
  destruct (today_of strptime base now) as [e|today] eqn:Et; [discriminate|].
  cbn [bind].
  destruct (week_ranges today) as [e|window] eqn:Ew; [discriminate|]. cbn [bind].
  destruct (member_records strptime self df pm window) as [e|results] eqn:Er;
    [discriminate|]. cbn [bind].
  destruct results as [|r rs]; unfold sort_values, raise, ok; cbn [bind];
    [discriminate|].
  intro H. injection H as <- <-.
  exists today, window, (r :: rs).
  repeat split; trivial; try discriminate;
    try (cbn; now destruct (window _)).
  intro w. destruct w; reflexivity.
Qed.


Lemma series_sum_ok (cells : list cell) (q : Q) :
  series_sum cells = ok q ->
  Forall numeric cells /\ q == fold_right Qplus 0 (map cell_hours cells).
Proof.
  revert q. induction cells as [|c cs IH]; cbn [series_sum]; intros q H.
  - injection H as <-. split; [constructor | reflexivity].
  - destruct (series_sum cs) as [e|q']; cbn [bind] in H; [discriminate|].
    destruct (IH q' eq_refl) as (Hn & Hq).
    destruct c; try discriminate; injection H as <-;
      (split; [constructor; [exact I | exact Hn] |]);
      cbn [map fold_right cell_hours]; rewrite Hq; ring.
Qed.

(** What a successful sum over a selection tells about the row. *)
Lemma project_hours_ok (cols : list string) (row : list cell)
  (names : list string) (p : Q) :
  project_hours cols row names = ok p ->
  exists cells,
    Forall2 (fun n c => row_get cols row n = ok c) names cells /\
    Forall numeric cells /\
    p == fold_right Qplus 0 (map cell_hours cells).
Proof.
  rewrite project_hours_row_sum. unfold row_sum. intro H.
  destruct (mapM (row_get cols row) names) as [e|cells] eqn:E;
    cbn [bind] in H; [discriminate|].
  exists cells. split; [now apply mapM_Forall2|]. now apply series_sum_ok.
Qed.

Lemma calculate_row_project_hours (self : Processor)
  (cols pm : list string) (sel : week -> list string)
  (row : list cell) (r : ResultRow) (w : week) :
  calculate_row self cols (sel ThisWeek) (sel NextWeek) (sel WeekAfterNext)
    pm row = ok r ->
  project_hours cols row (sel w) = ok (project_hours_in w r).
Proof.
  intro H.
  apply calculate_row_inv in H as (m & p0 & p1 & p2 & _ & H0 & H1 & H2 & ->).
  destruct w; assumption.
Qed.

Lemma selected_cols_In (strptime : string -> result date)
  (cols : list string) (window : date * date) (n : string) :
  In n (selected_cols strptime cols window) -> In n cols.
Proof.
  unfold selected_cols. intro H. apply week_cols_In in H.
  destruct cols; [contradiction | now right].
Qed.

Lemma sum_bounds (values : list Q) (lo hi : Q) :
  Forall (fun v => lo <= v /\ v <= hi) values ->
  inject_Z (Z.of_nat (length values)) * lo <= fold_right Qplus 0 values /\
  fold_right Qplus 0 values <= inject_Z (Z.of_nat (length values)) * hi.
Proof.
  induction 1 as [|v vs (Hlo & Hhi) _ (IH1 & IH2)].
  - cbn [fold_right length]. change (inject_Z (Z.of_nat 0)) with 0. split; lra.
  - cbn [fold_right length]. rewrite Nat2Z.inj_succ, <- Z.add_1_r.
    rewrite inject_Z_plus. change (inject_Z 1) with 1. split; lra.
Qed.

Lemma Forall2_In_l {A B : Type} (R : A -> B -> Prop) (l : list A)
  (l' : list B) (a : A) :
  Forall2 R l l' -> In a l -> exists b, In b l' /\ R a b.
Proof.
  induction 1 as [|x y l l' Hxy _ IH]; intros []; subst.
  - exists y. split; [now left | exact Hxy].
  - destruct (IH H) as (b & Hb & Hab). exists b. split; [now right | exact Hab].
Qed.

Lemma Forall2_In_r {A B : Type} (R : A -> B -> Prop) (l : list A)
  (l' : list B) (b : B) :
  Forall2 R l l' -> In b l' -> exists a, In a l /\ R a b.
Proof.
  induction 1 as [|x y l l' Hxy _ IH]; intros []; subst.
  - exists x. split; [now left | exact Hxy].
  - destruct (IH H) as (a & Ha & Hab). exists a. split; [now right | exact Hab].
Qed.

Lemma df_col_In (df : DataFrame) (row : list cell) (n : string) (c : cell) :
  In row (rows df) -> row_get (columns df) row n = ok c -> In c (df_col df n).
Proof.
  intros Hrow Hget. unfold df_col. apply in_map_iff.
  exists row. split; [now rewrite Hget | exact Hrow].
Qed.

Lemma is_number_dtype_true (cells : list cell) :
  cells <> [] -> Forall numeric cells -> is_number_dtype cells = true.
Proof.
  intros Hne Hall. unfold is_number_dtype.
  apply andb_true_intro. split; [now apply nonempty_true|].
  apply forallb_forall. intros c Hc.
  rewrite Forall_forall in Hall. specialize (Hall c Hc).
  destruct c; try reflexivity. contradiction.
Qed.

(** X7: when the data validator accepts a table and the run on it returns,
    then in every record and every week the project hours are at least 0 and
    at most 24 hours for each date column of that week (the day count the
    run reports). *)
Theorem validated_project_hours_bounds (str_number : Q -> string)
  (strptime : string -> result date)
  (sort_rows : list ResultRow -> list ResultRow) (self : Processor)
  (df : DataFrame) (base : option string) (pm : option (list string))
  (now : date) (out : list ResultRow) (info : DateInfo) :
  validate_workload_data str_number df = (true, None) ->
  descending_sort sort_rows ->
  calculate_workload strptime sort_rows self df base pm now = ok (out, info) ->
  forall r w, In r out ->
    0 <= project_hours_in w r /\
    project_hours_in w r <= 24 * inject_Z (Z.of_nat (days_in w info)).
Proof.
  intros Hval Hsort H r w Hr.
  apply calculate_workload_info in H
    as (today & window & results & _ & _ & Hrec & _ & -> & _ & _ & _ & _ & Hdays).
  rewrite Hdays.
  destruct (Hsort results) as (Hp & _).
  apply (Permutation_in _ (Permutation_sym Hp)) in Hr.
  apply member_records_rows in Hrec.
  set (sel := fun w => selected_cols strptime (columns df) (window w)) in *.
  set (pm' := match pm with None => [] | Some l => l end) in *.
  change (selected_cols strptime (columns df) (window w)) with (sel w).
  (* every row has a number or a missing value under every selected header *)
  assert (Hrows : forall row n, In row (rows df) -> In n (sel w) ->
            exists c, row_get (columns df) row n = ok c /\ numeric c).
  { intros row n Hrow Hn.
    destruct (Forall2_In_l _ _ _ row Hrec Hrow) as (r' & _ & Hr').
    pose proof (calculate_row_project_hours self (columns df) pm' sel row r' w Hr')
      as Hp'.
    apply project_hours_ok in Hp' as (cells & Hcells & Hnum & _).
    destruct (Forall2_In_l _ _ _ n Hcells Hn) as (c & Hc & Hget).
    exists c. split; [exact Hget|].
    rewrite Forall_forall in Hnum. now apply Hnum. }
  destruct (Forall2_In_r _ _ _ r Hrec Hr) as (row & Hrow & Hcalc).
  pose proof (calculate_row_project_hours self (columns df) pm' sel row r w Hcalc)
    as Hp0.
  apply project_hours_ok in Hp0 as (cells & Hcells & _ & Hsum).
  rewrite validate_workload_data_accepts in Hval.
  assert (Hb : Forall (fun v => 0 <= v /\ v <= 24) (map cell_hours cells)).
  { apply Forall_map, Forall_forall. intros c Hc.
    destruct (Forall2_In_r _ _ _ c Hcells Hc) as (n & Hn & Hget).
    destruct c as [q| |]; cbn [cell_hours]; try (split; lra).
    apply (Hval n q).
    - apply filter_In. split; [eapply selected_cols_In; exact Hn|].
      apply is_number_dtype_true.
      + intro E. apply (df_col_In df row n (CNum q) Hrow) in Hget.
        rewrite E in Hget. contradiction.
      + unfold df_col. apply Forall_map, Forall_forall. intros row' Hrow'.
        destruct (Hrows row' n Hrow' Hn) as (c' & -> & Hc'). exact Hc'.
    - now apply (df_col_In df row n). }
  apply sum_bounds in Hb as (H1 & H2).
  rewrite length_map in H1, H2.
  rewrite (Forall2_length Hcells). rewrite Hsum. split; lra.
Qed.

(** The example table: hours of 0, 8 and 20 in its number columns. *)
Lemma validated_project_hours_bounds_witness :
  exists out info,
    calculate_workload strptime_ymd sort_stable (init example_config)
      example_table (Some "2025-11-17") None last_day = ok (out, info) /\
    current_week_days info = 5%nat /\
    forall r w, In r out ->
      0 <= project_hours_in w r /\
      project_hours_in w r <= 24 * inject_Z (Z.of_nat (days_in w info)).
Proof.
  destruct (calculate_workload strptime_ymd sort_stable (init example_config)
      example_table (Some "2025-11-17") None last_day) as [e|[out info]] eqn:E;
    [vm_compute in E; discriminate|].
  exists out, info. split; [reflexivity|]. split.
  - vm_compute in E. injection E as _ <-. reflexivity.
  - apply (validated_project_hours_bounds (fun _ => "") strptime_ymd sort_stable
             (init example_config) example_table (Some "2025-11-17") None
             last_day out info eq_refl sort_stable_descending E).
Defined.

(** ** Member names *)

Lemma cell_eqb_sym (a b : cell) : cell_eqb a b = cell_eqb b a.
Proof.
  destruct a, b; cbn; try reflexivity.
  - apply Qeq_bool_comm.
  - apply String.eqb_sym.
Qed.

Lemma cell_eqb_trans (a b c : cell) :
  cell_eqb a c = true -> cell_eqb b c = true -> cell_eqb a b = true.
Proof.
  destruct a, b, c; cbn; try discriminate; try reflexivity.
  - intros H1 H2. qcases. apply Qeq_bool_iff. now rewrite H1, H2.
  - intros H1 H2. apply String.eqb_eq in H1, H2. subst. apply String.eqb_refl.
Qed.

Lemma duplicated_nil (seen cells : list cell) :
  duplicated seen cells = [] <->
  Forall (fun c => forall s, In s seen -> cell_eqb s c = false) cells /\
  ForallOrdPairs (fun a b => cell_eqb a b = false) cells.
Proof.
  revert seen. induction cells as [|c cs IH]; intro seen; cbn [duplicated].
  - split; [intros _; split; constructor | reflexivity].
  - destruct (existsb (cell_eqb c) seen) eqn:E.
    + split; [discriminate|]. intros (Hall & _).
      inversion Hall as [|? ? Hc _]; subst.
      apply existsb_exists in E as (s & Hs & Heq).
      rewrite cell_eqb_sym, (Hc s Hs) in Heq. discriminate.
    + rewrite IH. split.
      * intros (Hall & Hpairs).
        assert (Hc : forall s, In s seen -> cell_eqb s c = false).
        { intros s Hs. apply not_true_is_false. intro Heq.
          assert (Ht : existsb (cell_eqb c) seen = true)
            by (apply existsb_exists; exists s; split; trivial;
                now rewrite cell_eqb_sym).
          congruence. }
        split.
        -- constructor; [exact Hc|].
           eapply Forall_impl; [|exact Hall].
           intros x Hx s Hs. apply Hx. now right.
        -- constructor; [|exact Hpairs].
           eapply Forall_impl; [|exact Hall].
           intros x Hx. apply Hx. now left.
      * intros (Hall & Hpairs).
        inversion Hall as [|? ? Hc Hall']; subst.
        inversion Hpairs as [|? ? Hfirst Hpairs']; subst.
        split; [|exact Hpairs'].
        rewrite Forall_forall in *. intros x Hx s [<-|Hs].
        -- now apply Hfirst.
        -- now apply Hall'.
Qed.

(** X8: the member validator raises [IndexError] exactly on a table
    without columns; otherwise it accepts the table exactly when no cell of
    the first column is missing, no two cells of the first column are equal,
    and the table has between 1 and 1000 rows. *)
Theorem validate_members_accepts (str_number : Q -> string) (df : DataFrame) :
  (validate_members str_number df = inl IndexError <-> columns df = []) /\
  (validate_members str_number df = inr (true, None) <->
   exists member_col rest,
     columns df = member_col :: rest /\
     Forall (fun c => isna c = false) (df_col df member_col) /\
     ForallOrdPairs (fun a b => cell_eqb a b = false) (df_col df member_col) /\
     (1 <= length (rows df) <= 1000)%nat).
Proof.
  unfold validate_members.
  destruct (columns df) as [|c0 rest] eqn:Ec.
  { split; [tauto|]. split; [discriminate | intros (? & ? & ? & _); discriminate]. }
  split; [split; [|discriminate] |].
  { destruct (existsb _ _); [discriminate|].
    destruct (nonempty _); [discriminate|].
    destruct (_ =? _)%nat; [discriminate|].
    destruct (_ <? _)%nat; discriminate. }
  destruct (existsb isna (df_col df c0)) eqn:Ena.
  { split; [discriminate|]. intros (m & r & E & Hna & _).
    injection E as <- <-.
    apply existsb_exists in Ena as (c & Hc & Hisna).
    rewrite Forall_forall in Hna. rewrite (Hna c Hc) in Hisna. discriminate. }
  assert (Hna : Forall (fun c => isna c = false) (df_col df c0)).
  { apply Forall_forall. intros c Hc. apply not_true_is_false. intro Ht.
    assert (existsb isna (df_col df c0) = true)
      by (apply existsb_exists; now exists c).
    congruence. }
  destruct (nonempty (duplicated [] (df_col df c0))) eqn:Edup.
  { split; [discriminate|]. intros (m & r & E & _ & Hpairs & _).
    injection E as <- <-.
    apply nonempty_true in Edup. exfalso. apply Edup.
    apply duplicated_nil. split; [|exact Hpairs].
    apply Forall_forall. intros c _ s []. }
  apply nonempty_false, duplicated_nil in Edup as (_ & Hpairs).
  destruct (length (rows df) =? 0)%nat eqn:E0.
  { apply Nat.eqb_eq in E0.
    split; [discriminate|]. intros (_ & _ & _ & _ & _ & H). lia. }
  apply Nat.eqb_neq in E0.
  destruct (1000 <? length (rows df))%nat eqn:E1.
  { apply Nat.ltb_lt in E1.
    split; [discriminate|]. intros (_ & _ & _ & _ & _ & H). lia. }
  apply Nat.ltb_ge in E1.
  split; [|reflexivity]. intros _. exists c0, rest.
  repeat split; trivial; lia.
Qed.

Lemma calculate_row_member (self : Processor) (cols cw nw nnw pm : list string)
  (row : list cell) (r : ResultRow) :
  calculate_row self cols cw nw nnw pm row = ok r ->
  row_get cols row member_col = ok (member r).
Proof.
  intro H.
  apply calculate_row_inv in H as (m & p0 & p1 & p2 & Hm & _ & _ & _ & ->).
  exact Hm.
Qed.

(** The member cells of the records are the cells of the member column. *)
Lemma member_records_members (strptime : string -> result date)
  (self : Processor) (df : DataFrame) (pm : option (list string))
  (window : week -> date * date) (results : list ResultRow) :
  member_records strptime self df pm window = ok results ->
  map member results = df_col df member_col.
Proof.
  intro H. apply member_records_rows in H. unfold df_col.
  induction H as [|row r rows' rs Hrow _ IH]; [reflexivity|].
  cbn [map]. apply calculate_row_member in Hrow. rewrite Hrow, IH. reflexivity.
Qed.

(** X9: a run that returns gives one record for each row of the input
    table, and the member cells of the output are the cells of the member
    column of the input, each as often as it occurs there, in the order the
    sort leaves them in. *)
Theorem output_members (strptime : string -> result date)
  (sort_rows : list ResultRow -> list ResultRow) (self : Processor)
  (df : DataFrame) (base : option string) (pm : option (list string))
  (now : date) (out : list ResultRow) (info : DateInfo) :
  descending_sort sort_rows ->
  calculate_workload strptime sort_rows self df base pm now = ok (out, info) ->
  length out = length (rows df) /\
  Permutation (df_col df member_col) (map member out).
Proof.
  intros Hsort H.
  apply calculate_workload_inv in H
    as (today & window & results & _ & _ & Hr & _ & ->).
  destruct (Hsort results) as (Hp & _).
  split.
  - rewrite <- (Permutation_length Hp).
    apply member_records_rows in Hr. symmetry. eapply Forall2_length; eauto.
  - rewrite <- (member_records_members _ _ _ _ _ _ Hr).
    now apply Permutation_map.
Qed.

(** The example table: members B, A, C come out as C, B, A. *)
Lemma output_members_witness :
  exists out info,
    calculate_workload strptime_ymd sort_stable (init example_config)
      example_table (Some "2025-11-17") None last_day = ok (out, info) /\
    length out = 3%nat /\
    Permutation [CStr "B"; CStr "A"; CStr "C"] (map member out).
Proof.
  destruct (calculate_workload strptime_ymd sort_stable (init example_config)
      example_table (Some "2025-11-17") None last_day) as [e|[out info]] eqn:E;
    [vm_compute in E; discriminate|].
  exists out, info. split; [reflexivity|].
  exact (output_members _ _ _ _ _ _ _ out info sort_stable_descending E).
Defined.

Lemma distinct_filter_length (cells : list cell) (c : cell) :
  ForallOrdPairs (fun a b => cell_eqb a b = false) cells ->
  (length (filter (fun x => cell_eqb x c) cells) <= 1)%nat.
Proof.
  induction 1 as [|x l Hx _ IH]; cbn [filter length]; [lia|].
  destruct (cell_eqb x c) eqn:E; [|exact IH].
  assert (Hnone : filter (fun y => cell_eqb y c) l = []).
  { apply filter_nil_iff. intros y Hy. apply not_true_is_false. intro Hyc.
    rewrite Forall_forall in Hx. specialize (Hx y Hy).
    rewrite (cell_eqb_trans x y c E Hyc) in Hx. discriminate. }
  rewrite Hnone. cbn. lia.
Qed.

(** X10: when the member validator accepts a table whose first header is
    the member header and the run on it returns, no two records of the
    output carry the same member: for every name at most one record has
    it. *)
Theorem validated_members_distinct (str_number : Q -> string)
  (strptime : string -> result date)
  (sort_rows : list ResultRow -> list ResultRow) (self : Processor)
  (df : DataFrame) (base : option string) (pm : option (list string))
  (now : date) (out : list ResultRow) (info : DateInfo) :
  validate_members str_number df = inr (true, None) ->
  hd_error (columns df) = Some member_col ->
  descending_sort sort_rows ->
  calculate_workload strptime sort_rows self df base pm now = ok (out, info) ->
  forall c, (length (filter (fun r => cell_eqb (member r) c) out) <= 1)%nat.
Proof.
  intros Hval Hhd Hsort H c.
  apply (proj2 (validate_members_accepts str_number df)) in Hval
    as (m & rest & Ec & _ & Hpairs & _).
  rewrite Ec in Hhd. injection Hhd as ->.
  apply calculate_workload_inv in H
    as (today & window & results & _ & _ & Hr & _ & ->).
  destruct (Hsort results) as (Hp & _).
  rewrite <- (filter_length_permutation _ _ _ Hp).
  apply member_records_members in Hr. rewrite <- Hr in Hpairs.
  pose proof (distinct_filter_length _ c Hpairs) as Hlen.
  clear - Hlen. induction results as [|r rs IH]; [cbn; lia|].
  cbn [map filter] in *. destruct (cell_eqb (member r) c); cbn [length] in *.
  - assert (length (filter (fun x => cell_eqb x c) (map member rs)) = 0)%nat by lia.
    destruct (filter (fun x => cell_eqb x c) (map member rs)) eqn:E;
      [|discriminate].
    assert (Hrs : filter (fun r0 => cell_eqb (member r0) c) rs = []).
    { apply filter_nil_iff. intros r0 Hr0.
      rewrite filter_nil_iff in E. apply E. now apply in_map. }
    rewrite Hrs. cbn. lia.
  - now apply IH.
Qed.

(** The example table has three different members. *)
Lemma validated_members_distinct_witness :
  exists out info,
    calculate_workload strptime_ymd sort_stable (init example_config)
      example_table (Some "2025-11-17") None last_day = ok (out, info) /\
    forall c, (length (filter (fun r => cell_eqb (member r) c) out) <= 1)%nat.
Proof.
  destruct (calculate_workload strptime_ymd sort_stable (init example_config)
      example_table (Some "2025-11-17") None last_day) as [e|[out info]] eqn:E;
    [vm_compute in E; discriminate|].
  exists out, info. split; [reflexivity|].
  exact (validated_members_distinct (fun _ => "") _ _ _ example_table _ _ _
           out info eq_refl eq_refl sort_stable_descending E).
Defined.

(** ** A validated configuration *)



(** ** The data quality report *)

Lemma df_col_length (df : DataFrame) (col : string) :
  length (df_col df col) = length (rows df).
Proof.
  unfold df_col. apply length_map.
Qed.

Lemma filter_split_length {A : Type} (f : A -> bool) (l : list A) :
  (length (filter f l) + length (filter (fun a => negb (f a)) l)
   = length l)%nat.
Proof.
  induction l as [|a l IH]; [reflexivity|].
  cbn [filter]. destruct (f a); cbn [negb length]; lia.
Qed.

Lemma filter_length_le {A : Type} (f g : A -> bool) (l : list A) :
  (forall a, f a = true -> g a = true) ->
  (length (filter f l) <= length (filter g l))%nat.
Proof.
  intro H. induction l as [|a l IH]; [reflexivity|].
  cbn [filter]. destruct (f a) eqn:E.
  - rewrite (H a E). cbn [length]. lia.
  - destruct (g a); cbn [length]; lia.
Qed.

Lemma count_cells_split (test : cell -> bool) (df : DataFrame)
  (cols : list string) :
  (count_cells test df cols + count_cells (fun c => negb (test c)) df cols
   = length (rows df) * length cols)%nat.
Proof.
  unfold count_cells. induction cols as [|col cols IH]; cbn [map length].
  - now rewrite Nat.mul_0_r.
  - pose proof (filter_split_length test (df_col df col)) as H.
    rewrite df_col_length in H. rewrite Nat.mul_succ_r.
    unfold list_sum in *. cbn [fold_right]. lia.
Qed.

Lemma count_cells_le (f g : cell -> bool) (df : DataFrame) (cols : list string) :
  (forall c, f c = true -> g c = true) ->
  (count_cells f df cols <= count_cells g df cols)%nat.
Proof.
  intro H. unfold count_cells.
  induction cols as [|col cols IH]; cbn [map]; [reflexivity|].
  pose proof (filter_length_le f g (df_col df col) H).
  unfold list_sum in *. cbn [fold_right]. lia.
Qed.

(** X12: in every data quality report the zero cells and the cells above
    16 hours are different cells of the number columns, so the two counts
    together never exceed rows * number columns; the completeness is a
    percentage between 0 and 100, and it is the share of the cells of the
    number columns that are not zero (a missing value counts as not zero). *)
Theorem data_quality_report_consistent (df : DataFrame) :
  let report := get_data_quality_report df in
  let cells := (total_rows report * length (select_number_columns df))%nat in
  (zero_hours_count report + high_hours_count report <= cells)%nat /\
  0 <= data_completeness report /\ data_completeness report <= 100 /\
  data_completeness report * inject_Z (Z.of_nat cells)
  == 100 * inject_Z (Z.of_nat (cells - zero_hours_count report)).
Proof.
  intros report cells.
  set (cols := select_number_columns df).
  pose proof (count_cells_split is_zero df cols) as Hsplit.
  assert (Hhigh : (count_cells is_over_16 df cols
                   <= count_cells (fun c => negb (is_zero c)) df cols)%nat).
  { apply count_cells_le. intros [q| |]; cbn; try discriminate.
    intro H. qcases. apply negb_true_iff, Qeq_bool_false. lra. }
  subst report cells. unfold get_data_quality_report.
  cbn [total_rows zero_hours_count high_hours_count data_completeness].
  fold cols.
  destruct cols as [|c0 cs] eqn:Ec; cbn [nonempty].
  { cbn [length]. rewrite Nat.mul_0_r. cbn. repeat split; try lra; lia. }
  rewrite <- Ec in *. clear Ec.
  set (n := (length (rows df) * length cols)%nat) in *.
  set (z := count_cells is_zero df cols) in *.
  set (nz := count_cells (fun c => negb (is_zero c)) df cols) in *.
  split; [lia|].
  destruct (0 <? n)%nat eqn:En.
  - apply Nat.ltb_lt in En.
    assert (Hn : 0 < inject_Z (Z.of_nat n)).
    { change 0 with (inject_Z 0). rewrite <- Zlt_Qlt. lia. }
    assert (Hnz : 0 <= inject_Z (Z.of_nat nz)).
    { change 0 with (inject_Z 0). rewrite <- Zle_Qle. lia. }
    assert (Hle : inject_Z (Z.of_nat nz) <= inject_Z (Z.of_nat n)).
    { rewrite <- Zle_Qle. lia. }
    assert (Hnz' : (n - z = nz)%nat) by lia. rewrite Hnz'.
    assert (Hq : 0 <= inject_Z (Z.of_nat nz) / inject_Z (Z.of_nat n) /\
                 inject_Z (Z.of_nat nz) / inject_Z (Z.of_nat n) <= 1).
    { split; [apply Qle_shift_div_l | apply Qle_shift_div_r]; trivial; lra. }
    repeat split; try lra.
    field. lra.
  - apply Nat.ltb_ge in En. assert (n = 0)%nat by lia.
    replace (n - z)%nat with 0%nat by lia.
    replace n with 0%nat. cbn. repeat split; lra.
Qed.

(** ** Week windows for any offset *)

Lemma date_add_overflow (d : date) (n : Z) :
  (toordinal d + n <= 0 \/ MAXORDINAL < toordinal d + n)%Z ->
  date_add d n = raise OverflowError.
Proof.
  intro H. unfold date_add.
  destruct (0 <? toordinal d + n)%Z eqn:E1; [|reflexivity].
  destruct (toordinal d + n <=? MAXORDINAL)%Z eqn:E2; [|reflexivity].
  apply Z.ltb_lt in E1. apply Z.leb_le in E2. lia.
Qed.

(** X13: for every base date and every integer offset, [get_week_range]
    returns the window (Monday, Monday + 6) of the week [offset] weeks away
    exactly when the offset fits a [timedelta] (at most 999999999 days) and
    both ends are dates between 0001-01-01 and 9999-12-31; in every other
    case it raises [OverflowError].  The start is a Monday and the end a
    Sunday. *)
Theorem get_week_range_any_offset (base : date) (weeks_offset : Z) :
  valid_date base ->
  let monday := (monday_of base + 7 * weeks_offset)%Z in
  get_week_range base weeks_offset
  = (if ((Z.abs (7 * weeks_offset) <=? 999999999) && (1 <=? monday)
         && (monday + 6 <=? MAXORDINAL))%Z%bool
     then ok ({| toordinal := monday |}, {| toordinal := monday + 6 |})
     else raise OverflowError) /\
  weekday {| toordinal := monday |} = 0%Z /\
  weekday {| toordinal := monday + 6 |} = 6%Z.
Proof.
  intros Hv monday.
  pose proof (weekday_range base) as Hwd.
  pose proof (monday_in_range base Hv) as Hmon.
  pose proof (monday_weekday base weeks_offset) as Hmod.
  fold (monday_of base) in Hmon, Hmod. fold monday in Hmod.
  split; [|split].
  - unfold get_week_range, date_sub.
    rewrite (timedelta_small (weekday base)) by lia. cbn [bind ok].
    rewrite date_add_in_range by (unfold monday_of in Hmon; lia). cbn [bind ok].
    unfold timedelta at 1.
    destruct (Z.abs (7 * weeks_offset) <=? 999999999)%Z eqn:Et;
      cbn [andb bind ok raise]; [|reflexivity].
    destruct (1 <=? monday)%Z eqn:E1; cbn [andb].
    + apply Z.leb_le in E1.
      destruct (monday + 6 <=? MAXORDINAL)%Z eqn:E2.
      * apply Z.leb_le in E2.
        rewrite date_add_in_range
          by (cbn [toordinal]; unfold monday, monday_of in *; lia).
        cbn [bind ok toordinal].
        rewrite (timedelta_small 6) by lia. cbn [bind ok].
        rewrite date_add_in_range
          by (cbn [toordinal]; unfold monday, monday_of in *; lia).
        cbn [bind ok toordinal]. unfold monday, monday_of.
        do 3 f_equal; f_equal; lia.
      * apply Z.leb_gt in E2.
        destruct (Z_le_gt_dec monday MAXORDINAL) as [Hin|Hout].
        -- rewrite date_add_in_range
             by (cbn [toordinal]; unfold monday, monday_of in *; lia).
           cbn [bind ok toordinal].
           rewrite (timedelta_small 6) by lia. cbn [bind ok].
           rewrite date_add_overflow
             by (cbn [toordinal]; unfold monday, monday_of in *; lia).
           reflexivity.
        -- rewrite date_add_overflow
             by (cbn [toordinal]; unfold monday, monday_of in *; lia).
           reflexivity.
    + apply Z.leb_gt in E1.
      rewrite date_add_overflow
        by (cbn [toordinal]; unfold monday, monday_of in *; lia).
      reflexivity.
  - unfold weekday. cbn [toordinal]. exact Hmod.
  - unfold weekday. cbn [toordinal].
    pose proof (Z.div_mod (monday + 6) 7 ltac:(lia)) as Hd.
    rewrite Hmod in Hd.
    replace (monday + 6 + 6)%Z with (6 + (monday + 6) / 7 * 7)%Z by lia.
    rewrite Z.mod_add by lia. reflexivity.
Qed.

(** The week before 2025-11-19: Monday 2025-11-10 to Sunday 2025-11-16. *)
Lemma get_week_range_any_offset_witness :
  get_week_range {| toordinal := 739574 |} (-1)
  = ok ({| toordinal := 739565 |}, {| toordinal := 739571 |}) /\
  weekday {| toordinal := 739565 |} = 0%Z /\
  weekday {| toordinal := 739571 |} = 6%Z.
Proof.
  apply (get_week_range_any_offset {| toordinal := 739574 |} (-1)).
  unfold valid_date, MAXORDINAL. cbn. lia.
Defined.

(** ** The three windows of a run *)

Lemma week_ranges_closed (today : date) :
  valid_date today ->
  week_ranges today
  = if (monday_of today + 20 <=? MAXORDINAL)%Z
    then ok (windows_from (monday_of today))
    else raise OverflowError.
Proof.
  intro Hv. unfold week_ranges, monday_of.
  destruct (toordinal today - weekday today + 20 <=? MAXORDINAL)%Z eqn:E.
  - apply Z.leb_le in E.
    rewrite !get_week_range_value by (trivial; lia). reflexivity.
  - apply Z.leb_gt in E.
    destruct (Z_le_gt_dec (toordinal today - weekday today + 7 * 0 + 6)
                MAXORDINAL) as [H0|H0].
    2:{ rewrite (get_week_range_overflow today 0) by (trivial; lia).
        reflexivity. }
    rewrite (get_week_range_value today 0) by (trivial; lia). cbn [bind ok].
    destruct (Z_le_gt_dec (toordinal today - weekday today + 7 * 1 + 6)
                MAXORDINAL) as [H1|H1].
    2:{ rewrite (get_week_range_overflow today 1) by (trivial; lia).
        reflexivity. }
    rewrite (get_week_range_value today 1) by (trivial; lia). cbn [bind ok].
    rewrite (get_week_range_overflow today 2) by (trivial; lia).
    reflexivity.
Qed.

Lemma week_ranges_inv (today : date) (window : week -> date * date) :
  valid_date today ->
  week_ranges today = ok window ->
  (monday_of today + 20 <= MAXORDINAL)%Z /\
  window = windows_from (monday_of today).
Proof.
  intros Hv H. rewrite week_ranges_closed in H by assumption.
  destruct (monday_of today + 20 <=? MAXORDINAL)%Z eqn:E; [|discriminate].
  apply Z.leb_le in E. split; [exact E|]. now injection H as <-.
Qed.

(** X14: the three windows of a run tile three weeks: the base date lies
    in the current week, each window runs from a Monday to the Sunday six
    days later, and each of the next two windows starts on the day after the
    previous one ends. *)
Theorem week_ranges_tile (today : date) (window : week -> date * date) :
  valid_date today ->
  week_ranges today = ok window ->
  (toordinal (fst (window ThisWeek)) <= toordinal today
   <= toordinal (snd (window ThisWeek)))%Z /\
  toordinal (fst (window NextWeek))
  = (toordinal (snd (window ThisWeek)) + 1)%Z /\
  toordinal (fst (window WeekAfterNext))
  = (toordinal (snd (window NextWeek)) + 1)%Z /\
  forall w,
    weekday (fst (window w)) = 0%Z /\
    toordinal (snd (window w)) = (toordinal (fst (window w)) + 6)%Z /\
    valid_date (fst (window w)) /\ valid_date (snd (window w)).
Proof.
  intros Hv H.
  apply week_ranges_inv in H as (Hmax & ->); [|assumption].
  pose proof (weekday_range today) as Hwd.
  pose proof (monday_in_range today Hv) as Hmon.
  fold (monday_of today) in Hmon.
  cbn [windows_from fst snd toordinal].
  split; [unfold monday_of in *; lia|]. split; [lia|]. split; [lia|].
  intro w.
  pose proof (monday_weekday today (offset_of w)) as Hmod.
  fold (monday_of today) in Hmod.
  destruct w; cbn [windows_from fst snd toordinal offset_of] in *;
    unfold weekday, valid_date; cbn [toordinal];
    (split; [exact Hmod|]); (split; [reflexivity|]); split; lia.
Qed.

(** The windows of 2025-11-19. *)
Lemma week_ranges_tile_witness :
  exists window,
    week_ranges {| toordinal := 739574 |} = ok window /\
    (toordinal (fst (window ThisWeek)) <= 739574
     <= toordinal (snd (window ThisWeek)))%Z /\
    toordinal (fst (window NextWeek))
    = (toordinal (snd (window ThisWeek)) + 1)%Z.
Proof.
  exists example_window. split; [reflexivity|].
  destruct (week_ranges_tile {| toordinal := 739574 |} example_window)
    as (H1 & H2 & _).
  - unfold valid_date, MAXORDINAL. cbn. lia.
  - reflexivity.
  - split; [exact H1 | exact H2].
Defined.

Lemma monday_of_same_week (today d : date) (k : Z) :
  toordinal d = (monday_of today + k)%Z -> (0 <= k <= 6)%Z ->
  monday_of d = monday_of today.
Proof.
  intros Hd Hk.
  pose proof (monday_weekday today 0) as Hmod.
  fold (monday_of today) in Hmod.
  unfold monday_of at 1. unfold weekday. rewrite Hd.
  set (m := monday_of today) in *.
  pose proof (Z.div_mod (m + 7 * 0 + 6) 7 ltac:(lia)) as Hdiv.
  rewrite Hmod in Hdiv.
  replace (m + k + 6)%Z with (k + (m + 7 * 0 + 6) / 7 * 7)%Z by lia.
  rewrite Z.mod_add by lia. rewrite Z.mod_small by lia. lia.
Qed.

(** X15: the windows depend on the week of the base date only: every
    date of the current window, taken as the base date, gives the same three
    windows. *)
Theorem same_week_same_windows (today d : date)
  (window : week -> date * date) :
  valid_date today ->
  week_ranges today = ok window ->
  (toordinal (fst (window ThisWeek)) <= toordinal d
   <= toordinal (snd (window ThisWeek)))%Z ->
  week_ranges d = ok window.
Proof.
  intros Hv H Hd.
  apply week_ranges_inv in H as (Hmax & ->); [|assumption].
  cbn [windows_from fst snd toordinal] in Hd.
  pose proof (monday_in_range today Hv) as Hmon.
  fold (monday_of today) in Hmon.
  assert (Hvd : valid_date d) by (unfold valid_date; lia).
  assert (Em : monday_of d = monday_of today).
  { apply (monday_of_same_week today d (toordinal d - monday_of today)); lia. }
  rewrite week_ranges_closed by assumption. rewrite Em.
  apply Z.leb_le in Hmax. now rewrite Hmax.
Qed.

(** Friday 2025-11-21 has the windows of Monday 2025-11-17. *)
Lemma same_week_same_windows_witness :
  week_ranges {| toordinal := 739576 |} = ok example_window.
Proof.
  apply (same_week_same_windows {| toordinal := 739572 |}).
  - unfold valid_date, MAXORDINAL. cbn. lia.
  - reflexivity.
  - cbn. lia.
Defined.

(** ** Date columns and weeks *)

Lemma week_cols_in_window (parse : string -> option date)
  (names : list string) (start finish : date) (n : string) :
  In n (week_cols names (map parse names) start finish) ->
  in_window start finish (parse n) = true.
Proof.
  induction names as [|h hs IH]; [intros []|].
  rewrite week_cols_map.
  destruct (in_window start finish (parse h)) eqn:E.
  - intros [<-|H]; [exact E | now apply IH].
  - exact IH.
Qed.

Lemma windows_from_disjoint (m : Z) (w1 w2 : week) (h : option date) :
  w1 <> w2 ->
  in_window (fst (windows_from m w1)) (snd (windows_from m w1)) h = true ->
  in_window (fst (windows_from m w2)) (snd (windows_from m w2)) h = false.
Proof.
  intros Hne H. destruct h as [d|]; [|reflexivity].
  unfold in_window, date_leb in *.
  apply andb_true_iff in H as (H1 & H2). apply Z.leb_le in H1, H2.
  apply andb_false_iff.
  destruct w1, w2; try contradiction;
    cbn [windows_from fst snd toordinal] in *;
    rewrite !Z.leb_gt; lia.
Qed.

Lemma week_cols_lengths (parse : string -> option date) (m : Z)
  (names : list string) :
  (length (week_cols names (map parse names)
             (fst (windows_from m ThisWeek)) (snd (windows_from m ThisWeek)))
   + length (week_cols names (map parse names)
               (fst (windows_from m NextWeek)) (snd (windows_from m NextWeek)))
   + length (week_cols names (map parse names)
               (fst (windows_from m WeekAfterNext))
               (snd (windows_from m WeekAfterNext)))
   <= length names)%nat.
Proof.
  induction names as [|h hs IH]; [cbn; lia|].
  rewrite !week_cols_map.
  pose proof (windows_from_disjoint m ThisWeek NextWeek (parse h)
                ltac:(discriminate)) as D01.
  pose proof (windows_from_disjoint m ThisWeek WeekAfterNext (parse h)
                ltac:(discriminate)) as D02.
  pose proof (windows_from_disjoint m NextWeek WeekAfterNext (parse h)
                ltac:(discriminate)) as D12.
  set (b0 := in_window (fst (windows_from m ThisWeek)) _ (parse h)) in *.
  set (b1 := in_window (fst (windows_from m NextWeek)) _ (parse h)) in *.
  set (b2 := in_window (fst (windows_from m WeekAfterNext)) _ (parse h)) in *.
  destruct b0, b1, b2; cbn [length];
    try (specialize (D01 eq_refl)); try (specialize (D02 eq_refl));
    try (specialize (D12 eq_refl)); try discriminate; lia.
Qed.

(** X16: in a run that returns, no header is counted in two weeks: the
    headers selected for different weeks are different, and the three day
    counts the run reports add up to at most the number of headers after the
    first. *)
Theorem headers_in_one_week (strptime : string -> result date)
  (sort_rows : list ResultRow -> list ResultRow) (self : Processor)
  (df : DataFrame) (base : option string) (pm : option (list string))
  (now : date) (out : list ResultRow) (info : DateInfo) :
  valid_date (base_date info) ->
  calculate_workload strptime sort_rows self df base pm now = ok (out, info) ->
  (forall w1 w2 n,
     w1 <> w2 ->
     In n (selected_cols strptime (columns df) (info_window info w1)) ->
     ~ In n (selected_cols strptime (columns df) (info_window info w2))) /\
  (days_in ThisWeek info + days_in NextWeek info + days_in WeekAfterNext info
   <= length (tl (columns df)))%nat.
Proof.
  intros Hv H.
  apply calculate_workload_info in H
    as (today & window & results & _ & Hw & _ & _ & _ & Eb & E0 & E1 & E2 & Hdays).
  rewrite Eb in Hv.
  apply week_ranges_inv in Hw as (_ & ->); [|assumption].
  assert (Ewin : forall w, info_window info w = windows_from (monday_of today) w)
    by (intros []; assumption).
  split.
  - intros w1 w2 n Hne H1 H2. rewrite Ewin in H1, H2.
    unfold selected_cols in H1, H2.
    apply week_cols_in_window in H1, H2.
    rewrite (windows_from_disjoint _ w1 w2 _ Hne H1) in H2. discriminate.
  - rewrite !Hdays. unfold selected_cols. apply week_cols_lengths.
Qed.

(** The example table: 5 + 1 + 0 days out of 7 headers after the first. *)
Lemma headers_in_one_week_witness :
  exists out info,
    calculate_workload strptime_ymd sort_stable (init example_config)
      example_table (Some "2025-11-17") None last_day = ok (out, info) /\
    (days_in ThisWeek info + days_in NextWeek info + days_in WeekAfterNext info
     <= 7)%nat.
Proof.
  destruct (calculate_workload strptime_ymd sort_stable (init example_config)
      example_table (Some "2025-11-17") None last_day) as [e|[out info]] eqn:E;
    [vm_compute in E; discriminate|].
  exists out, info. split; [reflexivity|].
  refine (proj2 (headers_in_one_week _ _ _ _ _ _ _ out info _ E)).
  vm_compute in E. injection E as _ <-.
  unfold valid_date, MAXORDINAL. cbn. lia.
Defined.

(** ** A string among the hours *)

Lemma series_sum_string (cells : list cell) :
  (exists s, In (CStr s) cells) -> series_sum cells = raise TypeError.
Proof.
  induction cells as [|c cs IH]; intros (s & Hs); [contradiction|].
  cbn [series_sum].
  destruct (series_sum cs) as [e|q] eqn:E; cbn [bind].
  - apply series_sum_error in E. now subst.
  - destruct Hs as [->|Hs]; [reflexivity|].
    specialize (IH (ex_intro _ s Hs)). unfold raise in IH. discriminate IH.
Qed.

Lemma series_sum_error_string (cells : list cell) (e : error) :
  series_sum cells = inl e -> exists s, In (CStr s) cells.
Proof.
  revert e. induction cells as [|c cs IH]; intros e E; [discriminate|].
  cbn [series_sum] in E.
  destruct (series_sum cs) as [e'|q]; cbn [bind] in E.
  - destruct (IH e' eq_refl) as (s & Hs). exists s. now right.
  - destruct c; try discriminate. exists s. now left.
Qed.

Lemma project_hours_ok_or_type_error (cols : list string) (row : list cell)
  (names : list string) :
  (forall n, In n names -> exists c, row_get cols row n = ok c) ->
  (exists p, project_hours cols row names = ok p /\
     forall n s, In n names -> row_get cols row n <> ok (CStr s)) \/
  (project_hours cols row names = raise TypeError /\
   exists n s, In n names /\ row_get cols row n = ok (CStr s)).
Proof.
  intro H. rewrite project_hours_row_sum. unfold row_sum.
  destruct (mapM_total (fun _ => True) (row_get cols row) names)
    as (cells & Hcells & _).
  { intros n Hn. destruct (H n Hn) as (c & Hc). now exists c. }
  rewrite Hcells. cbn [bind ok].
  pose proof (mapM_Forall2 _ _ _ Hcells) as HF.
  destruct (series_sum cells) as [e|p] eqn:E.
  - right. pose proof (series_sum_error _ _ E) as ->. split; [reflexivity|].
    destruct (series_sum_error_string _ _ E) as (s & Hs).
    destruct (Forall2_In_r _ _ _ _ HF Hs) as (n & Hn & Hget).
    now exists n, s.
  - left. exists p. split; [reflexivity|].
    intros n s Hn Hget.
    destruct (Forall2_In_l _ _ _ n HF Hn) as (c & Hc & Hget').
    rewrite Hget in Hget'. injection Hget' as <-.
    rewrite series_sum_string in E by (now exists s).
    unfold raise in E. discriminate.
Qed.

(** X17: a row that has a cell under the member header and under every
    selected date header, one of which holds a string, makes the loop body
    raise [TypeError], whichever of the three weeks the string falls in; the
    error does not name the column. *)
Theorem string_cell_type_error (self : Processor)
  (cols cw nw nnw pm : list string) (row : list cell) :
  (exists m, row_get cols row member_col = ok m) ->
  (forall n, In n (cw ++ nw ++ nnw) -> exists c, row_get cols row n = ok c) ->
  (exists n s, In n (cw ++ nw ++ nnw) /\ row_get cols row n = ok (CStr s)) ->
  calculate_row self cols cw nw nnw pm row = raise TypeError.
Proof.
  intros (m & Hm) Hall (n & s & Hn & Hs).
  rewrite calculate_row_eq, Hm. cbn [bind ok].
  destruct (project_hours_ok_or_type_error cols row cw) as [(p0 & -> & N0)|(-> & _)];
    [intros; apply Hall; apply in_or_app; now left | | reflexivity].
  cbn [bind ok].
  destruct (project_hours_ok_or_type_error cols row nw) as [(p1 & -> & N1)|(-> & _)];
    [intros; apply Hall; apply in_or_app; right; apply in_or_app; now left
    | | reflexivity].
  cbn [bind ok].
  destruct (project_hours_ok_or_type_error cols row nnw) as [(p2 & -> & N2)|(-> & _)];
    [intros; apply Hall; apply in_or_app; right; apply in_or_app; now right
    | | reflexivity].
  exfalso.
  apply in_app_or in Hn as [Hn|Hn]; [exact (N0 n s Hn Hs)|].
  apply in_app_or in Hn as [Hn|Hn]; [exact (N1 n s Hn Hs) | exact (N2 n s Hn Hs)].
Qed.

(** A member with a note in place of the hours of 2025-11-18. *)
Lemma string_cell_type_error_witness :
  calculate_row (init example_config) example_columns
    (selected_cols strptime_ymd example_columns (example_window ThisWeek))
    (selected_cols strptime_ymd example_columns (example_window NextWeek))
    (selected_cols strptime_ymd example_columns (example_window WeekAfterNext))
    [] example_row_text = raise TypeError.
Proof.
  apply string_cell_type_error.
  - eexists. reflexivity.
  - intros n Hn. vm_compute in Hn.
    repeat (destruct Hn as [<-|Hn]; [eexists; reflexivity|]). contradiction.
  - exists "2025-11-18", "休假". split; [vm_compute; tauto | reflexivity].
Defined.

(** ** Idle members and the order of the labels *)




(** X20: for every configuration of the thresholds, the label of a
    positive saturation never goes down when the saturation goes up, in the
    order under-saturated, normal, overloaded; and when normal_max is below
    under_saturated_max no saturation at all is classified as normal. *)
Theorem get_status_monotone (self : Processor) (s1 s2 : Q) :
  (0 < s1 -> s1 <= s2 ->
   (status_rank (get_status self s1) <= status_rank (get_status self s2))%nat) /\
  (normal_max self < under_saturated_max self -> get_status self s1 <> normal).
Proof.
  pose proof labels_distinct as (D1 & D2 & D3 & D4 & D5 & D6).
  split.
  - intros H0 Hle. unfold get_status.
    assert (F1 : Qeq_bool s1 0 = false) by (apply Qeq_bool_false; lra).
    assert (F2 : Qeq_bool s2 0 = false) by (apply Qeq_bool_false; lra).
    rewrite F1, F2.
    destruct (Qltb s1 (under_saturated_max self)) eqn:A1;
    destruct (Qltb s2 (under_saturated_max self)) eqn:A2;
    destruct (Qle_bool s1 (normal_max self)) eqn:B1;
    destruct (Qle_bool s2 (normal_max self)) eqn:B2;
    qcases; try (exfalso; lra); vm_compute; lia.
  - intros Hinv H. unfold get_status in H.
    destruct (Qeq_bool s1 0); [congruence|].
    destruct (Qltb s1 (under_saturated_max self)) eqn:A; [congruence|].
    destruct (Qle_bool s1 (normal_max self)) eqn:B; [|congruence].
    qcases. lra.
Qed.

(** ** Sorting newest first *)

Lemma firstn_In {A : Type} (n : nat) (l : list A) (a : A) :
  In a (firstn n l) -> In a l.
Proof.
  revert n. induction l as [|x l IH]; intros [|n]; cbn [firstn In];
    try tauto.
  intros [H|H]; [now left | right; eauto].
Qed.

Lemma py_prefix_In {A : Type} (l : list A) (limit : Z) (a : A) :
  In a (py_prefix l limit) -> In a l.
Proof.
  unfold py_prefix. destruct (0 <=? limit)%Z; apply firstn_In.
Qed.

Lemma py_prefix_length {A : Type} (l : list A) (limit : Z) :
  (0 <= limit)%Z -> (Z.of_nat (length (py_prefix l limit)) <= limit)%Z.
Proof.
  intro H. unfold py_prefix. apply Z.leb_le in H as Hb. rewrite Hb.
  pose proof (firstn_le_length (Z.to_nat limit) l). rewrite length_firstn. lia.
Qed.

Lemma py_prefix_cons {A : Type} (a : A) (l : list A) (limit : Z) :
  (1 <= limit)%Z -> py_prefix (a :: l) limit = a :: py_prefix l (limit - 1).
Proof.
  intro H. unfold py_prefix.
  assert (H1 : (0 <=? limit)%Z = true) by (apply Z.leb_le; lia).
  assert (H2 : (0 <=? limit - 1)%Z = true) by (apply Z.leb_le; lia).
  rewrite H1, H2.
  replace (Z.to_nat limit) with (S (Z.to_nat (limit - 1))) by lia.
  reflexivity.
Qed.

Lemma firstn_StronglySorted {A : Type} (R : A -> A -> Prop) (n : nat)
  (l : list A) :
  StronglySorted R l -> StronglySorted R (firstn n l).
Proof.
  intro H. revert n. induction H as [|a l Hs IH Hall]; intros [|n];
    cbn [firstn]; try constructor.
  - apply IH.
  - rewrite Forall_forall in *. intros x Hx. apply Hall.
    eapply firstn_In; eauto.
Qed.

Section SortReverseFacts.

Context {A K : Type}.
Variable key : A -> K.
Variable ltb : K -> K -> bool.

Hypothesis ltb_asym : forall x y, ltb x y = true -> ltb y x = false.
Hypothesis geb_trans :
  forall x y z, ltb x y = false -> ltb y z = false -> ltb x z = false.

Lemma insert_desc_perm (a : A) (l : list A) :
  Permutation (a :: l) (insert_desc key ltb a l).
Proof.
  induction l as [|x l IH]; cbn [insert_desc]; [reflexivity|].
  destruct (ltb (key a) (key x)); [|reflexivity].
  rewrite perm_swap. now constructor.
Qed.

Lemma sort_reverse_perm (l : list A) : Permutation l (sort_reverse key ltb l).
Proof.
  unfold sort_reverse. induction l as [|a l IH]; cbn [fold_right]; [constructor|].
  rewrite <- insert_desc_perm. now constructor.
Qed.

Lemma insert_desc_sorted (a : A) (l : list A) :
  StronglySorted (not_before key ltb) l ->
  StronglySorted (not_before key ltb) (insert_desc key ltb a l).
Proof.
  induction 1 as [|x l Hs IH Hall]; cbn [insert_desc].
  - repeat constructor.
  - destruct (ltb (key a) (key x)) eqn:E.
    + constructor; [exact IH|].
      apply (Permutation_Forall (insert_desc_perm a l)).
      constructor; [|exact Hall]. unfold not_before. now apply ltb_asym.
    + constructor; [now constructor|].
      constructor; [exact E|].
      eapply Forall_impl; [|exact Hall].
      intros y Hy. unfold not_before in *. eapply geb_trans; eauto.
Qed.

Lemma sort_reverse_sorted (l : list A) :
  StronglySorted (not_before key ltb) (sort_reverse key ltb l).
Proof.
  unfold sort_reverse. induction l as [|a l IH]; cbn [fold_right].
  - constructor.
  - now apply insert_desc_sorted.
Qed.

End SortReverseFacts.

(** A record that is newer than all others comes first. *)
Lemma sort_reverse_newest {A K : Type} (key : A -> K) (ltb : K -> K -> bool)
  (a : A) (l : list A) :
  (forall x, In x l -> ltb (key x) (key a) = true) ->
  sort_reverse key ltb (l ++ [a]) = a :: sort_reverse key ltb l.
Proof.
  unfold sort_reverse. induction l as [|x l IH]; intro H; [reflexivity|].
  cbn [app fold_right]. rewrite IH by (intros y Hy; apply H; now right).
  cbn [insert_desc]. now rewrite (H x (or_introl eq_refl)).
Qed.

(** The order of strings. *)
Lemma ascii_compare_trans (a b c : ascii) :
  Ascii.compare a b = Lt -> Ascii.compare b c = Lt -> Ascii.compare a c = Lt.
Proof.
  unfold Ascii.compare. rewrite !N.compare_lt_iff. apply N.lt_trans.
Qed.

Lemma string_compare_trans (s1 s2 s3 : string) :
  String.compare s1 s2 = Lt -> String.compare s2 s3 = Lt ->
  String.compare s1 s3 = Lt.
Proof.
  revert s2 s3. induction s1 as [|a s1 IH]; intros [|b s2] [|c s3];
    cbn [String.compare]; try discriminate; try reflexivity.
  destruct (Ascii.compare a b) eqn:Eab; try discriminate;
  destruct (Ascii.compare b c) eqn:Ebc; try discriminate; intros H1 H2.
  - apply Ascii.compare_eq_iff in Eab, Ebc. subst.
    assert (E : Ascii.compare c c = Eq).
    { unfold Ascii.compare. apply N.compare_refl. }
    rewrite E. eapply IH; eauto.
  - apply Ascii.compare_eq_iff in Eab. subst. now rewrite Ebc.
  - apply Ascii.compare_eq_iff in Ebc. subst. now rewrite Eab.
  - now rewrite (ascii_compare_trans a b c Eab Ebc).
Qed.

Lemma string_ltb_lt (s1 s2 : string) :
  String.ltb s1 s2 = true <-> String.compare s1 s2 = Lt.
Proof.
  unfold String.ltb. destruct (String.compare s1 s2); split; congruence.
Qed.

Lemma string_ltb_asym (s1 s2 : string) :
  String.ltb s1 s2 = true -> String.ltb s2 s1 = false.
Proof.
  rewrite string_ltb_lt. intro H. apply not_true_is_false.
  rewrite string_ltb_lt, String.compare_antisym, H. discriminate.
Qed.

Lemma string_geb_trans (s1 s2 s3 : string) :
  String.ltb s1 s2 = false -> String.ltb s2 s3 = false ->
  String.ltb s1 s3 = false.
Proof.
  intros H12 H23. apply not_true_is_false. intro H13.
  apply string_ltb_lt in H13.
  apply not_true_iff_false in H12, H23. rewrite string_ltb_lt in H12, H23.
  destruct (String.compare s2 s3) eqn:E; [| contradiction |].
  - apply String.compare_eq_iff in E. subst. contradiction.
  - apply H12. apply (string_compare_trans s1 s3 s2 H13).
    rewrite String.compare_antisym, E. reflexivity.
Qed.

Lemma insert_desc_front {A K : Type} (key : A -> K) (ltb : K -> K -> bool)
  (a : A) (l : list A) :
  Forall (not_before key ltb a) l -> insert_desc key ltb a l = a :: l.
Proof.
  intros [|x l' Hx _]; cbn [insert_desc]; [reflexivity|].
  unfold not_before in Hx. now rewrite Hx.
Qed.

Lemma filter_insert_desc {A K : Type} (key : A -> K) (ltb : K -> K -> bool)
  (p : A -> bool) (a : A) (l : list A) :
  (forall x y z, ltb x y = false -> ltb y z = false -> ltb x z = false) ->
  StronglySorted (not_before key ltb) l ->
  filter p (insert_desc key ltb a l) =
  if p a then insert_desc key ltb a (filter p l) else filter p l.
Proof.
  intros Htrans. induction 1 as [|x l Hs IH Hall]; cbn [insert_desc filter].
  - now destruct (p a).
  - destruct (ltb (key a) (key x)) eqn:E.
    + cbn [filter]. rewrite IH.
      destruct (p x), (p a); cbn [insert_desc]; try reflexivity.
      now rewrite E.
    + cbn [filter]. destruct (p a); [|reflexivity].
      symmetry. apply insert_desc_front.
      assert (Hax : Forall (not_before key ltb a) (x :: l)).
      { constructor; [exact E|]. eapply Forall_impl; [|exact Hall].
        intros y Hy. unfold not_before in *. eapply Htrans; eauto. }
      rewrite Forall_forall in *. intros y Hy. apply Hax.
      change (In y (filter p (x :: l))) in Hy.
      now apply filter_In in Hy.
Qed.

(** Sorting newest first and leaving records out commute. *)
Lemma filter_sort_reverse {A K : Type} (key : A -> K) (ltb : K -> K -> bool)
  (p : A -> bool) (l : list A) :
  (forall x y, ltb x y = true -> ltb y x = false) ->
  (forall x y z, ltb x y = false -> ltb y z = false -> ltb x z = false) ->
  filter p (sort_reverse key ltb l) = sort_reverse key ltb (filter p l).
Proof.
  intros Hasym Htrans. induction l as [|a l IH]; [reflexivity|].
  change (sort_reverse key ltb (a :: l))
    with (insert_desc key ltb a (sort_reverse key ltb l)).
  rewrite filter_insert_desc;
    [|exact Htrans | now apply sort_reverse_sorted].
  cbn [filter]. destruct (p a); [|exact IH].
  change (sort_reverse key ltb (a :: filter p l))
    with (insert_desc key ltb a (sort_reverse key ltb (filter p l))).
  now rewrite IH.
Qed.

Lemma py_prefix_all {A : Type} (l : list A) (limit : Z) :
  (Z.of_nat (length l) <= limit)%Z -> py_prefix l limit = l.
Proof.
  intro H. unfold py_prefix.
  assert (Hb : (0 <=? limit)%Z = true) by (apply Z.leb_le; lia).
  rewrite Hb. apply firstn_all2. lia.
Qed.

Lemma forallb_filter {A : Type} (p q : A -> bool) (l : list A) :
  forallb p l = true -> forallb p (filter q l) = true.
Proof.
  rewrite !forallb_forall. intros H x Hx. apply H.
  now apply filter_In in Hx.
Qed.

Lemma Qltb_asym (x y : Q) : Qltb x y = true -> Qltb y x = false.
Proof.
  rewrite Qltb_lt, Qltb_ge. apply Qlt_le_weak.
Qed.

Lemma Qgeb_trans (x y z : Q) :
  Qltb x y = false -> Qltb y z = false -> Qltb x z = false.
Proof.
  rewrite !Qltb_ge. intros H1 H2. now apply Qle_trans with y.
Qed.

(** ** The upload history *)

Lemma get_upload_history_empty (limit : Z) :
  get_upload_history (Stored []) limit = [].
Proof.
  cbn [get_upload_history forallb]. unfold py_prefix, sort_reverse.
  cbn [fold_right length]. destruct (0 <=? limit)%Z; apply firstn_nil.
Qed.

Lemma get_upload_history_In (file : history_file) (limit : Z)
  (r : HistoryRecord) :
  In r (get_upload_history file limit) ->
  In r (history_of file) /\ has_timestamp r = true.
Proof.
  destruct file as [| |history]; cbn [get_upload_history history_of];
    try contradiction.
  destruct (forallb has_timestamp history) eqn:E; [|contradiction].
  intro H. apply py_prefix_In in H.
  pose proof (sort_reverse_perm timestamp_key String.ltb history) as Hperm.
  symmetry in Hperm. apply (Permutation_in _ Hperm) in H.
  split; [exact H|]. rewrite forallb_forall in E. now apply E.
Qed.

(** X21: whatever the history file holds and whatever the limit is,
    [get_upload_history] returns records of the file that carry a timestamp,
    newest first (no record is followed by one with a greater timestamp);
    for a limit that is not negative it returns at most [limit] records. *)
Theorem get_upload_history_newest_first (file : history_file) (limit : Z) :
  StronglySorted (not_before timestamp_key String.ltb)
    (get_upload_history file limit) /\
  (forall r, In r (get_upload_history file limit) ->
     In r (history_of file) /\ has_timestamp r = true) /\
  ((0 <= limit)%Z ->
   (Z.of_nat (length (get_upload_history file limit)) <= limit)%Z).
Proof.
  split; [|split].
  - destruct file as [| |history]; cbn [get_upload_history];
      try constructor.
    destruct (forallb has_timestamp history); [|constructor].
    unfold py_prefix.
    destruct (0 <=? limit)%Z; apply firstn_StronglySorted;
      apply sort_reverse_sorted;
      first [exact string_ltb_asym | exact string_geb_trans].
  - apply get_upload_history_In.
  - destruct file as [| |history]; cbn [get_upload_history];
      try (cbn [length]; lia).
    destruct (forallb has_timestamp history); [|cbn [length]; lia].
    apply py_prefix_length.
Qed.

(** X22: a record whose timestamp is greater than every stored one is, after
    [_add_to_history], the first record that [get_upload_history] returns
    (for a limit of at least one), followed by what the history gave before
    for a limit one less. *)
Theorem new_upload_listed_first (record : HistoryRecord) (file : history_file)
  (limit : Z) (t : string) :
  timestamp record = Some t ->
  (forall h, In h (history_of file) ->
     exists t', timestamp h = Some t' /\ String.ltb t' t = true) ->
  (1 <= limit)%Z ->
  get_upload_history (_add_to_history record file) limit =
  record :: get_upload_history file (limit - 1).
Proof.
  intros Ht Hold Hlimit.
  assert (Hgen : forall history,
    (forall h, In h history ->
       exists t', timestamp h = Some t' /\ String.ltb t' t = true) ->
    get_upload_history (Stored (history ++ [record])) limit =
    record :: get_upload_history (Stored history) (limit - 1)).
  { intros history Hh. cbn [get_upload_history].
    assert (Hall : forallb has_timestamp history = true).
    { apply forallb_forall. intros h Hin.
      destruct (Hh h Hin) as (t' & Et & _). unfold has_timestamp.
      now rewrite Et. }
    rewrite forallb_app, Hall. cbn [forallb]. unfold has_timestamp at 1.
    rewrite Ht. cbn [andb].
    rewrite sort_reverse_newest.
    - now apply py_prefix_cons.
    - intros h Hin. destruct (Hh h Hin) as (t' & Et & Hlt).
      unfold timestamp_key. rewrite Et, Ht. exact Hlt. }
  pose proof (get_upload_history_empty (limit - 1)) as Hnil.
  destruct file as [| |history].
  - etransitivity; [apply (Hgen []); contradiction|]. now rewrite Hnil.
  - etransitivity; [apply (Hgen []); contradiction|]. now rewrite Hnil.
  - apply Hgen. exact Hold.
Qed.

Lemma new_upload_listed_first_witness :
  get_upload_history (_add_to_history example_new_upload
                        (Stored example_history)) 2 =
  example_new_upload :: get_upload_history (Stored example_history) (2 - 1).
Proof.
  apply (new_upload_listed_first example_new_upload (Stored example_history) 2
           "2025-01-20T08:15:00").
  - reflexivity.
  - intros h [<-|[<-|[]]]; eexists; split; reflexivity.
  - lia.
Defined.

(** X23: [remove_from_history] reports failure exactly when the history file
    cannot be read, and then leaves it as it is; otherwise no record that
    [get_upload_history] returns afterwards has the removed path, every
    stored record of another path is still stored, and a second removal
    changes nothing. *)
Theorem remove_from_history_effect (path : string) (file : history_file)
  (limit : Z) :
  (fst (remove_from_history path file) = false <-> file = Unreadable) /\
  (file = Unreadable -> snd (remove_from_history path file) = file) /\
  (forall r, In r (get_upload_history (snd (remove_from_history path file))
                     limit) ->
     file_path r <> Some path) /\
  (forall r, In r (history_of file) -> file_path r <> Some path ->
     In r (history_of (snd (remove_from_history path file)))) /\
  remove_from_history path (snd (remove_from_history path file)) =
  remove_from_history path file.
Proof.
  assert (Hother : forall r, other_path path r = true <->
                             file_path r <> Some path).
  { intro r. unfold other_path. destruct (file_path r) as [p|].
    - rewrite negb_true_iff. split; intro H.
      + intros [= ->]. now rewrite String.eqb_refl in H.
      + apply not_true_is_false. intro E. apply String.eqb_eq in E.
        now subst.
    - split; [discriminate | reflexivity]. }
  destruct file as [| |history]; cbn [remove_from_history fst snd history_of];
    repeat split; try discriminate; try contradiction; try reflexivity.
  - intros r Hr.
    destruct (get_upload_history_In
                (Stored (filter (other_path path) history)) limit r Hr)
      as [Hin _].
    cbn [history_of] in Hin. apply filter_In in Hin. now apply Hother.
  - intros r Hr Hp. apply filter_In. split; [exact Hr | now apply Hother].
  - f_equal. f_equal. induction history as [|h history IH]; [reflexivity|].
    cbn [filter]. destruct (other_path path h) eqn:E; [|exact IH].
    cbn [filter]. rewrite E. now f_equal.
Qed.

(** X24: for a history in which every record has a timestamp, removing a
    path and then reading the whole history gives what reading the whole
    history gave before, without the records of that path: the other records
    keep their order. *)
Theorem remove_keeps_order (path : string) (file : history_file) (limit : Z) :
  forallb has_timestamp (history_of file) = true ->
  (Z.of_nat (length (history_of file)) <= limit)%Z ->
  get_upload_history (snd (remove_from_history path file)) limit =
  filter (other_path path) (get_upload_history file limit).
Proof.
  intros Hall Hlimit.
  destruct file as [| |history];
    cbn [remove_from_history snd get_upload_history history_of] in *;
    try reflexivity.
  rewrite Hall, (forallb_filter _ (other_path path) _ Hall).
  rewrite !py_prefix_all.
  - symmetry. apply filter_sort_reverse;
      first [exact string_ltb_asym | exact string_geb_trans].
  - rewrite <- (Permutation_length
                  (sort_reverse_perm timestamp_key String.ltb history)).
    exact Hlimit.
  - rewrite <- (Permutation_length
                  (sort_reverse_perm timestamp_key String.ltb
                     (filter (other_path path) history))).
    pose proof (List.filter_length_le (other_path path) history). lia.
Qed.

Lemma remove_keeps_order_witness :
  get_upload_history
    (snd (remove_from_history
            "data/uploads/20250113_093000_workload.xlsx"
            (Stored example_history))) 10 =
  filter (other_path "data/uploads/20250113_093000_workload.xlsx")
    (get_upload_history (Stored example_history) 10).
Proof.
  apply (remove_keeps_order "data/uploads/20250113_093000_workload.xlsx"
           (Stored example_history) 10).
  - reflexivity.
  - cbn [history_of example_history length]. lia.
Defined.

(** X25: recording an upload and then removing its path leaves the same
    history to read as removing the path alone. *)
Theorem add_then_remove (record : HistoryRecord) (path : string)
  (file : history_file) (limit : Z) :
  file_path record = Some path ->
  get_upload_history
    (snd (remove_from_history path (_add_to_history record file))) limit =
  get_upload_history (snd (remove_from_history path file)) limit.
Proof.
  intro Hp.
  assert (Hdrop : other_path path record = false).
  { unfold other_path. rewrite Hp. now rewrite String.eqb_refl. }
  destruct file as [| |history];
    cbn [_add_to_history remove_from_history snd];
    cbn [app]; rewrite ?filter_app; cbn [filter]; rewrite Hdrop, ?app_nil_r;
    try reflexivity; apply get_upload_history_empty.
Qed.

Lemma add_then_remove_witness :
  get_upload_history
    (snd (remove_from_history
            "data/uploads/20250120_081500_workload.xlsx"
            (_add_to_history example_new_upload (Stored example_history))))
    10 =
  get_upload_history
    (snd (remove_from_history
            "data/uploads/20250120_081500_workload.xlsx"
            (Stored example_history))) 10.
Proof.
  apply (add_then_remove example_new_upload
           "data/uploads/20250120_081500_workload.xlsx"
           (Stored example_history) 10).
  reflexivity.
Defined.

(** ** The processed files *)

Section ProcessedFilesFacts.

Variable join_processed_dir : string -> string.
Variable getmtime : string -> Q.

Lemma processed_files_sorted (listing : list string) :
  exists files,
    (forall limit,
       get_processed_files join_processed_dir getmtime listing limit =
       py_prefix files limit) /\
    StronglySorted (not_before fi_modified_time Qltb) files /\
    (forall f, In f files <->
       exists name, In name listing /\ endswith name ".json" = true /\
         f = {| fi_filename := name;
                fi_path := join_processed_dir name;
                fi_modified_time := getmtime (join_processed_dir name) |}).
Proof.
  unfold get_processed_files.
  set (files := map _ (filter _ listing)).
  exists (sort_reverse fi_modified_time Qltb files). split; [reflexivity|].
  split.
  - apply sort_reverse_sorted; first [exact Qltb_asym | exact Qgeb_trans].
  - intro f.
    pose proof (sort_reverse_perm fi_modified_time Qltb files) as Hperm.
    split.
    + intro Hin. symmetry in Hperm.
      apply (Permutation_in _ Hperm) in Hin. subst files.
      apply in_map_iff in Hin. destruct Hin as (name & <- & Hname).
      apply filter_In in Hname. exists name. tauto.
    + intros (name & Hin & Hjson & ->).
      apply (Permutation_in _ Hperm). subst files.
      apply in_map_iff. exists name. split; [reflexivity|].
      apply filter_In. tauto.
Qed.

(** X26: [get_processed_files] returns only files of the listing whose name
    ends in [.json], each with its joined path and the modification time of
    that path, newest first; for a limit that is not negative it returns at
    most [limit] of them. *)
Theorem get_processed_files_newest_first (listing : list string)
  (limit : Z) :
  StronglySorted
    (fun a b => fi_modified_time b <= fi_modified_time a)
    (get_processed_files join_processed_dir getmtime listing limit) /\
  (forall f,
     In f (get_processed_files join_processed_dir getmtime listing limit) ->
     In (fi_filename f) listing /\
     endswith (fi_filename f) ".json" = true /\
     fi_path f = join_processed_dir (fi_filename f) /\
     fi_modified_time f = getmtime (fi_path f)) /\
  ((0 <= limit)%Z ->
   (Z.of_nat
      (length (get_processed_files join_processed_dir getmtime listing limit))
    <= limit)%Z).
Proof.
  destruct (processed_files_sorted listing) as (files & -> & Hs & Hin).
  repeat split.
  - assert (Hs' : StronglySorted (not_before fi_modified_time Qltb)
                    (py_prefix files limit)).
    { unfold py_prefix. destruct (0 <=? limit)%Z;
        now apply firstn_StronglySorted. }
    clear Hs Hin. induction Hs' as [|a l Hl IH Hall]; constructor; [exact IH|].
    eapply Forall_impl; [|exact Hall].
    intros b Hb. now apply Qltb_ge.
  - apply py_prefix_In, Hin in H. now destruct H as (name & ? & ? & ->).
  - apply py_prefix_In, Hin in H. now destruct H as (name & ? & ? & ->).
  - apply py_prefix_In, Hin in H. now destruct H as (name & ? & ? & ->).
  - apply py_prefix_In, Hin in H. now destruct H as (name & ? & ? & ->).
  - apply py_prefix_length.
Qed.

(** X27: when the listing has a file whose name ends in [.json] and the
    limit is at least one, [get_processed_files] returns a first file, and no
    [.json] file of the listing was modified later than it. *)
Theorem latest_processed_file (listing : list string) (limit : Z) :
  (1 <= limit)%Z ->
  (exists name, In name listing /\ endswith name ".json" = true) ->
  exists f rest,
    get_processed_files join_processed_dir getmtime listing limit = f :: rest
    /\ forall name, In name listing -> endswith name ".json" = true ->
         getmtime (join_processed_dir name) <= fi_modified_time f.
Proof.
  intros Hlimit (name0 & Hin0 & Hjson0).
  destruct (processed_files_sorted listing) as (files & Hget & Hs & Hin).
  rewrite Hget.
  destruct files as [|f files].
  - exfalso. eapply in_nil. apply Hin. exists name0. eauto.
  - exists f, (py_prefix files (limit - 1)).
    split; [now apply py_prefix_cons|].
    intros name Hname Hjson.
    assert (Hrec : In {| fi_filename := name;
                         fi_path := join_processed_dir name;
                         fi_modified_time :=
                           getmtime (join_processed_dir name) |}
                     (f :: files)).
    { apply Hin. exists name. auto. }
    destruct Hrec as [->|Hrec]; cbn [fi_modified_time]; [apply Qle_refl|].
    inversion Hs as [|? ? _ Hall]; subst.
    rewrite Forall_forall in Hall. apply Hall in Hrec.
    unfold not_before in Hrec. now apply Qltb_ge in Hrec.
Qed.

End ProcessedFilesFacts.

Lemma latest_processed_file_witness :
  exists f rest,
    get_processed_files example_join example_getmtime example_listing 10 =
    f :: rest
    /\ forall name, In name example_listing ->
         endswith name ".json" = true ->
         example_getmtime (example_join name) <= fi_modified_time f.
Proof.
  apply (latest_processed_file example_join example_getmtime example_listing
           10).
  - lia.
  - exists "20250106_w02.json". split; [now left | reflexivity].
Defined.

(* ================================================================== *)
(** * The order of the output *)

(** ** Reversal *)

Lemma StronglySorted_app {A : Type} (R : A -> A -> Prop) (l1 l2 : list A) :
  StronglySorted R l1 -> StronglySorted R l2 ->
  (forall a b, In a l1 -> In b l2 -> R a b) ->
  StronglySorted R (l1 ++ l2).
Proof.
  intros H1 H2 H. induction H1 as [|a l1 Hs IH Hall]; [exact H2|].
  cbn [app]. constructor.
  - apply IH. intros x y Hx Hy. apply H; [now right | exact Hy].
  - apply Forall_app. split; [exact Hall|].
    apply Forall_forall. intros y Hy. apply H; [now left | exact Hy].
Qed.

Lemma StronglySorted_rev {A : Type} (R : A -> A -> Prop) (l : list A) :
  StronglySorted R l -> StronglySorted (fun a b => R b a) (rev l).
Proof.
  induction 1 as [|a l Hs IH Hall]; [constructor|].
  cbn [rev]. apply StronglySorted_app.
  - exact IH.
  - repeat constructor.
  - intros x y Hx [<-|[]]. apply in_rev in Hx.
    rewrite Forall_forall in Hall. now apply Hall.
Qed.

(** What [nargsort] makes of the answer of [argsort] on the reversed
    items. *)
Lemma nargsort_descending {A : Type} (argsort : (A -> Q) -> list A -> list A)
  (key : A -> Q) (items : list A) :
  Permutation (rev items) (argsort key (rev items)) ->
  StronglySorted (fun a b => key a <= key b) (argsort key (rev items)) ->
  Permutation items (nargsort argsort key false items) /\
  StronglySorted (fun a b => key b <= key a) (nargsort argsort key false items).
Proof.
  intros Hp Hs. unfold nargsort. split.
  - rewrite <- Permutation_rev. rewrite <- Hp. apply Permutation_rev.
  - now apply StronglySorted_rev.
Qed.


(** ** numpy's insertion sort *)

Section InsertionSortFacts.

Context {A : Type}.
Variable key : A -> Q.

Lemma insert_left_perm (x : A) (reversed : list A) :
  Permutation (x :: reversed) (Numpy.insert_left key x reversed).
Proof.
  induction reversed as [|y rest IH]; cbn [Numpy.insert_left]; [reflexivity|].
  destruct (Numpy.less key x y); [|reflexivity].
  rewrite perm_swap. now constructor.
Qed.

Lemma insert_left_sorted (x : A) (reversed : list A) :
  StronglySorted (fun a b => key b <= key a) reversed ->
  StronglySorted (fun a b => key b <= key a) (Numpy.insert_left key x reversed).
Proof.
  induction 1 as [|y rest Hs IH Hall]; cbn [Numpy.insert_left].
  - repeat constructor.
  - unfold Numpy.less. destruct (Qltb (key x) (key y)) eqn:E.
    + apply Qltb_lt in E. constructor; [exact IH|].
      apply (Permutation_Forall (insert_left_perm x rest)).
      constructor; [now apply Qlt_le_weak | exact Hall].
    + apply Qltb_ge in E. constructor; [now constructor|].
      constructor; [exact E|].
      eapply Forall_impl; [|exact Hall]. intros z Hz. cbv beta in *.
      now apply Qle_trans with (key y).
Qed.

Lemma insert_left_filter (x : A) (reversed : list A) (k : Q) :
  filter (fun a => Qeq_bool (key a) k) (Numpy.insert_left key x reversed)
  = if Qeq_bool (key x) k
    then x :: filter (fun a => Qeq_bool (key a) k) reversed
    else filter (fun a => Qeq_bool (key a) k) reversed.
Proof.
  induction reversed as [|y rest IH]; cbn [Numpy.insert_left filter].
  - reflexivity.
  - unfold Numpy.less. destruct (Qltb (key x) (key y)) eqn:E.
    + cbn [filter]. rewrite IH.
      destruct (Qeq_bool (key y) k) eqn:Ey, (Qeq_bool (key x) k) eqn:Ex;
        try reflexivity.
      apply Qltb_lt in E. apply Qeq_bool_iff in Ex, Ey.
      rewrite Ex, Ey in E. exfalso. now apply (Qlt_irrefl k).
    + cbn [filter]. destruct (Qeq_bool (key x) k); reflexivity.
Qed.

Lemma insertion_fold (l acc : list A) :
  let reversed := fold_left (fun r x => Numpy.insert_left key x r) l acc in
  Permutation (rev l ++ acc) reversed /\
  (StronglySorted (fun a b => key b <= key a) acc ->
   StronglySorted (fun a b => key b <= key a) reversed) /\
  (forall k,
     filter (fun a => Qeq_bool (key a) k) reversed
     = filter (fun a => Qeq_bool (key a) k) (rev l ++ acc)).
Proof.
  revert acc. induction l as [|x l IH]; intro acc; cbn [fold_left rev app].
  - repeat split; trivial.
  - destruct (IH (Numpy.insert_left key x acc)) as (Hp & Hs & Hf).
    cbv zeta in *. split; [|split].
    + rewrite <- Hp, <- app_assoc. cbn [app].
      apply Permutation_app_head, insert_left_perm.
    + intro Hacc. apply Hs. now apply insert_left_sorted.
    + intro k. rewrite Hf, <- app_assoc, !filter_app. cbn [app].
      f_equal. rewrite insert_left_filter. cbn [filter].
      destruct (Qeq_bool (key x) k); reflexivity.
Qed.

(** The insertion sort sorts, and keeps the items of any one key in their
    order. *)
Lemma insertion_sort_ascending (l : list A) :
  Permutation l (Numpy.insertion_sort key l) /\
  StronglySorted (fun a b => key a <= key b) (Numpy.insertion_sort key l) /\
  forall k,
    filter (fun a => Qeq_bool (key a) k) (Numpy.insertion_sort key l)
    = filter (fun a => Qeq_bool (key a) k) l.
Proof.
  unfold Numpy.insertion_sort.
  destruct (insertion_fold l []) as (Hp & Hs & Hf). cbv zeta in *.
  rewrite app_nil_r in Hp. split; [|split].
  - rewrite <- Permutation_rev, <- Hp. apply Permutation_rev.
  - apply (StronglySorted_rev (fun a b => key b <= key a)).
    apply Hs. constructor.
  - intro k. rewrite filter_rev, Hf, app_nil_r, filter_rev.
    apply rev_involutive.
Qed.


End InsertionSortFacts.

(** ** numpy's quicksort sorts *)

Section ArrayFacts.

Context {A : Type}.
Variable d : A.
Local Open Scope nat_scope.

Lemma upd_length (i : nat) (x : A) (l : list A) :
  length (Numpy.upd i x l) = length l.
Proof.
  revert i. induction l as [|h t IH]; intros [|i]; cbn; auto.
Qed.

Lemma nth_upd (i k : nat) (x : A) (l : list A) :
  i < length l ->
  nth k (Numpy.upd i x l) d = if k =? i then x else nth k l d.
Proof.
  revert i k. induction l as [|h t IH]; intros i k Hi; cbn in Hi; [lia|].
  destruct i as [|i], k as [|k]; cbn; trivial.
  apply IH. lia.
Qed.

Lemma upd_perm (i : nat) (x : A) (l : list A) :
  i < length l -> Permutation (x :: l) (nth i l d :: Numpy.upd i x l).
Proof.
  revert i. induction l as [|h t IH]; intros i Hi; cbn in Hi; [lia|].
  destruct i as [|i]; cbn.
  - apply perm_swap.
  - rewrite perm_swap. rewrite (perm_swap h (nth i t d)).
    constructor. apply IH. lia.
Qed.

Lemma swap_length (i j : nat) (l : list A) :
  length (Numpy.swap d i j l) = length l.
Proof. unfold Numpy.swap. now rewrite !upd_length. Qed.

Lemma nth_swap (i j k : nat) (l : list A) :
  i < length l -> j < length l ->
  nth k (Numpy.swap d i j l) d
  = if k =? i then nth j l d else if k =? j then nth i l d else nth k l d.
Proof.
  intros Hi Hj. unfold Numpy.swap.
  rewrite nth_upd by now rewrite upd_length.
  destruct (k =? i); [reflexivity|]. now apply nth_upd.
Qed.

Lemma swap_perm (i j : nat) (l : list A) :
  i < length l -> j < length l -> Permutation l (Numpy.swap d i j l).
Proof.
  intros Hi Hj. unfold Numpy.swap.
  apply Permutation_cons_inv with (a := nth i l d).
  rewrite (upd_perm j (nth i l d) l Hj).
  rewrite (upd_perm i (nth j l d) (Numpy.upd j (nth i l d) l))
    by now rewrite upd_length.
  rewrite nth_upd by exact Hj.
  destruct (i =? j) eqn:E; [reflexivity|reflexivity].
Qed.

Lemma firstn_nth_skipn (i : nat) (l : list A) :
  i < length l -> l = (firstn i l ++ nth i l d :: skipn (S i) l)%list.
Proof.
  revert i. induction l as [|h t IH]; intros i Hi; cbn in Hi; [lia|].
  destruct i as [|i]; cbn; [reflexivity|].
  f_equal. apply IH. lia.
Qed.

Lemma Forall_firstn_nth (P : A -> Prop) (i : nat) (l : list A) :
  i <= length l ->
  (forall k, k < i -> P (nth k l d)) -> Forall P (firstn i l).
Proof.
  revert i. induction l as [|h t IH]; intros i Hi H.
  - rewrite firstn_nil. constructor.
  - destruct i as [|i]; cbn; constructor.
    + apply (H 0). lia.
    + apply IH; [cbn in Hi; lia|]. intros k Hk. apply (H (S k)). lia.
Qed.

Lemma Forall_skipn_nth (P : A -> Prop) (i : nat) (l : list A) :
  (forall k, i <= k < length l -> P (nth k l d)) -> Forall P (skipn i l).
Proof.
  revert i. induction l as [|h t IH]; intros i H.
  - rewrite skipn_nil. constructor.
  - destruct i as [|i]; cbn [skipn].
    + constructor.
      * apply (H 0). cbn. lia.
      * apply (IH 0). intros k Hk. apply (H (S k)). cbn. lia.
    + apply IH. intros k Hk. apply (H (S k)). cbn. lia.
Qed.

Lemma StronglySorted_nth (R : A -> A -> Prop) (l : list A) :
  (forall p q, p < q < length l -> R (nth p l d) (nth q l d)) ->
  StronglySorted R l.
Proof.
  induction l as [|h t IH]; intro H; constructor.
  - apply IH. intros p q Hpq. apply (H (S p) (S q)). cbn. lia.
  - apply Forall_forall. intros x Hx.
    destruct (In_nth t x d Hx) as (q & Hq & <-).
    apply (H 0 (S q)). cbn. lia.
Qed.

End ArrayFacts.

Section QuicksortFacts.

Context {A : Type}.
Variable key : A -> Q.
Variable d : A.
Local Open Scope nat_scope.

Local Abbreviation kle a b := (key a <= key b)%Q.

Lemma less_lt (a b : A) : Numpy.less key a b = true -> (key a < key b)%Q.
Proof. apply Qltb_lt. Qed.

Lemma less_ge (a b : A) : Numpy.less key a b = false -> (key b <= key a)%Q.
Proof. apply Qltb_ge. Qed.

Lemma ge_less (a b : A) : (key b <= key a)%Q -> Numpy.less key a b = false.
Proof. apply Qltb_ge. Qed.

(** The scans stop at or before an element that ends them. *)
Lemma scan_up_spec (fuel : nat) (l : list A) (vp : A) (pi pj : nat) :
  pi < pj -> pj - pi <= S fuel ->
  Numpy.less key (nth pj l d) vp = false ->
  let r := Numpy.scan_up key fuel d l vp pi in
  pi < r <= pj /\
  Numpy.less key (nth r l d) vp = false /\
  forall k, pi < k < r -> Numpy.less key (nth k l d) vp = true.
Proof.
  revert pi. induction fuel as [|fuel IH]; intros pi Hlt Hfuel Hstop;
    cbn [Numpy.scan_up].
  - assert (pj = S pi) as -> by lia. repeat split; trivial; lia.
  - destruct (Numpy.less key (nth (S pi) l d) vp) eqn:E.
    + assert (S pi <> pj) by (intros <-; congruence).
      destruct (IH (S pi)) as (Hr & Hs & Hk); [lia|lia|exact Hstop|].
      cbv zeta in *. repeat split; [lia|lia|exact Hs|].
      intros k Hk'. destruct (Nat.eq_dec k (S pi)) as [->|Hne]; [exact E|].
      apply Hk. lia.
    + repeat split; [lia|lia|exact E|]. intros k Hk. lia.
Qed.

Lemma scan_down_spec (fuel : nat) (l : list A) (vp : A) (pi pj : nat) :
  pi < pj -> pj - pi <= S fuel ->
  Numpy.less key vp (nth pi l d) = false ->
  let r := Numpy.scan_down key fuel d l vp pj in
  pi <= r < pj /\
  Numpy.less key vp (nth r l d) = false /\
  forall k, r < k < pj -> Numpy.less key vp (nth k l d) = true.
Proof.
  revert pj. induction fuel as [|fuel IH]; intros pj Hlt Hfuel Hstop;
    cbn [Numpy.scan_down].
  - assert (pj = S pi) as -> by lia. cbn [pred].
    repeat split; trivial; lia.
  - destruct (Numpy.less key vp (nth (pred pj) l d)) eqn:E.
    + assert (pred pj <> pi) by (intros <-; congruence).
      destruct (IH (pred pj)) as (Hr & Hs & Hk); [lia|lia|exact Hstop|].
      cbv zeta in *. repeat split; [lia|lia|exact Hs|].
      intros k Hk'. destruct (Nat.eq_dec k (pred pj)) as [->|Hne]; [exact E|].
      apply Hk. lia.
    + repeat split; [lia|lia|exact E|]. intros k Hk. lia.
Qed.

(** The exchange loop: what lies at or left of [pi] is at most the pivot,
    what lies at or right of [pj] is at least the pivot, and the pivot
    waits at [q]. *)
Lemma exchange_spec (fuel : nat) (l : list A) (vp : A) (pi pj q : nat)
  (l' : list A) (p : nat) :
  pi < pj -> pj <= q -> q < length l -> pj - pi <= fuel ->
  nth q l d = vp ->
  (forall k, k <= pi -> kle (nth k l d) vp) ->
  (forall k, pj <= k < length l -> kle vp (nth k l d)) ->
  Numpy.exchange key fuel d l vp pi pj = (l', p) ->
  Permutation l l' /\ length l' = length l /\ p <= q /\ nth q l' d = vp /\
  (forall k, k < p -> kle (nth k l' d) vp) /\
  (forall k, p <= k < length l -> kle vp (nth k l' d)).
Proof.
  revert l pi pj. induction fuel as [|fuel IH];
    intros l pi pj Hlt Hq Hlen Hfuel Hpiv Hleft Hright H; [lia|].
  cbn [Numpy.exchange] in H.
  destruct (scan_up_spec (length l) l vp pi pj Hlt) as (Hi & Hsi & Hki);
    [lia | apply ge_less, Hright; lia |].
  destruct (scan_down_spec (length l) l vp pi pj Hlt) as (Hj & Hsj & Hkj);
    [lia | apply ge_less, Hleft; lia |].
  cbv zeta in *.
  set (pi' := Numpy.scan_up key (length l) d l vp pi) in *.
  set (pj' := Numpy.scan_down key (length l) d l vp pj) in *.
  (* left and right of the new places *)
  assert (Hleft' : forall k, k < pi' -> kle (nth k l d) vp).
  { intros k Hk. destruct (le_lt_dec k pi) as [Hle|Hgt]; [now apply Hleft|].
    apply Qlt_le_weak, less_lt, Hki. lia. }
  assert (Hright' : forall k, pj' < k < length l -> kle vp (nth k l d)).
  { intros k Hk. destruct (le_lt_dec pj k) as [Hle|Hgt];
      [apply Hright; lia|].
    apply Qlt_le_weak, less_lt, Hkj. lia. }
  destruct (pj' <=? pi') eqn:E.
  - apply Nat.leb_le in E. injection H as <- <-.
    repeat split; trivial; [lia|].
    intros k Hk. destruct (Nat.eq_dec k pi') as [->|Hne];
      [now apply less_ge|].
    apply Hright'. lia.
  - apply Nat.leb_gt in E.
    assert (Hpi' : pi' < length l) by lia.
    assert (Hpj' : pj' < length l) by lia.
    apply IH in H.
    + destruct H as (Hp & Hl & Hpq & Hv & Hlo & Hhi).
      rewrite swap_length in Hl, Hhi.
      repeat split; trivial.
      rewrite <- Hp. now apply swap_perm.
    + exact E.
    + lia.
    + now rewrite swap_length.
    + lia.
    + rewrite nth_swap by assumption.
      destruct (q =? pi') eqn:E1; [apply Nat.eqb_eq in E1; lia|].
      destruct (q =? pj') eqn:E2; [apply Nat.eqb_eq in E2; lia|].
      exact Hpiv.
    + intros k Hk. rewrite nth_swap by assumption.
      destruct (k =? pi') eqn:E1; [now apply less_ge|].
      apply Nat.eqb_neq in E1.
      destruct (k =? pj') eqn:E2; [apply Nat.eqb_eq in E2; lia|].
      apply Hleft'. lia.
    + intros k Hk. rewrite swap_length in Hk. rewrite nth_swap by assumption.
      destruct (k =? pi') eqn:E1; [apply Nat.eqb_eq in E1; lia|].
      destruct (k =? pj') eqn:E2; [now apply less_ge|].
      apply Nat.eqb_neq in E2. apply Hright'. lia.
Qed.

End QuicksortFacts.

Section PartitionFacts.

Context {A : Type}.
Variable key : A -> Q.
Variable d : A.
Local Open Scope nat_scope.

(** The median of three: after the three exchanges the first, the middle
    and the last element are in order. *)
Lemma median_of_three (l : list A) (pm pr : nat) :
  0 < pm -> pm < pr -> pr < length l ->
  let l1 :=
    if Numpy.less key (nth pm l d) (nth 0 l d) then Numpy.swap d pm 0 l
    else l in
  let l2 :=
    if Numpy.less key (nth pr l1 d) (nth pm l1 d) then Numpy.swap d pr pm l1
    else l1 in
  let l3 :=
    if Numpy.less key (nth pm l2 d) (nth 0 l2 d) then Numpy.swap d pm 0 l2
    else l2 in
  Permutation l l3 /\ length l3 = length l /\
  (key (nth 0 l3 d) <= key (nth pm l3 d))%Q /\
  (key (nth pm l3 d) <= key (nth pr l3 d))%Q.
Proof.
  intros H0 Hm Hr.
  assert (E1 : (pm =? 0) = false) by (apply Nat.eqb_neq; lia).
  assert (E2 : (0 =? pm) = false) by (apply Nat.eqb_neq; lia).
  assert (E3 : (pr =? pm) = false) by (apply Nat.eqb_neq; lia).
  assert (E4 : (pm =? pr) = false) by (apply Nat.eqb_neq; lia).
  assert (E5 : (pr =? 0) = false) by (apply Nat.eqb_neq; lia).
  assert (E6 : (0 =? pr) = false) by (apply Nat.eqb_neq; lia).
  intro l1.
  assert (H1 : length l1 = length l /\ Permutation l l1 /\
               (key (nth 0 l1 d) <= key (nth pm l1 d))%Q).
  { unfold l1. destruct (Numpy.less key (nth pm l d) (nth 0 l d)) eqn:E.
    - rewrite swap_length, !nth_swap by lia.
      rewrite ?Nat.eqb_refl, ?E1, ?E2, ?E5.
      repeat split; [apply swap_perm; lia|].
      now apply Qlt_le_weak, less_lt.
    - repeat split; [reflexivity|]. now apply less_ge. }
  clearbody l1. destruct H1 as (Hl1 & Hp1 & H1).
  intro l2.
  assert (H2 : length l2 = length l /\ Permutation l1 l2 /\
               (key (nth pm l2 d) <= key (nth pr l2 d))%Q /\
               (key (nth 0 l2 d) <= key (nth pr l2 d))%Q).
  { unfold l2. destruct (Numpy.less key (nth pr l1 d) (nth pm l1 d)) eqn:E.
    - rewrite swap_length, !nth_swap by lia.
      rewrite ?Nat.eqb_refl, ?E2, ?E3, ?E4, ?E6.
      apply less_lt in E. repeat split; trivial.
      + apply swap_perm; lia.
      + now apply Qlt_le_weak.
    - apply less_ge in E. repeat split; trivial.
      now apply Qle_trans with (key (nth pm l1 d)). }
  clearbody l2. destruct H2 as (Hl2 & Hp2 & H2 & H2').
  intro l3. unfold l3.
  destruct (Numpy.less key (nth pm l2 d) (nth 0 l2 d)) eqn:E.
  - rewrite swap_length, !nth_swap by lia.
    rewrite ?Nat.eqb_refl, ?E1, ?E2, ?E5, ?E3, ?E4.
    repeat split; trivial.
    + rewrite Hp1, Hp2. apply swap_perm; lia.
    + now apply Qlt_le_weak, less_lt.
  - repeat split; trivial.
    + now rewrite Hp1.
    + now apply less_ge.
Qed.

(** One partition: the same elements, with the pivot in its place, nothing
    greater before it and nothing smaller after it. *)
Lemma partition_spec (l l' : list A) (pi : nat) :
  16 < length l - 1 ->
  Numpy.partition key d l = (l', pi) ->
  Permutation l l' /\ pi < length l /\
  (forall k, k < pi -> (key (nth k l' d) <= key (nth pi l' d))%Q) /\
  (forall k, pi < k < length l ->
             (key (nth pi l' d) <= key (nth k l' d))%Q).
Proof.
  intros Hlen H. unfold Numpy.partition in H.
  set (pr := length l - 1) in *. set (pm := Nat.div2 pr) in *.
  assert (Hpm : 0 < pm /\ pm < pr - 1).
  { subst pm. pose proof (Nat.div2_odd pr) as Ho.
    destruct (Nat.odd pr); cbn [Nat.b2n] in Ho; lia. }
  destruct (median_of_three l pm pr) as (Hp3 & Hl3 & Hlo & Hhi);
    [lia | lia | lia |].
  cbv zeta in *.
  set (l3 := if Numpy.less key (nth pm _ d) (nth 0 _ d)
             then Numpy.swap d pm 0 _ else _) in *.
  set (vp := nth pm l3 d) in *.
  set (l4 := Numpy.swap d pm (pr - 1) l3) in *.
  assert (E1 : (pr - 1 =? pm) = false) by (apply Nat.eqb_neq; lia).
  assert (E2 : (0 =? pm) = false) by (apply Nat.eqb_neq; lia).
  assert (E3 : (0 =? pr - 1) = false) by (apply Nat.eqb_neq; lia).
  assert (E4 : (pr =? pm) = false) by (apply Nat.eqb_neq; lia).
  assert (E5 : (pr =? pr - 1) = false) by (apply Nat.eqb_neq; lia).
  assert (Hl4 : length l4 = length l)
    by (subst l4; now rewrite swap_length).
  destruct (Numpy.exchange key (length l) d l4 vp 0 (pr - 1))
    as [l5 p] eqn:Hex.
  injection H as <- <-.
  apply (exchange_spec key d (length l) l4 vp 0 (pr - 1) (pr - 1)) in Hex.
  - destruct Hex as (Hp5 & Hl5 & Hpq & Hv & Hleft & Hright).
    rewrite Hl4 in Hl5, Hright.
    assert (Hpp : nth p (Numpy.swap d p (pr - 1) l5) d = vp).
    { rewrite nth_swap by lia. now rewrite Nat.eqb_refl. }
    rewrite Hpp. split; [|split; [lia|split]].
    + rewrite Hp3. transitivity l4; [apply swap_perm; lia|].
      rewrite Hp5. apply swap_perm; lia.
    + intros k Hk. rewrite nth_swap by lia.
      destruct (k =? p) eqn:Ek; [apply Nat.eqb_eq in Ek; lia|].
      destruct (k =? pr - 1) eqn:Ek'; [apply Nat.eqb_eq in Ek'; lia|].
      now apply Hleft.
    + intros k Hk. rewrite nth_swap by lia.
      destruct (k =? p) eqn:Ek; [apply Nat.eqb_eq in Ek; lia|].
      destruct (k =? pr - 1) eqn:Ek'; apply Hright; lia.
  - lia.
  - lia.
  - lia.
  - lia.
  - subst l4. rewrite nth_swap by lia. now rewrite E1, Nat.eqb_refl.
  - intros k Hk. assert (k = 0) as -> by lia.
    subst l4. rewrite nth_swap by lia. now rewrite E2, E3.
  - intros k Hk. rewrite Hl4 in Hk.
    assert (k = pr - 1 \/ k = pr) as [->| ->] by lia.
    + subst l4. rewrite nth_swap by lia. rewrite E1, Nat.eqb_refl.
      apply Qle_refl.
    + subst l4. rewrite nth_swap by lia. now rewrite E4, E5.
Qed.

End PartitionFacts.

Section HeapsortFacts.

Context {A : Type}.
Variable key : A -> Q.
Variable d : A.
Local Open Scope nat_scope.

Local Abbreviation kle a b := (key a <= key b)%Q.
Local Abbreviation at1 a k := (nth (k - 1) a d).

Lemma at1_upd (i k : nat) (x : A) (a : list A) :
  1 <= i <= length a -> 1 <= k ->
  at1 (Numpy.upd (i - 1) x a) k = if k =? i then x else at1 a k.
Proof.
  intros Hi Hk. rewrite nth_upd by lia.
  destruct (k =? i) eqn:E1, (k - 1 =? i - 1) eqn:E2; trivial.
  - apply Nat.eqb_eq in E1. apply Nat.eqb_neq in E2. lia.
  - apply Nat.eqb_neq in E1. apply Nat.eqb_eq in E2. lia.
Qed.

Lemma upd_nth_same (i : nat) (a : list A) : Numpy.upd i (nth i a d) a = a.
Proof.
  revert i. induction a as [|h t IH]; intros [|i]; cbn; trivial.
  now rewrite IH.
Qed.

(** The child the loop goes down to is the greater one. *)
Lemma larger_child (a : list A) (i n : nat) :
  1 <= i -> i + i <= n ->
  let j := i + i in
  let j' :=
    if ((j <? n) && Numpy.less key (nth (j - 1) a d) (nth j a d))%bool
    then S j else j in
  child i j' /\ j' <= n /\
  forall c, child i c -> c <= n -> kle (at1 a c) (at1 a j').
Proof.
  intros Hi Hj j j'. subst j'.
  assert (Hs : nth j a d = at1 a (S j)) by (f_equal; lia).
  rewrite Hs. unfold child. fold j.
  destruct (j <? n) eqn:E1; cbn [andb].
  - apply Nat.ltb_lt in E1.
    destruct (Numpy.less key (at1 a j) (at1 a (S j))) eqn:E2.
    + split; [now right|]. split; [lia|].
      intros c [-> | ->] _; [|apply Qle_refl].
      now apply Qlt_le_weak, less_lt.
    + split; [now left|]. split; [lia|].
      intros c [-> | ->] _; [apply Qle_refl|]. now apply less_ge.
  - apply Nat.ltb_ge in E1. split; [now left|]. split; [lia|].
    intros c [-> | ->] Hc; [apply Qle_refl | lia].
Qed.

(** Sifting down: with [tmp] put at [i], the first [n] elements are a heap
    from [lo] on but for the children of [i]; after the loop they are a
    heap from [lo] on. *)
Lemma sift_spec (fuel : nat) (a : list A) (tmp : A) (i n lo : nat) :
  1 <= lo -> 1 <= i -> i <= n -> n <= length a -> n < fuel + i ->
  let b := Numpy.upd (i - 1) tmp a in
  (forall k c, lo <= k -> k <> i -> child k c -> c <= n ->
               kle (at1 b c) (at1 b k)) ->
  (forall p c, lo <= p -> child p i -> child i c -> c <= n ->
               kle (at1 b c) (at1 b p)) ->
  let r := Numpy.sift key fuel d a tmp i (i + i) n in
  Permutation b r /\ length r = length a /\ heap_ordered key d r lo n /\
  (forall k, n < k -> at1 r k = at1 b k) /\
  (forall P : A -> Prop,
     (forall k, 1 <= k <= n -> P (at1 b k)) ->
     forall k, 1 <= k <= n -> P (at1 r k)).
Proof.
  revert a i. induction fuel as [|fuel IH];
    intros a i Hlo Hi Hin Hn Hfuel b H1 H2 r; [lia|].
  assert (Hb : forall k, 1 <= k ->
                 at1 b k = if k =? i then tmp else at1 a k)
    by (intros k Hk; apply at1_upd; lia).
  assert (Hlb : length b = length a) by apply upd_length.
  (* the loop ends here *)
  assert (Hend : (forall c, child i c -> c <= n -> kle (at1 a c) tmp) ->
                 Permutation b b /\ length b = length a /\
                 heap_ordered key d b lo n /\
                 (forall k, n < k -> at1 b k = at1 b k) /\
                 (forall P : A -> Prop,
                    (forall k, 1 <= k <= n -> P (at1 b k)) ->
                    forall k, 1 <= k <= n -> P (at1 b k))).
  { intro Hc. repeat split; trivial.
    intros k c Hk Hkc Hcn. destruct (Nat.eq_dec k i) as [->|Hne].
    - rewrite !Hb by (unfold child in Hkc; lia).
      rewrite Nat.eqb_refl.
      destruct (c =? i) eqn:E;
        [apply Nat.eqb_eq in E; unfold child in Hkc; lia|].
      now apply Hc.
    - now apply H1. }
  subst r. cbn [Numpy.sift].
  destruct (i + i <=? n) eqn:Ej.
  - apply Nat.leb_le in Ej.
    destruct (larger_child a i n Hi Ej) as (Hch & Hjn & Hmax).
    cbv zeta in Hch, Hjn, Hmax.
    set (j' := if ((i + i <? n)
                   && Numpy.less key (nth (i + i - 1) a d) (nth (i + i) a d))%bool
               then S (i + i) else i + i) in *.
    clearbody j'.
    assert (Hij : i < j') by (unfold child in Hch; lia).
    destruct (Numpy.less key tmp (at1 a j')) eqn:El.
    + set (a' := Numpy.upd (i - 1) (at1 a j') a).
      assert (Hla' : length a' = length a) by apply upd_length.
      set (b' := Numpy.upd (j' - 1) tmp a').
      assert (Hb' : forall k, 1 <= k ->
                at1 b' k = if k =? j' then tmp
                           else if k =? i then at1 a j' else at1 a k).
      { intros k Hk. unfold b'. rewrite at1_upd by lia.
        destruct (k =? j'); [reflexivity|]. unfold a'.
        now rewrite at1_upd by lia. }
      assert (Hbb' : b' = Numpy.swap d (i - 1) (j' - 1) b).
      { apply nth_ext with (d := d) (d' := d).
        - unfold b'. now rewrite swap_length, upd_length, Hla', Hlb.
        - intros k Hk. unfold b' in Hk. rewrite upd_length, Hla' in Hk.
          rewrite nth_swap by lia.
          remember (S k) as m eqn:Hm.
          replace k with (m - 1) by lia.
          rewrite Hb', !Hb by lia. rewrite Nat.eqb_refl.
          eqb_cases; try reflexivity; lia. }
      destruct (IH a' j' Hlo) as (Hp & Hl & Hh & Hout & Hin').
      * lia.
      * exact Hjn.
      * lia.
      * lia.
      * fold b'. intros k c Hk Hne Hkc Hcn.
        assert (Hc1 : 1 <= c) by (unfold child in Hkc; lia).
        rewrite !Hb' by lia.
        destruct (k =? j') eqn:E0; [apply Nat.eqb_eq in E0; lia|].
        destruct (Nat.eq_dec k i) as [->|Hki].
        -- rewrite Nat.eqb_refl.
           destruct (c =? j') eqn:E1;
             [now apply Qlt_le_weak, less_lt|].
           destruct (c =? i) eqn:E2;
             [apply Nat.eqb_eq in E2; unfold child in Hkc; lia|].
           now apply Hmax.
        -- destruct (k =? i) eqn:E3; [apply Nat.eqb_eq in E3; lia|].
           destruct (c =? j') eqn:E1.
           { apply Nat.eqb_eq in E1. unfold child in Hkc, Hch. lia. }
           destruct (c =? i) eqn:E2.
           { apply Nat.eqb_eq in E2. subst c.
             specialize (H2 k j' Hk Hkc Hch Hjn).
             rewrite !Hb in H2 by lia.
             rewrite E3 in H2.
             destruct (j' =? i) eqn:E4; [apply Nat.eqb_eq in E4; lia|].
             exact H2. }
           specialize (H1 k c Hk Hki Hkc Hcn).
           rewrite !Hb in H1 by lia. now rewrite E2, E3 in H1.
      * fold b'. intros p c Hp' Hpj Hjc Hcn.
        assert (p = i) as -> by (unfold child in Hpj, Hch; lia).
        assert (Hc1 : j' < c) by (unfold child in Hjc; lia).
        rewrite !Hb' by lia. rewrite Nat.eqb_refl.
        destruct (c =? j') eqn:E1; [apply Nat.eqb_eq in E1; lia|].
        destruct (c =? i) eqn:E2; [apply Nat.eqb_eq in E2; lia|].
        destruct (i =? j') eqn:E3; [apply Nat.eqb_eq in E3; lia|].
        assert (Hne : j' <> i) by lia.
        specialize (H1 j' c ltac:(lia) Hne Hjc Hcn).
        rewrite !Hb in H1 by lia. rewrite E2 in H1.
        destruct (j' =? i) eqn:E4; [apply Nat.eqb_eq in E4; lia|].
        exact H1.
      * cbv zeta in *. fold a' in Hp, Hl, Hh, Hout, Hin'.
        fold b' in Hp, Hout, Hin'.
        split; [|split; [|split; [|split]]].
        -- rewrite <- Hp, Hbb'. apply swap_perm; lia.
        -- lia.
        -- exact Hh.
        -- intros k Hk. rewrite Hout by exact Hk.
           rewrite Hb', Hb by lia.
           eqb_cases; try reflexivity; lia.
        -- intros P HP. apply Hin'. intros k Hk. rewrite Hb' by lia.
           destruct (k =? j') eqn:E1.
           { specialize (HP i ltac:(lia)). rewrite Hb in HP by lia.
             now rewrite Nat.eqb_refl in HP. }
           destruct (k =? i) eqn:E2.
           { specialize (HP j' ltac:(lia)). rewrite Hb in HP by lia.
             destruct (j' =? i) eqn:E4; [apply Nat.eqb_eq in E4; lia|].
             exact HP. }
           specialize (HP k Hk). rewrite Hb in HP by lia.
           now rewrite E2 in HP.
    + apply Hend. intros c Hc Hcn.
      apply Qle_trans with (key (at1 a j')); [now apply Hmax|].
      now apply less_ge.
  - apply Nat.leb_gt in Ej. apply Hend. intros c Hc Hcn.
    unfold child in Hc. lia.
Qed.

End HeapsortFacts.

Section HeapsortSorts.

Context {A : Type}.
Variable key : A -> Q.
Variable d : A.
Local Open Scope nat_scope.

Local Abbreviation kle a b := (key a <= key b)%Q.
Local Abbreviation at1 a k := (nth (k - 1) a d).

(** The first loop of heapsort makes a heap of the whole array. *)
Lemma build_heap_spec (a : list A) (l n : nat) :
  n <= length a -> l <= n -> heap_ordered key d a (S l) n ->
  let r := Numpy.build_heap key d a l n in
  Permutation a r /\ length r = length a /\ heap_ordered key d r 1 n.
Proof.
  revert a. induction l as [|l IH]; intros a Hn Hl Hh r; subst r;
    cbn [Numpy.build_heap]; [repeat split; trivial|].
  pose proof (sift_spec key d n a (nth l a d) (S l) n (S l)) as H.
  cbv zeta in H.
  assert (Hb : Numpy.upd (S l - 1) (nth l a d) a = a).
  { replace (S l - 1) with l by lia. apply upd_nth_same. }
  rewrite Hb in H.
  destruct H as (Hp & Hlen & Hheap & _); try lia.
  - intros k c Hk Hne Hkc Hcn. apply Hh; trivial. lia.
  - intros p c Hp Hpl. unfold child in Hpl. lia.
  - destruct (IH (Numpy.sift key n d a (nth l a d) (S l) (S l + S l) n))
      as (Hp' & Hlen' & Hheap'); [lia | lia | exact Hheap |].
    cbv zeta in *.
    repeat split; [exact (Permutation_trans Hp Hp') | lia | exact Hheap'].
Qed.

(** The root of a heap is its greatest element. *)
Lemma heap_root_max (a : list A) (n : nat) :
  heap_ordered key d a 1 n ->
  forall k, 1 <= k <= n -> kle (at1 a k) (at1 a 1).
Proof.
  intros Hh k. induction k as [k IH] using lt_wf_ind. intro Hk.
  destruct (Nat.eq_dec k 1) as [->|Hne]; [apply Qle_refl|].
  pose proof (Nat.div2_odd k) as Ho.
  assert (Hc : child (Nat.div2 k) k).
  { unfold child. destruct (Nat.odd k); cbn [Nat.b2n] in Ho; lia. }
  assert (Hp : 1 <= Nat.div2 k < k) by (unfold child in Hc; lia).
  apply Qle_trans with (key (at1 a (Nat.div2 k))).
  - apply Hh; [lia | exact Hc | lia].
  - apply IH; lia.
Qed.

(** The second loop: the greatest element goes behind the heap, time and
    again. *)
Lemma drain_heap_spec (fuel : nat) (a : list A) (n : nat) :
  n <= fuel -> n <= length a -> heap_ordered key d a 1 n ->
  (forall p q, n < p -> p < q <= length a -> kle (at1 a p) (at1 a q)) ->
  (forall p q, 1 <= p <= n -> n < q <= length a ->
               kle (at1 a p) (at1 a q)) ->
  let r := Numpy.drain_heap key fuel d a n in
  Permutation a r /\
  (forall p q, 1 <= p -> p < q <= length a -> kle (at1 r p) (at1 r q)).
Proof.
  revert a n. induction fuel as [|fuel IH];
    intros a n Hfuel Hn Hh Hsuf Hbound r; subst r;
    cbn [Numpy.drain_heap].
  - split; [reflexivity|]. intros p q Hp Hq. apply Hsuf; lia.
  - destruct (1 <? n) eqn:E.
    + apply Nat.ltb_lt in E.
      set (tmp := nth (n - 1) a d).
      set (a' := Numpy.upd (n - 1) (nth 0 a d) a).
      assert (Hla' : length a' = length a) by apply upd_length.
      pose proof (sift_spec key d n a' tmp 1 (n - 1) 1) as H.
      cbv zeta in H. change (1 - 1) with 0 in H. change (1 + 1) with 2 in H.
      set (b := Numpy.upd 0 tmp a') in *.
      assert (Hb : forall k, 1 <= k ->
                at1 b k = if k =? 1 then at1 a n
                          else if k =? n then at1 a 1 else at1 a k).
      { intros k Hk. change b with (Numpy.swap d 0 (n - 1) a).
        rewrite nth_swap by lia. change (1 - 1) with 0.
        eqb_cases; try reflexivity; lia. }
      destruct H as (Hp & Hlen & Hheap & Hout & Hin); try lia.
      * intros k c Hk Hne Hkc Hcn.
        assert (k < c) by (unfold child in Hkc; lia).
        rewrite !Hb by lia.
        eqb_cases; try lia. apply Hh; trivial; lia.
      * intros p c Hp Hp1. unfold child in Hp1. lia.
      * set (r1 := Numpy.sift key n d a' tmp 1 2 (n - 1)) in *.
        destruct (IH r1 (n - 1)) as (Hp' & Hs'); try lia.
        -- exact Hheap.
        -- intros p q Hpn Hq. rewrite !Hout by lia. rewrite !Hb by lia.
           eqb_cases; try lia.
           ++ apply Hbound; lia.
           ++ apply Hsuf; lia.
        -- intros p q Hpn Hq. rewrite (Hout q) by lia.
           apply (Hin (fun x => forall q', n <= q' <= length a ->
                                           kle x (at1 b q'))).
           ++ intros k Hk q' Hq'. rewrite !Hb by lia.
              eqb_cases; try lia;
                first [ apply (heap_root_max a n Hh); lia
                      | apply Hbound; lia ].
           ++ lia.
           ++ lia.
        -- cbv zeta in *. split.
           ++ rewrite <- Hp', <- Hp. change b with (Numpy.swap d 0 (n - 1) a).
              apply swap_perm; lia.
           ++ intros p q Hp1 Hq. apply Hs'; lia.
    + apply Nat.ltb_ge in E. split; [reflexivity|].
      intros p q Hp Hq. destruct (le_lt_dec p n) as [Hle|Hgt].
      * apply Hbound; lia.
      * apply Hsuf; lia.
Qed.

End HeapsortSorts.

(** Heapsort sorts. *)
Lemma heapsort_spec {A : Type} (key : A -> Q) (l : list A) :
  Permutation l (Numpy.heapsort key l) /\
  StronglySorted (fun a b => key a <= key b) (Numpy.heapsort key l).
Proof.
  destruct l as [|d t]; [split; constructor|].
  unfold Numpy.heapsort. set (l := d :: t). set (n := length l).
  pose proof (Nat.div2_odd n) as Ho.
  assert (Hodd : (Nat.b2n (Nat.odd n) <= 1)%nat)
    by (destruct (Nat.odd n); cbn; lia).
  destruct (build_heap_spec key d l (Nat.div2 n) n) as (Hp & Hlen & Hh).
  - subst n. lia.
  - lia.
  - intros k c Hk Hkc Hcn. unfold child in Hkc. lia.
  - cbv zeta in *. set (r1 := Numpy.build_heap key d l (Nat.div2 n) n) in *.
    destruct (drain_heap_spec key d n r1 n) as (Hp' & Hs).
    + lia.
    + subst n. lia.
    + exact Hh.
    + intros p q Hpn Hq. subst n. lia.
    + intros p q Hpn Hq. subst n. lia.
    + cbv zeta in *. split; [now rewrite Hp|].
      apply (StronglySorted_nth d). intros p q Hpq.
      rewrite <- (Permutation_length Hp') in Hpq.
      specialize (Hs (S p) (S q)).
      replace (S p - 1)%nat with p in Hs by lia.
      replace (S q - 1)%nat with q in Hs by lia.
      apply Hs; lia.
Qed.

(** The introsort sorts: every segment comes out in ascending order,
    whichever of the three sorts it goes through. *)
Lemma introsort_spec {A : Type} (key : A -> Q) (fuel : nat) (cdepth : Z)
  (set_aside : bool) (l : list A) :
  (length l < fuel)%nat ->
  Permutation l (Numpy.introsort key fuel cdepth set_aside l) /\
  StronglySorted (fun a b => key a <= key b)
    (Numpy.introsort key fuel cdepth set_aside l).
Proof.
  revert cdepth set_aside l.
  induction fuel as [|fuel IH]; intros cdepth set_aside l Hlen; [lia|].
  cbn [Numpy.introsort].
  destruct (set_aside && (cdepth <? 0)%Z)%bool; [apply heapsort_spec|].
  destruct l as [|d t]; [split; constructor|].
  set (l := d :: t) in *.
  destruct (16 <? length l - 1)%nat eqn:E.
  - apply Nat.ltb_lt in E.
    destruct (Numpy.partition key d l) as [l' pi] eqn:Hpart.
    destruct (partition_spec key d l l' pi E Hpart)
      as (Hp & Hpi & Hleft & Hright).
    pose proof (Permutation_length Hp) as Hl'.
    set (left := firstn pi l'). set (right := skipn (S pi) l').
    assert (Hsplit : l' = (left ++ nth pi l' d :: right)%list)
      by (apply firstn_nth_skipn; lia).
    assert (Hll : (length left < fuel)%nat).
    { subst left. rewrite length_firstn. lia. }
    assert (Hlr : (length right < fuel)%nat).
    { subst right. rewrite length_skipn. lia. }
    assert (Hfl : Forall (fun x => key x <= key (nth pi l' d)) left).
    { apply (Forall_firstn_nth d); [lia|]. exact Hleft. }
    assert (Hfr : Forall (fun x => key (nth pi l' d) <= key x) right).
    { apply (Forall_skipn_nth d). intros k Hk. apply Hright. lia. }
    assert (Hgoal : forall left' right',
              Permutation left left' -> Permutation right right' ->
              StronglySorted (fun a b => key a <= key b) left' ->
              StronglySorted (fun a b => key a <= key b) right' ->
              Permutation l (left' ++ nth pi l' d :: right') /\
              StronglySorted (fun a b => key a <= key b)
                (left' ++ nth pi l' d :: right')).
    { intros left' right' Hpl Hpr Hsl Hsr. split.
      - rewrite Hp. rewrite Hsplit at 1.
        apply Permutation_app; [exact Hpl|]. now constructor.
      - pose proof (Permutation_Forall Hpl Hfl) as Hfl'.
        pose proof (Permutation_Forall Hpr Hfr) as Hfr'.
        apply StronglySorted_app; [exact Hsl | now constructor |].
        intros a b Ha Hb. rewrite Forall_forall in Hfl', Hfr'.
        destruct Hb as [<-|Hb]; [now apply Hfl'|].
        apply Qle_trans with (key (nth pi l' d));
          [now apply Hfl' | now apply Hfr']. }
    destruct (length left <? length right)%nat.
    + destruct (IH (cdepth - 1)%Z false left Hll) as (Hp1 & Hs1).
      destruct (IH (cdepth - 1)%Z true right Hlr) as (Hp2 & Hs2).
      now apply Hgoal.
    + destruct (IH (cdepth - 1)%Z true left Hll) as (Hp1 & Hs1).
      destruct (IH (cdepth - 1)%Z false right Hlr) as (Hp2 & Hs2).
      now apply Hgoal.
  - destruct (insertion_sort_ascending key l) as (Hp & Hs & _).
    now split.
Qed.

(** numpy's quicksort returns its items in ascending order. *)
Lemma aquicksort_ascending {A : Type} :
  ascending_argsort (A := A) Numpy.aquicksort.
Proof.
  intros key l. unfold Numpy.aquicksort. apply introsort_spec. lia.
Qed.

(** ** The sorted output *)

(** pandas' descending sort over numpy's quicksort returns the rows it is
    given, in non-increasing order of the key. *)
Lemma pandas_sort_rows_descending : descending_sort pandas_sort_rows.
Proof.
  intro l. unfold pandas_sort_rows, sort_rows_with.
  destruct (aquicksort_ascending next_week_saturation (rev l)) as (Hp & Hs).
  exact (nargsort_descending Numpy.aquicksort next_week_saturation l Hp Hs).
Qed.




(* ================================================================== *)
(** * Properties of the calculation on machine numbers *)

Section Binary64Properties.

Import PrimFloat SpecFloat FloatOps FloatAxioms.
Local Open Scope float_scope.

(** ** Comparisons *)

Lemma float_pos_not_zero (y : float) : (0 <? y) = true -> (y =? 0) = false.
Proof.
  rewrite ltb_spec, FloatAxioms.eqb_spec.
  change (Prim2SF 0) with (S754_zero false).
  destruct (Prim2SF y) as [s|s| |s m e]; try destruct s; cbn;
    (discriminate || reflexivity).
Qed.

Lemma float_nonpos_not_pos (x : float) : (x <=? 0) = true -> (0 <? x) = false.
Proof.
  rewrite ltb_spec, leb_spec.
  change (Prim2SF 0) with (S754_zero false).
  destruct (Prim2SF x) as [s|s| |s m e]; try destruct s; cbn;
    (discriminate || reflexivity).
Qed.

(** ** The loop body in closed form *)

Lemma py_div_pos_f (x y : float) :
  (0 <? y) = true -> Binary64.py_div x y = ok (x / y).
Proof.
  intro H. unfold Binary64.py_div. now rewrite float_pos_not_zero.
Qed.

Lemma saturation_guard_f (self : Binary64.Processor) (total : float) :
  (if 0 <? Binary64.standard_hours self
   then q <- Binary64.py_div total (Binary64.standard_hours self) ;;
        ok (q * 100)
   else ok 0) = ok (Binary64.saturation_of self total).
Proof.
  unfold Binary64.saturation_of.
  destruct (0 <? Binary64.standard_hours self) eqn:E; [|reflexivity].
  now rewrite py_div_pos_f.
Qed.

Lemma change_guard_f (prior current : float) :
  (if 0 <? prior
   then let change := current - prior in
        q <- Binary64.py_div change prior ;; ok (change, q * 100)
   else ok (current, if current =? 0 then 0 else infinity))
  = ok (Binary64.change_of prior current).
Proof.
  unfold Binary64.change_of.
  destruct (0 <? prior) eqn:E; [|reflexivity].
  cbv zeta. now rewrite py_div_pos_f.
Qed.

(** The loop body reads the member cell, sums the three selections, and
    builds the record; none of its divisions can fail. *)
Lemma calculate_row_eq_f (self : Binary64.Processor)
  (cols cw nw nnw pm : list string) (row : list Binary64.cell) :
  Binary64.calculate_row self cols cw nw nnw pm row =
  (m <- Binary64.row_get cols row member_col ;;
   p0 <- Binary64.row_sum cols row cw ;;
   p1 <- Binary64.row_sum cols row nw ;;
   p2 <- Binary64.row_sum cols row nnw ;;
   ok (Binary64.build_row self m (Binary64.cell_in m pm) p0 p1 p2)).
Proof.
  assert (Hsum : forall names,
            (if nonempty names then Binary64.row_sum cols row names else ok 0)
            = Binary64.row_sum cols row names)
    by (intros [|n ns]; reflexivity).
  unfold Binary64.calculate_row. rewrite !Hsum.
  destruct (Binary64.row_get cols row member_col) as [e|m]; [reflexivity|].
  cbn [bind].
  destruct (Binary64.row_sum cols row cw) as [e|p0]; [reflexivity|].
  cbn [bind]. rewrite saturation_guard_f. cbn [bind ok].
  destruct (Binary64.row_sum cols row nw) as [e|p1]; [reflexivity|].
  cbn [bind]. rewrite saturation_guard_f. cbn [bind ok].
  destruct (Binary64.row_sum cols row nnw) as [e|p2]; [reflexivity|].
  cbn [bind]. rewrite saturation_guard_f. cbn [bind ok].
  rewrite !change_guard_f. cbn [bind ok].
  reflexivity.
Qed.

(** ** Reading a row by header name *)

Lemma row_get_member_cell (cols : list string) (row : list Binary64.cell)
  (name : string) (c : Binary64.cell) :
  Binary64.row_get cols row name = ok c ->
  exists i,
    nth_error cols i = Some name /\
    (forall j, (j < i)%nat -> nth_error cols j <> Some name) /\
    nth_error row i = Some c.
Proof.
  revert row. induction cols as [|h hs IH]; intros [|v vs] H;
    try discriminate H.
  cbn [Binary64.row_get] in H.
  destruct (String.eqb h name) eqn:E.
  - apply String.eqb_eq in E. subst h. injection H as <-.
    exists 0%nat. repeat split. intros j Hj. lia.
  - apply String.eqb_neq in E.
    destruct (IH vs H) as (i & Hi & Hfirst & Hc).
    exists (S i). repeat split; trivial.
    intros [|j] Hj; cbn [nth_error].
    + congruence.
    + apply Hfirst. lia.
Qed.

Lemma row_get_skip_f (c : string) (cols : list string) (v : Binary64.cell)
  (row : list Binary64.cell) (n : string) :
  c <> n ->
  Binary64.row_get (c :: cols) (v :: row) n = Binary64.row_get cols row n.
Proof.
  intro H. cbn [Binary64.row_get]. apply String.eqb_neq in H. now rewrite H.
Qed.

Lemma falls_in_window (strptime : string -> result date)
  (window : date * date) (h : string) :
  Binary64.falls_in window (strptime h)
  = in_window (fst window) (snd window) (parse_header strptime h).
Proof. unfold parse_header. destruct (strptime h); reflexivity. Qed.

(** The cells the code reads by header name are the cells under the headers
    that fall inside the window, in column order. *)
Lemma selected_cells (strptime : string -> result date)
  (window : date * date) (names : list string) :
  NoDup names ->
  forall (cells selected : list Binary64.cell),
    mapM (Binary64.row_get names cells)
      (week_cols names (map (parse_header strptime) names)
         (fst window) (snd window))
    = ok selected ->
    selected = Binary64.cells_in strptime names cells window.
Proof.
  set (parse := parse_header strptime).
  induction names as [|h hs IH]; intros Hnd cells selected H.
  - cbn in H. injection H as <-. reflexivity.
  - inversion Hnd as [|? ? Hnotin Hnd']; subst.
    rewrite week_cols_map in H.
    assert (Hskip : forall c cs,
              mapM (Binary64.row_get (h :: hs) (c :: cs))
                (week_cols hs (map parse hs) (fst window) (snd window))
              = mapM (Binary64.row_get hs cs)
                  (week_cols hs (map parse hs) (fst window) (snd window))).
    { intros c cs. apply mapM_ext_in. intros n Hn. apply row_get_skip_f.
      intros ->. apply Hnotin. eapply week_cols_In; eauto. }
    destruct cells as [|c cs].
    + cbn [Binary64.cells_in].
      destruct (in_window _ _ (parse h)).
      * cbn in H. discriminate H.
      * destruct (week_cols hs _ _ _) as [|n ns]; cbn in H.
        -- now injection H as <-.
        -- destruct hs; discriminate H.
    + cbn [Binary64.cells_in]. rewrite falls_in_window. fold parse.
      destruct (in_window _ _ (parse h)).
      * cbn [mapM] in H.
        assert (Hh : Binary64.row_get (h :: hs) (c :: cs) h = ok c)
          by (cbn [Binary64.row_get]; now rewrite String.eqb_refl).
        rewrite Hh, Hskip in H. cbn [bind ok] in H. unfold ok in *.
        destruct (mapM (Binary64.row_get hs cs) _) as [e|rest] eqn:E;
          [discriminate H|].
        cbn [bind] in H. injection H as <-. f_equal. now apply IH.
      * rewrite Hskip in H. now apply IH.
Qed.

Lemma sum_from_in_order (cells : list Binary64.cell) (acc q : float) :
  Binary64.sum_from acc cells = ok q ->
  q = fold_left (fun a c => a + Binary64.hours c) cells acc.
Proof.
  revert acc. induction cells as [|c cs IH]; intros acc H.
  - now injection H as <-.
  - cbn [Binary64.sum_from] in H. destruct c as [x|s]; [|discriminate H].
    cbn [Binary64.addend bind ok] in H. cbn [fold_left Binary64.hours].
    now apply IH.
Qed.

Lemma series_sum_in_order (cells : list Binary64.cell) (q : float) :
  Binary64.series_sum cells = ok q -> q = Binary64.sum_in_order cells.
Proof.
  destruct cells as [|c cs]; intro H.
  - now injection H as <-.
  - cbn [Binary64.series_sum] in H. destruct c as [x|s]; [|discriminate H].
    cbn [Binary64.addend bind ok] in H.
    now apply sum_from_in_order in H.
Qed.

(** The sum the code takes by header name is the sum, in column order, of
    the cells whose header falls inside the window. *)
Lemma row_sum_window_f (strptime : string -> result date)
  (cols : list string) (row : list Binary64.cell) (window : date * date)
  (q : float) :
  NoDup cols ->
  Binary64.row_sum cols row (selected_cols strptime cols window) = ok q ->
  q = Binary64.sum_in_order
        (Binary64.cells_in strptime (tl cols) (tl row) window).
Proof.
  intros Hnd H. unfold Binary64.row_sum, selected_cols in H.
  destruct (mapM _ _) as [e|selected] eqn:E; [discriminate H|].
  cbn [bind] in H. apply series_sum_in_order in H. subst q. f_equal.
  destruct cols as [|c0 hs].
  - cbn in E. now injection E as <-.
  - cbn [tl] in *. inversion Hnd as [|? ? Hnotin Hnd']; subst.
    destruct row as [|r0 cs]; cbn [tl].
    + destruct (week_cols hs _ _ _) as [|n ns]; cbn in E.
      * injection E as <-. now destruct hs.
      * discriminate E.
    + apply selected_cells; trivial. etransitivity; [|exact E]. symmetry.
      apply mapM_ext_in. intros n Hn. apply row_get_skip_f.
      intros ->. apply Hnotin. eapply week_cols_In; eauto.
Qed.

Lemma cell_in_listed (c : Binary64.cell) (pm : list string) :
  Binary64.cell_in c pm = true <-> Binary64.listed c pm.
Proof.
  unfold Binary64.listed. destruct c as [x|s]; cbn [Binary64.cell_in].
  - split; [discriminate|]. intros (s & H & _). discriminate H.
  - rewrite existsb_exists. split.
    + intros (t & Hin & E). apply String.eqb_eq in E. subst t. now exists s.
    + intros (t & [= ->] & Hin). exists t. split; trivial.
      apply String.eqb_refl.
Qed.

(** A row that comes back is the closed form on the member cell of the row
    and on the sums over the three windows. *)
Lemma calculate_row_closed_form (strptime : string -> result date)
  (self : Binary64.Processor) (cols pm : list string)
  (row : list Binary64.cell) (window : week -> date * date)
  (r : Binary64.ResultRow) :
  NoDup cols ->
  Binary64.calculate_row self cols
    (selected_cols strptime cols (window ThisWeek))
    (selected_cols strptime cols (window NextWeek))
    (selected_cols strptime cols (window WeekAfterNext)) pm row = ok r ->
  let hours_of w :=
    Binary64.sum_in_order
      (Binary64.cells_in strptime (tl cols) (tl row)
         (window w)) in
  exists m,
    Binary64.member_cell cols row m /\
    r = Binary64.build_row self m (Binary64.cell_in m pm)
          (hours_of ThisWeek) (hours_of NextWeek) (hours_of WeekAfterNext).
Proof.
  intros Hnd H hours_of. rewrite calculate_row_eq_f in H. unfold ok in H.
  destruct (Binary64.row_get cols row member_col) as [e|m] eqn:Em;
    [discriminate H|]. cbn [bind] in H.
  destruct (Binary64.row_sum cols row (selected_cols _ _ (window ThisWeek)))
    as [e|p0] eqn:E0; [discriminate H|]. cbn [bind] in H.
  destruct (Binary64.row_sum cols row (selected_cols _ _ (window NextWeek)))
    as [e|p1] eqn:E1; [discriminate H|]. cbn [bind] in H.
  destruct (Binary64.row_sum cols row
              (selected_cols _ _ (window WeekAfterNext)))
    as [e|p2] eqn:E2; [discriminate H|]. cbn [bind] in H.
  injection H as <-.
  apply row_sum_window_f in E0, E1, E2; trivial. subst p0 p1 p2.
  exists m. split; [|reflexivity].
  now apply row_get_member_cell.
Qed.

Lemma calculate_row_inv_f (self : Binary64.Processor)
  (cols cw nw nnw pm : list string) (row : list Binary64.cell)
  (r : Binary64.ResultRow) :
  Binary64.calculate_row self cols cw nw nnw pm row = ok r ->
  exists m p0 p1 p2,
    Binary64.member_cell cols row m /\
    Binary64.row_sum cols row cw = ok p0 /\
    Binary64.row_sum cols row nw = ok p1 /\
    Binary64.row_sum cols row nnw = ok p2 /\
    r = Binary64.build_row self m (Binary64.cell_in m pm) p0 p1 p2.
Proof.
  rewrite calculate_row_eq_f. unfold ok.
  destruct (Binary64.row_get cols row member_col) as [e|m] eqn:Em;
    [discriminate|]. cbn [bind].
  destruct (Binary64.row_sum cols row cw) as [e|p0]; [discriminate|].
  cbn [bind].
  destruct (Binary64.row_sum cols row nw) as [e|p1]; [discriminate|].
  cbn [bind].
  destruct (Binary64.row_sum cols row nnw) as [e|p2]; [discriminate|].
  cbn [bind].
  intro H. injection H as <-. exists m, p0, p1, p2.
  repeat split; trivial. now apply row_get_member_cell.
Qed.

(** The overhead of a record, from the processor and the member cell. *)
Lemma build_row_overhead (self : Binary64.Processor) (m : Binary64.cell)
  (pm : list string) (p0 p1 p2 : float) (w : week) :
  let r := Binary64.build_row self m (Binary64.cell_in m pm) p0 p1 p2 in
  (Binary64.listed m pm ->
   Binary64.overhead_hours_in w r
   = Binary64.other_tasks_hours self
     + Binary64.primary_responsibility_hours self) /\
  (~ Binary64.listed m pm ->
   Binary64.overhead_hours_in w r = Binary64.other_tasks_hours self + 0).
Proof.
  cbv zeta. split; intro H.
  - apply cell_in_listed in H. destruct w; cbn; now rewrite H.
  - destruct (Binary64.cell_in m pm) eqn:E.
    + apply cell_in_listed in E. contradiction.
    + destruct w; reflexivity.
Qed.

Lemma build_row_week_f (self : Binary64.Processor) (m : Binary64.cell)
  (b : bool) (p0 p1 p2 : float) (w : week) :
  let r := Binary64.build_row self m b p0 p1 p2 in
  let p := match w with ThisWeek => p0 | NextWeek => p1 | WeekAfterNext => p2 end in
  Binary64.project_hours_in w r = p /\
  Binary64.total_hours_in w r = p + Binary64.overhead_hours_in w r /\
  Binary64.saturation_in w r
  = Binary64.round1
      (Binary64.saturation_of self (Binary64.total_hours_in w r)) /\
  Binary64.status_in w r
  = Binary64.get_status self
      (Binary64.saturation_of self (Binary64.total_hours_in w r)).
Proof.
  destruct w; cbn; repeat split; reflexivity.
Qed.

Lemma build_row_change_f (self : Binary64.Processor) (m : Binary64.cell)
  (b : bool) (p0 p1 p2 : float) :
  let r := Binary64.build_row self m b p0 p1 p2 in
  Binary64.change_rule
    (Binary64.current_week_total_hours r) (Binary64.next_week_total_hours r)
    (Binary64.next_week_change r) (Binary64.next_week_change_rate r) /\
  Binary64.change_rule
    (Binary64.next_week_total_hours r)
    (Binary64.next_next_week_total_hours r)
    (Binary64.next_next_week_change r)
    (Binary64.next_next_week_change_rate r).
Proof.
  assert (Hrule : forall prior current,
            Binary64.change_rule prior current
              (Binary64.round1 (fst (Binary64.change_of prior current)))
              (Binary64.store_rate (snd (Binary64.change_of prior current)))).
  { intros prior current. unfold Binary64.change_rule, Binary64.change_of.
    split; intro H; rewrite H; cbn [fst snd]; split; try reflexivity.
    unfold Binary64.store_rate.
    destruct (current =? 0); reflexivity. }
  cbv zeta. cbn. split; apply Hrule.
Qed.

(** ** Saturation of a member row *)

(** C2, amended: for every member row and every week window, when the
    standard hours are positive, the project hours are the sum, added in
    column order, of the member's hour cells whose header parses to a date
    inside the window, bounds included (a missing value counts for
    nothing); the total is that sum plus the overhead; the saturation is
    total / standard hours * 100, every operation rounded to the nearest
    binary64 float.  Only the stored saturation is rounded to one decimal:
    the status is classified from the unrounded float, and the change is
    taken from the unrounded totals.  (Headers of a table are pairwise
    distinct.) *)
Theorem row_saturation (strptime : string -> result date)
  (self : Binary64.Processor) (cols pm : list string)
  (row : list Binary64.cell) (window : week -> date * date)
  (r : Binary64.ResultRow) :
  NoDup cols ->
  (0 <? Binary64.standard_hours self) = true ->
  Binary64.calculate_row self cols
    (selected_cols strptime cols (window ThisWeek))
    (selected_cols strptime cols (window NextWeek))
    (selected_cols strptime cols (window WeekAfterNext)) pm row = ok r ->
  Binary64.member_cell cols row (Binary64.member r) /\
  (forall w,
     let project :=
       Binary64.sum_in_order
         (Binary64.cells_in strptime (tl cols) (tl row)
            (window w)) in
     let total := project + Binary64.overhead_hours_in w r in
     let saturation := total / Binary64.standard_hours self * 100 in
     Binary64.project_hours_in w r = project /\
     (Binary64.listed (Binary64.member r) pm ->
      Binary64.overhead_hours_in w r
      = Binary64.other_tasks_hours self
        + Binary64.primary_responsibility_hours self) /\
     (~ Binary64.listed (Binary64.member r) pm ->
      Binary64.overhead_hours_in w r = Binary64.other_tasks_hours self + 0) /\
     Binary64.total_hours_in w r = total /\
     Binary64.saturation_in w r = Binary64.round1 saturation /\
     Binary64.status_in w r = Binary64.get_status self saturation) /\
  ((0 <? Binary64.total_hours_in ThisWeek r) = true ->
   Binary64.next_week_change r
   = Binary64.round1 (Binary64.total_hours_in NextWeek r
                      - Binary64.total_hours_in ThisWeek r)) /\
  ((0 <? Binary64.total_hours_in NextWeek r) = true ->
   Binary64.next_next_week_change r
   = Binary64.round1 (Binary64.total_hours_in WeekAfterNext r
                      - Binary64.total_hours_in NextWeek r)).
Proof.
  intros Hnd Hstd H.
  destruct (calculate_row_closed_form strptime self cols pm row window r
              Hnd H) as (m & Hm & ->).
  split; [exact Hm|]. split; [|split].
  - intros w project total saturation.
    destruct (build_row_week_f self m (Binary64.cell_in m pm)
                (Binary64.sum_in_order
                   (Binary64.cells_in strptime (tl cols)
                      (tl row) (window ThisWeek)))
                (Binary64.sum_in_order
                   (Binary64.cells_in strptime (tl cols)
                      (tl row) (window NextWeek)))
                (Binary64.sum_in_order
                   (Binary64.cells_in strptime (tl cols)
                      (tl row) (window WeekAfterNext))) w)
      as (Hp & Ht & Hs & Hst).
    cbv zeta in Hp, Ht, Hs, Hst.
    assert (Hp' : Binary64.project_hours_in w
                    (Binary64.build_row self m (Binary64.cell_in m pm) _ _ _)
                  = project) by (rewrite Hp; now destruct w).
    assert (Ht' : Binary64.total_hours_in w
                    (Binary64.build_row self m (Binary64.cell_in m pm) _ _ _)
                  = total) by (rewrite Ht; subst total project; now destruct w).
    assert (Hsat : Binary64.saturation_of self total = saturation)
      by (unfold Binary64.saturation_of; now rewrite Hstd).
    split; [exact Hp'|].
    split; [apply (build_row_overhead self m pm)|].
    split; [apply (build_row_overhead self m pm)|].
    split; [exact Ht'|].
    rewrite Hs, Hst, Ht', Hsat. split; reflexivity.
  - cbn. intro Hpos. unfold Binary64.change_of. now rewrite Hpos.
  - cbn. intro Hpos. unfold Binary64.change_of. now rewrite Hpos.
Qed.

(** Member A with 90 minutes of other tasks: 44 hours in the week of
    2025-11-17 and 20 hours on the Monday after it, which count for the
    next week only; 45.5 hours of 40 are stored as 113.8. *)
Lemma row_saturation_witness :
  exists r,
    Binary64.calculate_row (Binary64.init Binary64.overhead_config)
      example_columns
      (selected_cols strptime_ymd example_columns (example_window ThisWeek))
      (selected_cols strptime_ymd example_columns (example_window NextWeek))
      (selected_cols strptime_ymd example_columns (example_window WeekAfterNext))
      [] Binary64.row_44_hours = ok r /\
    Binary64.saturation_in ThisWeek r
    = Binary64.round1
        ((Binary64.sum_in_order
            (Binary64.cells_in strptime_ymd
               (tl example_columns) (tl Binary64.row_44_hours)
               (example_window ThisWeek))
          + Binary64.overhead_hours_in ThisWeek r)
         / Binary64.standard_hours (Binary64.init Binary64.overhead_config)
         * 100) /\
    Binary64.project_hours_in ThisWeek r = 44 /\
    Binary64.project_hours_in NextWeek r = 20 /\
    Binary64.total_hours_in ThisWeek r = 45.5 /\
    Binary64.saturation_in ThisWeek r = 1138 / 10 /\
    Binary64.status_in ThisWeek r = overloaded.
Proof.
  destruct (Binary64.calculate_row (Binary64.init Binary64.overhead_config)
      example_columns
      (selected_cols strptime_ymd example_columns (example_window ThisWeek))
      (selected_cols strptime_ymd example_columns (example_window NextWeek))
      (selected_cols strptime_ymd example_columns (example_window WeekAfterNext))
      [] Binary64.row_44_hours) as [e|r] eqn:E; [vm_compute in E; discriminate|].
  exists r. split; [reflexivity|].
  destruct (row_saturation strptime_ymd
              (Binary64.init Binary64.overhead_config) example_columns []
              Binary64.row_44_hours example_window r
              example_columns_NoDup eq_refl E) as (_ & Hw & _).
  destruct (Hw ThisWeek) as (_ & _ & _ & _ & Hs & _).
  split; [exact Hs|].
  vm_compute in E. injection E as <-. repeat split; reflexivity.
Defined.

(** C2, as stated, fails: the saturation is not the exact quotient.  44
    hours of 40 are exactly 110 percent, which is not above the upper
    threshold 110, yet the float quotient 44 / 40 * 100 lies above 110 and
    the member is classified as overloaded.  And 11.5 hours of 40 are
    exactly 28.75 percent, which rounds to 28.8, yet 28.7 is stored. *)
Lemma saturation_exact_counterexample :
  (exists r,
     Binary64.calculate_row (Binary64.init Binary64.plain_config)
       example_columns
       (selected_cols strptime_ymd example_columns (example_window ThisWeek))
       (selected_cols strptime_ymd example_columns (example_window NextWeek))
       (selected_cols strptime_ymd example_columns (example_window WeekAfterNext))
       [] Binary64.row_44_hours = ok r /\
     Binary64.exactly (Binary64.total_hours_in ThisWeek r) (44 # 1) /\
     Binary64.exactly
       (Binary64.standard_hours (Binary64.init Binary64.plain_config))
       (40 # 1) /\
     Binary64.exactly
       (Binary64.normal_max (Binary64.init Binary64.plain_config)) (110 # 1) /\
     ((44 # 1) / (40 # 1) * (100 # 1) <= 110 # 1)%Q /\
     (110 <? 44 / 40 * 100) = true /\
     Binary64.status_in ThisWeek r = overloaded) /\
  (exists r,
     Binary64.calculate_row (Binary64.init Binary64.plain_config)
       example_columns
       (selected_cols strptime_ymd example_columns (example_window ThisWeek))
       (selected_cols strptime_ymd example_columns (example_window NextWeek))
       (selected_cols strptime_ymd example_columns (example_window WeekAfterNext))
       [] Binary64.row_11_5_hours = ok r /\
     Binary64.exactly (Binary64.total_hours_in ThisWeek r) (115 # 10) /\
     (round1 ((115 # 10) / (40 # 1) * (100 # 1)) == 288 # 10)%Q /\
     Binary64.saturation_in ThisWeek r = 287 / 10).
Proof.
  split; eexists; (split; [vm_compute; reflexivity|]);
    repeat split; try reflexivity; vm_compute; discriminate.
Qed.

(** ** Overhead hours *)

Lemma init_other_tasks_hours (config : Binary64.Config) :
  Binary64.other_tasks_hours (Binary64.init config)
  = Binary64.configured_other_hours config.
Proof.
  unfold Binary64.init, Binary64.configured_other_hours.
  cbn [Binary64.other_tasks_hours].
  destruct (Binary64.other_tasks config) as [[[en|] [mi|]]|]; reflexivity.
Qed.

Lemma init_primary_responsibility_hours (config : Binary64.Config) :
  Binary64.primary_responsibility_hours (Binary64.init config)
  = Binary64.configured_primary_hours config.
Proof.
  unfold Binary64.init, Binary64.configured_primary_hours.
  cbn [Binary64.primary_responsibility_hours].
  destruct (Binary64.standard_hours_per_week config) as [h|],
           (Binary64.primary_responsibility config) as [[[en|] [pc|]]|];
    reflexivity.
Qed.

(** C6: for every member, the overhead hours are the other-tasks hours
    (weekly minutes / 60 when other tasks are enabled, else 0) plus the
    primary-responsibility hours (standard hours * weekly percentage when
    primary responsibility is enabled, else 0) exactly when the member is
    in the primary-members list, and plus 0 otherwise; the value is the
    same in all three weeks.  The member is the cell under the member
    header of the row; the settings are those of the configuration, an
    absent one standing for its default. *)
Theorem overhead_hours_configured (config : Binary64.Config)
  (cols cw nw nnw pm : list string) (row : list Binary64.cell)
  (r : Binary64.ResultRow) :
  Binary64.calculate_row (Binary64.init config) cols cw nw nnw pm row = ok r ->
  Binary64.member_cell cols row (Binary64.member r) /\
  (Binary64.listed (Binary64.member r) pm ->
   forall w,
     Binary64.overhead_hours_in w r
     = Binary64.configured_other_hours config
       + Binary64.configured_primary_hours config) /\
  (~ Binary64.listed (Binary64.member r) pm ->
   forall w,
     Binary64.overhead_hours_in w r
     = Binary64.configured_other_hours config + 0).
Proof.
  intro H.
  apply calculate_row_inv_f in H
    as (m & p0 & p1 & p2 & Hm & _ & _ & _ & ->).
  split; [exact Hm|].
  split; intros Hl w;
    destruct (build_row_overhead (Binary64.init config) m pm p0 p1 p2 w)
      as (Hin & Hout); cbv zeta in Hin, Hout.
  - rewrite (Hin Hl), init_other_tasks_hours,
      init_primary_responsibility_hours. reflexivity.
  - rewrite (Hout Hl), init_other_tasks_hours. reflexivity.
Qed.

(** Member A of the example.  Listed under a configuration with 90 minutes
    of other tasks and half of 40 standard hours: 1.5 + 20 hours in every
    week.  Not listed: 1.5 hours.  Listed, with other tasks and primary
    responsibility both disabled: no overhead. *)
Lemma overhead_hours_configured_witness :
  (exists r,
     Binary64.calculate_row (Binary64.init Binary64.overhead_config)
       example_columns
       (selected_cols strptime_ymd example_columns (example_window ThisWeek))
       (selected_cols strptime_ymd example_columns (example_window NextWeek))
       (selected_cols strptime_ymd example_columns (example_window WeekAfterNext))
       ["A"; "Z"] Binary64.row_44_hours = ok r /\
     Binary64.member r = Binary64.CStr "A" /\
     (forall w, Binary64.overhead_hours_in w r = 90 / 60 + 40 * 0.5) /\
     (forall w, Binary64.overhead_hours_in w r = 21.5)) /\
  (exists r,
     Binary64.calculate_row (Binary64.init Binary64.overhead_config)
       example_columns
       (selected_cols strptime_ymd example_columns (example_window ThisWeek))
       (selected_cols strptime_ymd example_columns (example_window NextWeek))
       (selected_cols strptime_ymd example_columns (example_window WeekAfterNext))
       ["B"; "Z"] Binary64.row_44_hours = ok r /\
     (forall w, Binary64.overhead_hours_in w r = 90 / 60 + 0) /\
     (forall w, Binary64.overhead_hours_in w r = 1.5)) /\
  (exists r,
     Binary64.calculate_row (Binary64.init Binary64.plain_config)
       example_columns
       (selected_cols strptime_ymd example_columns (example_window ThisWeek))
       (selected_cols strptime_ymd example_columns (example_window NextWeek))
       (selected_cols strptime_ymd example_columns (example_window WeekAfterNext))
       ["A"; "Z"] Binary64.row_44_hours = ok r /\
     (forall w, Binary64.overhead_hours_in w r = 0 + 0)).
Proof.
  split; [|split].
  - destruct (Binary64.calculate_row (Binary64.init Binary64.overhead_config)
      example_columns
      (selected_cols strptime_ymd example_columns (example_window ThisWeek))
      (selected_cols strptime_ymd example_columns (example_window NextWeek))
      (selected_cols strptime_ymd example_columns (example_window WeekAfterNext))
      ["A"; "Z"] Binary64.row_44_hours) as [e|r] eqn:E;
      [vm_compute in E; discriminate|].
    exists r. split; [reflexivity|].
    destruct (overhead_hours_configured Binary64.overhead_config _ _ _ _ _ _ r E)
      as (_ & Hin & _).
    assert (Hm : Binary64.member r = Binary64.CStr "A")
      by (vm_compute in E; injection E as <-; reflexivity).
    split; [exact Hm|]. split.
    + intro w. rewrite (Hin (ex_intro _ "A" (conj Hm (or_introl eq_refl))) w).
      reflexivity.
    + intro w. rewrite (Hin (ex_intro _ "A" (conj Hm (or_introl eq_refl))) w).
      reflexivity.
  - destruct (Binary64.calculate_row (Binary64.init Binary64.overhead_config)
      example_columns
      (selected_cols strptime_ymd example_columns (example_window ThisWeek))
      (selected_cols strptime_ymd example_columns (example_window NextWeek))
      (selected_cols strptime_ymd example_columns (example_window WeekAfterNext))
      ["B"; "Z"] Binary64.row_44_hours) as [e|r] eqn:E;
      [vm_compute in E; discriminate|].
    exists r. split; [reflexivity|].
    destruct (overhead_hours_configured Binary64.overhead_config _ _ _ _ _ _ r E)
      as (_ & _ & Hout).
    assert (Hm : Binary64.member r = Binary64.CStr "A")
      by (vm_compute in E; injection E as <-; reflexivity).
    assert (Hnot : ~ Binary64.listed (Binary64.member r) ["B"; "Z"]).
    { rewrite Hm. intros (s & [= <-] & [Hs|[Hs|[]]]); discriminate Hs. }
    split; intro w; rewrite (Hout Hnot w); reflexivity.
  - destruct (Binary64.calculate_row (Binary64.init Binary64.plain_config)
      example_columns
      (selected_cols strptime_ymd example_columns (example_window ThisWeek))
      (selected_cols strptime_ymd example_columns (example_window NextWeek))
      (selected_cols strptime_ymd example_columns (example_window WeekAfterNext))
      ["A"; "Z"] Binary64.row_44_hours) as [e|r] eqn:E;
      [vm_compute in E; discriminate|].
    exists r. split; [reflexivity|].
    destruct (overhead_hours_configured Binary64.plain_config _ _ _ _ _ _ r E)
      as (_ & Hin & _).
    assert (Hm : Binary64.member r = Binary64.CStr "A")
      by (vm_compute in E; injection E as <-; reflexivity).
    intro w. rewrite (Hin (ex_intro _ "A" (conj Hm (or_introl eq_refl))) w).
    reflexivity.
Defined.

(** ** Change and change rate *)

(** C4, amended: for every member and each of the weeks 1 and 2, with the
    totals being the sums over the windows plus the overhead: when the
    prior total is positive, the stored change is the week's total minus
    the prior total, rounded to one decimal, and the stored change rate is
    change / prior total * 100 on floats, rounded to one decimal, or 0 when
    that product overflows to +infinity; when the prior total is zero (or
    not positive), the stored change is the week's total rounded to one
    decimal and the stored rate is the finite placeholder 0, whether the
    week's total is zero or not. *)
Theorem row_change (strptime : string -> result date)
  (self : Binary64.Processor) (cols pm : list string)
  (row : list Binary64.cell) (window : week -> date * date)
  (r : Binary64.ResultRow) :
  NoDup cols ->
  Binary64.calculate_row self cols
    (selected_cols strptime cols (window ThisWeek))
    (selected_cols strptime cols (window NextWeek))
    (selected_cols strptime cols (window WeekAfterNext)) pm row = ok r ->
  (forall w,
     Binary64.total_hours_in w r
     = Binary64.sum_in_order
         (Binary64.cells_in strptime (tl cols) (tl row)
            (window w))
       + Binary64.overhead_hours_in w r) /\
  Binary64.change_rule
    (Binary64.total_hours_in ThisWeek r) (Binary64.total_hours_in NextWeek r)
    (Binary64.next_week_change r) (Binary64.next_week_change_rate r) /\
  Binary64.change_rule
    (Binary64.total_hours_in NextWeek r)
    (Binary64.total_hours_in WeekAfterNext r)
    (Binary64.next_next_week_change r)
    (Binary64.next_next_week_change_rate r).
Proof.
  intros Hnd H.
  destruct (calculate_row_closed_form strptime self cols pm row window r
              Hnd H) as (m & _ & ->).
  split; [|apply build_row_change_f].
  intro w. destruct w; reflexivity.
Qed.

(** A member without overhead and with totals 0, 20, 0: the change of the
    next week is 20 and its rate the placeholder 0; the week after, the
    change is -20 and the rate -100. *)
Lemma row_change_witness :
  exists r,
    Binary64.calculate_row (Binary64.init Binary64.plain_config)
      example_columns
      (selected_cols strptime_ymd example_columns (example_window ThisWeek))
      (selected_cols strptime_ymd example_columns (example_window NextWeek))
      (selected_cols strptime_ymd example_columns (example_window WeekAfterNext))
      [] Binary64.row_idle_then_20 = ok r /\
    Binary64.change_rule
      (Binary64.total_hours_in ThisWeek r)
      (Binary64.total_hours_in NextWeek r)
      (Binary64.next_week_change r) (Binary64.next_week_change_rate r) /\
    Binary64.total_hours_in ThisWeek r = 0 /\
    Binary64.total_hours_in NextWeek r = 20 /\
    Binary64.next_week_change r = 20 /\
    Binary64.next_week_change_rate r = 0 /\
    Binary64.next_next_week_change r = -20 /\
    Binary64.next_next_week_change_rate r = -100.
Proof.
  destruct (Binary64.calculate_row (Binary64.init Binary64.plain_config)
      example_columns
      (selected_cols strptime_ymd example_columns (example_window ThisWeek))
      (selected_cols strptime_ymd example_columns (example_window NextWeek))
      (selected_cols strptime_ymd example_columns (example_window WeekAfterNext))
      [] Binary64.row_idle_then_20) as [e|r] eqn:E;
    [vm_compute in E; discriminate|].
  exists r. split; [reflexivity|].
  destruct (row_change strptime_ymd (Binary64.init Binary64.plain_config)
              example_columns [] Binary64.row_idle_then_20 example_window r
              example_columns_NoDup E) as (_ & H1 & _).
  split; [exact H1|].
  vm_compute in E. injection E as <-. repeat split; reflexivity.
Defined.

(** C4, as stated, fails in three ways.  The stored change is rounded:
    totals of 1.5 and 1.54 hours give a stored change of 0 although they
    differ.  The stored rate is rounded, and rounded from the float
    quotient: totals of 40 and 14.5 hours make the rate exactly -63.75, and
    -63.7 is stored.  And when the prior total is negative the change is
    the week's total itself: totals of -8 and 0 give 0, not 8. *)
Lemma change_counterexample :
  (exists r,
     Binary64.calculate_row (Binary64.init Binary64.overhead_config)
       example_columns
       (selected_cols strptime_ymd example_columns (example_window ThisWeek))
       (selected_cols strptime_ymd example_columns (example_window NextWeek))
       (selected_cols strptime_ymd example_columns (example_window WeekAfterNext))
       [] Binary64.row_small_change = ok r /\
     Binary64.total_hours_in ThisWeek r = 1.5 /\
     (Binary64.total_hours_in NextWeek r
      =? Binary64.total_hours_in ThisWeek r) = false /\
     Binary64.next_week_change r = 0) /\
  (exists r,
     Binary64.calculate_row (Binary64.init Binary64.plain_config)
       example_columns
       (selected_cols strptime_ymd example_columns (example_window ThisWeek))
       (selected_cols strptime_ymd example_columns (example_window NextWeek))
       (selected_cols strptime_ymd example_columns (example_window WeekAfterNext))
       [] Binary64.row_40_then_14_5 = ok r /\
     Binary64.exactly (Binary64.total_hours_in ThisWeek r) (40 # 1) /\
     Binary64.exactly (Binary64.total_hours_in NextWeek r) (145 # 10) /\
     (((145 # 10) - (40 # 1)) / (40 # 1) * (100 # 1) == - (6375 # 100))%Q /\
     Binary64.next_week_change_rate r = - (637 / 10) /\
     ~ Binary64.exactly (Binary64.next_week_change_rate r) (- (6375 # 100))) /\
  (exists r,
     Binary64.calculate_row (Binary64.init Binary64.plain_config)
       example_columns
       (selected_cols strptime_ymd example_columns (example_window ThisWeek))
       (selected_cols strptime_ymd example_columns (example_window NextWeek))
       (selected_cols strptime_ymd example_columns (example_window WeekAfterNext))
       [] Binary64.row_negative_hours = ok r /\
     Binary64.total_hours_in ThisWeek r = -8 /\
     Binary64.total_hours_in NextWeek r = 0 /\
     Binary64.total_hours_in NextWeek r - Binary64.total_hours_in ThisWeek r
     = 8 /\
     Binary64.next_week_change r = 0).
Proof.
  split; [|split]; eexists; (split; [vm_compute; reflexivity|]);
    repeat split; try reflexivity; vm_compute; discriminate.
Qed.

(** ** Standard hours that are not positive *)

Lemma row_get_error_f (cols : list string) (row : list Binary64.cell)
  (name : string) (e : error) :
  Binary64.row_get cols row name = raise e -> e = KeyError name.
Proof.
  revert row. induction cols as [|h hs IH]; intros [|v vs] H;
    try (injection H as <-; reflexivity).
  cbn [Binary64.row_get] in H.
  destruct (String.eqb h name); [discriminate H | eauto].
Qed.

Lemma sum_from_error_f (cells : list Binary64.cell) (acc : float) (e : error) :
  Binary64.sum_from acc cells = raise e -> e = TypeError.
Proof.
  revert acc. induction cells as [|c cs IH]; intros acc H; [discriminate H|].
  cbn [Binary64.sum_from] in H. destruct c as [x|s].
  - cbn [Binary64.addend bind ok] in H. eauto.
  - injection H as <-. reflexivity.
Qed.

Lemma row_sum_error_f (cols : list string) (row : list Binary64.cell)
  (names : list string) (e : error) :
  Binary64.row_sum cols row names = raise e ->
  e = TypeError \/ exists n, e = KeyError n.
Proof.
  unfold Binary64.row_sum. intro H.
  destruct (mapM (Binary64.row_get cols row) names) as [e'|cells] eqn:E.
  - cbn [bind] in H. injection H as <-. right.
    apply (mapM_error (fun e => exists n, e = KeyError n)
             (Binary64.row_get cols row) names); [|exact E].
    intros n e0 He. apply row_get_error_f in He. now exists n.
  - cbn [bind] in H. left. destruct cells as [|c cs]; [discriminate H|].
    cbn [Binary64.series_sum] in H. destruct c as [x|s].
    + cbn [Binary64.addend bind ok] in H. eapply sum_from_error_f; eauto.
    + injection H as <-. reflexivity.
Qed.

(** The loop body raises nothing but [KeyError] and [TypeError]. *)
Lemma calculate_row_error_f (self : Binary64.Processor)
  (cols cw nw nnw pm : list string) (row : list Binary64.cell) (e : error) :
  Binary64.calculate_row self cols cw nw nnw pm row = raise e ->
  e = TypeError \/ exists n, e = KeyError n.
Proof.
  rewrite calculate_row_eq_f. unfold raise.
  destruct (Binary64.row_get cols row member_col) as [e'|m] eqn:Em.
  - cbn [bind]. intros [= <-]. right. apply row_get_error_f in Em. eauto.
  - cbn [bind].
    destruct (Binary64.row_sum cols row cw) as [e'|p0] eqn:E0;
      [cbn [bind]; intros [= <-]; eapply row_sum_error_f; eauto|].
    cbn [bind].
    destruct (Binary64.row_sum cols row nw) as [e'|p1] eqn:E1;
      [cbn [bind]; intros [= <-]; eapply row_sum_error_f; eauto|].
    cbn [bind].
    destruct (Binary64.row_sum cols row nnw) as [e'|p2] eqn:E2;
      [cbn [bind]; intros [= <-]; eapply row_sum_error_f; eauto|].
    cbn [bind]. discriminate.
Qed.

Lemma row_get_total_f (cols : list string) (row : list Binary64.cell)
  (name : string) :
  In name cols -> (length cols <= length row)%nat ->
  exists c, Binary64.row_get cols row name = ok c.
Proof.
  revert row. induction cols as [|h hs IH]; intros [|v vs] Hin Hlen;
    cbn [length] in Hlen; try contradiction; try lia.
  cbn [Binary64.row_get]. destruct (String.eqb h name) eqn:E; [eauto|].
  apply String.eqb_neq in E. destruct Hin as [->|Hin]; [contradiction|].
  apply IH; trivial. lia.
Qed.

Lemma selected_cells_total (strptime : string -> result date)
  (window : date * date) (names : list string) :
  NoDup names ->
  forall cells : list Binary64.cell,
    (length names <= length cells)%nat ->
    mapM (Binary64.row_get names cells)
      (week_cols names (map (parse_header strptime) names)
         (fst window) (snd window))
    = ok (Binary64.cells_in strptime names cells window).
Proof.
  set (parse := parse_header strptime).
  induction names as [|h hs IH]; intros Hnd cells Hlen; [reflexivity|].
  inversion Hnd as [|? ? Hnotin Hnd']; subst.
  destruct cells as [|c cs]; cbn [length] in Hlen; [lia|].
  rewrite week_cols_map. cbn [Binary64.cells_in]. rewrite falls_in_window.
  fold parse.
  assert (Hskip :
            mapM (Binary64.row_get (h :: hs) (c :: cs))
              (week_cols hs (map parse hs) (fst window) (snd window))
            = mapM (Binary64.row_get hs cs)
                (week_cols hs (map parse hs) (fst window) (snd window))).
  { apply mapM_ext_in. intros n Hn. apply row_get_skip_f.
    intros ->. apply Hnotin. eapply week_cols_In; eauto. }
  destruct (in_window _ _ (parse h)).
  - cbn [mapM].
    assert (Hh : Binary64.row_get (h :: hs) (c :: cs) h = ok c)
      by (cbn [Binary64.row_get]; now rewrite String.eqb_refl).
    rewrite Hh, Hskip, IH by (trivial; lia). reflexivity.
  - rewrite Hskip. apply IH; trivial. lia.
Qed.

Lemma sum_from_numbers (cells : list Binary64.cell) (acc : float) :
  forallb Binary64.is_number cells = true ->
  Binary64.sum_from acc cells
  = ok (fold_left (fun a c => a + Binary64.hours c) cells acc).
Proof.
  revert acc. induction cells as [|c cs IH]; intros acc H; [reflexivity|].
  cbn [forallb] in H. apply andb_true_iff in H as (Hc & Hcs).
  destruct c as [x|s]; [|discriminate Hc].
  cbn [Binary64.sum_from Binary64.addend bind ok fold_left Binary64.hours].
  now apply IH.
Qed.

Lemma series_sum_numbers (cells : list Binary64.cell) :
  forallb Binary64.is_number cells = true ->
  Binary64.series_sum cells = ok (Binary64.sum_in_order cells).
Proof.
  destruct cells as [|c cs]; intro H; [reflexivity|].
  cbn [forallb] in H. apply andb_true_iff in H as (Hc & Hcs).
  destruct c as [x|s]; [|discriminate Hc].
  cbn [Binary64.series_sum Binary64.addend bind ok Binary64.sum_in_order
         Binary64.hours].
  now apply sum_from_numbers.
Qed.

(** A row with a cell under every header sums every window whose cells are
    numbers. *)
Lemma row_sum_total_f (strptime : string -> result date)
  (cols : list string) (row : list Binary64.cell) (window : date * date) :
  NoDup cols ->
  (length cols <= length row)%nat ->
  forallb Binary64.is_number
    (Binary64.cells_in strptime (tl cols) (tl row) window)
  = true ->
  Binary64.row_sum cols row (selected_cols strptime cols window)
  = ok (Binary64.sum_in_order
          (Binary64.cells_in strptime (tl cols) (tl row)
             window)).
Proof.
  intros Hnd Hlen Hnum. unfold Binary64.row_sum, selected_cols.
  destruct cols as [|c0 hs]; [reflexivity|].
  destruct row as [|r0 cs]; cbn [length] in Hlen; [lia|].
  cbn [tl] in *. inversion Hnd as [|? ? Hnotin Hnd']; subst.
  rewrite (mapM_ext_in _ (Binary64.row_get hs cs)).
  - rewrite selected_cells_total by (trivial; lia). cbn [bind].
    now apply series_sum_numbers.
  - intros n Hn. apply row_get_skip_f. intros ->. apply Hnotin.
    eapply week_cols_In; eauto.
Qed.

Lemma saturation_of_nonpositive_f (self : Binary64.Processor) (total : float) :
  (Binary64.standard_hours self <=? 0) = true ->
  Binary64.saturation_of self total = 0.
Proof.
  intro H. unfold Binary64.saturation_of.
  now rewrite float_nonpos_not_pos.
Qed.

(** C10: for every member row, when the standard hours are zero or
    negative the calculation raises no division error, and it returns a
    record whenever the row has a cell under every header, the member
    header is present and the cells of the three windows are numbers.  In
    the record the saturation of every week is 0 (and the status idle),
    while the project hours are still the sums over the windows, the total
    hours the project hours plus the overhead of the member, and the
    changes follow the totals. *)
Theorem nonpositive_standard_hours_row (strptime : string -> result date)
  (self : Binary64.Processor) (cols pm : list string)
  (row : list Binary64.cell) (window : week -> date * date) :
  NoDup cols ->
  (Binary64.standard_hours self <=? 0) = true ->
  let run :=
    Binary64.calculate_row self cols
      (selected_cols strptime cols (window ThisWeek))
      (selected_cols strptime cols (window NextWeek))
      (selected_cols strptime cols (window WeekAfterNext)) pm row in
  let hours_of w :=
    Binary64.sum_in_order
      (Binary64.cells_in strptime (tl cols) (tl row)
         (window w)) in
  run <> raise ZeroDivisionError /\
  ((length cols <= length row)%nat ->
   In member_col cols ->
   (forall w,
      forallb Binary64.is_number
        (Binary64.cells_in strptime (tl cols) (tl row)
           (window w)) = true) ->
   exists r, run = ok r) /\
  (forall r, run = ok r ->
     Binary64.member_cell cols row (Binary64.member r) /\
     (forall w,
        Binary64.saturation_in w r = 0 /\
        Binary64.status_in w r = idle /\
        Binary64.project_hours_in w r = hours_of w /\
        (Binary64.listed (Binary64.member r) pm ->
         Binary64.overhead_hours_in w r
         = Binary64.other_tasks_hours self
           + Binary64.primary_responsibility_hours self) /\
        (~ Binary64.listed (Binary64.member r) pm ->
         Binary64.overhead_hours_in w r
         = Binary64.other_tasks_hours self + 0) /\
        Binary64.total_hours_in w r
        = hours_of w + Binary64.overhead_hours_in w r) /\
     Binary64.change_rule
       (Binary64.total_hours_in ThisWeek r)
       (Binary64.total_hours_in NextWeek r)
       (Binary64.next_week_change r) (Binary64.next_week_change_rate r) /\
     Binary64.change_rule
       (Binary64.total_hours_in NextWeek r)
       (Binary64.total_hours_in WeekAfterNext r)
       (Binary64.next_next_week_change r)
       (Binary64.next_next_week_change_rate r)).
Proof.
  intros Hnd Hstd run hours_of. subst run. split; [|split].
  - intro H. apply calculate_row_error_f in H as [H | (n & H)]; discriminate.
  - intros Hlen Hin Hnum.
    rewrite calculate_row_eq_f.
    destruct (row_get_total_f cols row member_col Hin Hlen) as (m & ->).
    cbn [bind ok].
    rewrite !(row_sum_total_f strptime cols row) by auto.
    cbn [bind ok]. eauto.
  - intros r H.
    destruct (calculate_row_closed_form strptime self cols pm row window r
                Hnd H) as (m & Hm & ->).
    split; [exact Hm|]. split; [|apply build_row_change_f].
    intro w.
    destruct (build_row_week_f self m (Binary64.cell_in m pm)
                (hours_of ThisWeek) (hours_of NextWeek)
                (hours_of WeekAfterNext) w) as (Hp & Ht & Hs & Hst).
    cbv zeta in Hp, Ht, Hs, Hst.
    rewrite saturation_of_nonpositive_f in Hs, Hst by assumption.
    split; [exact Hs|]. split; [exact Hst|].
    split; [destruct w; reflexivity|].
    split; [apply (build_row_overhead self m pm)|].
    split; [apply (build_row_overhead self m pm)|].
    destruct w; reflexivity.
Qed.

(** Member A under a configuration with 0 standard hours: 44 and 20
    project hours, 1.5 hours of overhead, every saturation 0. *)
Lemma nonpositive_standard_hours_row_witness :
  exists r,
    Binary64.calculate_row (Binary64.init Binary64.zero_standard_hours)
      example_columns
      (selected_cols strptime_ymd example_columns (example_window ThisWeek))
      (selected_cols strptime_ymd example_columns (example_window NextWeek))
      (selected_cols strptime_ymd example_columns (example_window WeekAfterNext))
      [] Binary64.row_44_hours = ok r /\
    (forall w,
       Binary64.saturation_in w r = 0 /\ Binary64.status_in w r = idle) /\
    Binary64.total_hours_in ThisWeek r = 45.5 /\
    Binary64.total_hours_in NextWeek r = 21.5 /\
    Binary64.next_week_change r = -24.
Proof.
  destruct (nonpositive_standard_hours_row strptime_ymd
              (Binary64.init Binary64.zero_standard_hours) example_columns []
              Binary64.row_44_hours example_window example_columns_NoDup
              eq_refl) as (_ & Hret & Hrec).
  destruct Hret as (r & E).
  - vm_compute. lia.
  - cbn. tauto.
  - intros [| |]; reflexivity.
  - exists r. split; [exact E|].
    destruct (Hrec r E) as (_ & Hw & _).
    split; [intro w; destruct (Hw w) as (Hs & Hst & _); now split|].
    vm_compute in E. injection E as <-. repeat split; reflexivity.
Defined.

End Binary64Properties.
